(** * IsoCard: object registry and physics synchronisation

    A shallow embedding of [src/isocard.ts] (class [IsoCard]): the object
    registry ([addObject], [replaceObject], [updateObject], [removeObject]
    and the layer operations), the geometry and shape builders
    ([createGeometry], [getScaledShapeDimensions]), the physics attachment
    ([convertObjectToDynamic], [batchConvertToPhysics],
    [convertMainLayerToStaticBodies], [initializeScenePhysics],
    [createFloor], [dropTestBall]), the engine's life cycle ([setupJOLT],
    [resetPhysics], [setGravityConfig]), the transform snapshot store
    ([startPhysics] / [stopPhysics]) and the frame callbacks ([animate],
    [renderSync]).  The last part defines the states an instance can reach
    by calls of these methods and the invariant they keep.

    Modelling conventions.
    - A JavaScript number is an exact rational ([Q]); rounding is not
      modelled, and where a statement depends on a number being a
      floating-point number it says so ([dyadic]).  [x || d] on a number
      takes [d] when [x] is missing or zero.  A number that is [undefined]
      or [NaN] where it reaches the engine is [None].
    - [this.layers] is a plain object read by [this.layers[name]], which
      also finds the members every object inherits ([layerSlot]).  Such a
      member has neither [visible] nor [opacity]; what [setLayerVisibility]
      and [updateLayerOpacity] write onto it belongs to the JavaScript
      realm, not to the instance, and is not kept.  A handle's [visible]
      is kept by its truth value: [false] also stands for [undefined].
    - Three.js objects are mutable and shared by reference (the registry,
      the scene graph and [dynamicObjects] all point at the same mesh), so
      they live in a store [heap] and are named by their index.  Position,
      quaternion, Euler rotation and scale of an object are separate
      fields; the coupling Three.js keeps between quaternion and Euler
      rotation is not modelled.
    - Physics bodies are owned by the engine: they live in the table
      [world], and [userData.body] is an index into it.  A body that is
      removed and destroyed keeps its row, marked so, and so does every
      body of an engine that is destroyed: a row of the table says what a
      reference still held by a handle points at, not that the body is
      alive.
    - The injected libraries ([IsoDeps] in the source) are a type class:
      what the engine computes on its own (a simulation step, a normalised
      vector, a bounding box, a body's inverse mass) is a field of it.
      Constructors of the libraries return; [setupJOLT] is modelled for an
      engine module that loads.
    - Camera, renderer, selection highlight and change callbacks carry no
      state read by the modelled operations and are left out. *)

From Stdlib Require Import QArith Lqa ZArith.
From stdpp Require Import base option list strings pretty gmap.

Set Default Proof Using "Type".

(** ** Numbers and small vectors *)

Record Vec3 := mkVec3 { vx : Q; vy : Q; vz : Q }.
Record Quat := mkQuat { qx : Q; qy : Q; qz : Q; qw : Q }.

Definition vec0 : Vec3 := mkVec3 0 0 0.
Definition vec1 : Vec3 := mkVec3 1 1 1.
Definition quatId : Quat := mkQuat 0 0 0 1.

(** [x || d] for an optional number: [undefined], and [0], are falsy. *)
Definition truthyQ (x : Q) : bool := negb (Qeq_bool x 0).

Definition orQ (o : option Q) (d : Q) : Q :=
  match o with
  | Some v => if truthyQ v then v else d
  | None => d
  end.

(** [s || d] for an optional string: [undefined] and the empty string are falsy. *)
Definition truthyS (s : string) : bool :=
  match s with EmptyString => false | _ => true end.

Definition orS (o : option string) (d : string) : string :=
  match o with
  | Some s => if truthyS s then s else d
  | None => d
  end.

Definition Math_max (a b : Q) : Q := if Qle_bool a b then b else a.
Definition Math_min (a b : Q) : Q := if Qle_bool a b then a else b.
Definition Math_max3 (a b c : Q) : Q := Math_max (Math_max a b) c.

(** [Math.PI] is the double 884279719003555 * 2^-48. *)
Definition Math_PI : Q := 884279719003555 # 281474976710656.

Definition Qgtb (a b : Q) : bool := negb (Qle_bool a b).
Definition Qltb (a b : Q) : bool := negb (Qle_bool b a).

(** ** Declarative configuration (the JSON descriptors) *)

(** [shape: AnyRecord]: a type tag and a bag of numeric properties. *)
Record Shape := mkShape {
  s_type : option string;
  s_props : gmap string Q
}.

Definition prop (s : Shape) (k : string) : option Q := s_props s !! k.

Definition setProp (k : string) (v : Q) (s : Shape) : Shape :=
  mkShape (s_type s) (<[k := v]> (s_props s)).

Record MaterialCfg := mkMaterialCfg {
  m_type : option string;
  m_color : option Q;
  m_opacity : option Q;
  m_transparent : option bool
}.

Record PhysicsConfig := mkPhysicsConfig {
  p_motionType : option string;
  p_mass : option Q;
  p_friction : option Q;
  p_restitution : option Q;
  p_gravityStrength : option Q
}.

Record GravityCfg := mkGravityCfg {
  g_type : option string;
  g_vector : option Vec3;
  g_strength : option Q
}.

(** [config.rot]: four components are a quaternion, three are euler radians. *)
Inductive Rot := RotQuat (q : Quat) | RotEuler (e : Vec3).

(** A scene descriptor entry; also the shape of [updates] in [updateObject],
    where a field that is [None] is a key that is not present. *)
Record Config := mkConfig {
  c_type : option string;
  c_name : option string;
  c_layer : option string;
  c_enabled : option bool;
  c_shape : option Shape;
  c_material : option MaterialCfg;
  c_color : option Q;
  c_pos : option Vec3;
  c_euler : option Vec3;
  c_rot : option Rot;
  c_scale : option Vec3;
  c_castShadow : option bool;
  c_receiveShadow : option bool;
  c_lightType : option string;
  c_helperType : option string;
  c_intensity : option Q;
  c_skyColor : option Q;
  c_target : option Vec3;
  c_physics : option PhysicsConfig;
  c_gravity : option GravityCfg
}.

Definition emptyConfig : Config :=
  mkConfig None None None None None None None None None None
           None None None None None None None None None None.

(** ** Render handles (Three.js objects) *)

Record Geometry := mkGeometry {
  geo_type : string;
  geo_args : list Q;
  geo_disposed : bool
}.

Record Material := mkMaterial {
  mat_type : string;
  mat_color : option Q;
  mat_transparent : bool;
  mat_opacity : Q;
  mat_disposed : bool
}.

Inductive ObjKind :=
  | KMesh
  | KGroup
  | KLight (lightType : string)
  | KHelper (helperType : string)
  | KTarget.

Record UserData := mkUserData {
  ud_layer : option string;
  ud_enabled : option bool;
  ud_body : option nat;
  ud_isStatic : option bool;
  ud_isDynamic : option bool;
  ud_isKinematic : option bool;
  ud_physicsConfig : option PhysicsConfig
}.

Definition emptyUserData : UserData :=
  mkUserData None None None None None None None.

Record ThreeObj := mkThreeObj {
  o_kind : ObjKind;
  o_position : Vec3;
  o_quaternion : Quat;
  o_rotation : Vec3;
  o_scale : Vec3;
  o_visible : bool;
  o_geometry : option Geometry;
  o_material : option Material;
  o_castShadow : bool;
  o_receiveShadow : bool;
  o_color : option Q;
  o_intensity : option Q;
  o_userData : UserData
}.

Definition isMesh (o : ThreeObj) : bool :=
  match o_kind o with KMesh => true | _ => false end.

Definition isGroup (o : ThreeObj) : bool :=
  match o_kind o with KGroup => true | _ => false end.

(** A freshly constructed [Object3D] of the given kind. *)
Definition newObject3D (k : ObjKind) : ThreeObj :=
  mkThreeObj k vec0 quatId vec0 vec1 true None None false false None None
             emptyUserData.

(** ** The shape/material translator *)

(** [switch (key)] over string literals: the first case that matches. *)
Fixpoint switchOn {A} (cases : list (string * A)) (key : string) : option A :=
  match cases with
  | [] => None
  | (k, a) :: rest => if String.eqb key k then Some a else switchOn rest key
  end.

Inductive ShapeKind :=
  | SBox | SSphere | SPlane | SCylinder | SCone | STorus | SCircle | SRing
  | SDodecahedron | SIcosahedron | SOctahedron | STetrahedron | STorusKnot
  | SCapsule.

Definition shapeCases : list (string * ShapeKind) :=
  [("box", SBox); ("sphere", SSphere); ("plane", SPlane);
   ("cylinder", SCylinder); ("cone", SCone); ("torus", STorus);
   ("circle", SCircle); ("ring", SRing); ("dodecahedron", SDodecahedron);
   ("icosahedron", SIcosahedron); ("octahedron", SOctahedron);
   ("tetrahedron", STetrahedron); ("torusknot", STorusKnot);
   ("capsule", SCapsule)].

(** The case of [switch (shape.type)] that is taken, [None] for [default]. *)
Definition shapeKindOf (t : option string) : option ShapeKind :=
  match t with
  | Some s => switchOn shapeCases s
  | None => None
  end.

(** [shape.k || d] *)
Definition dim (shape : Shape) (k : string) (d : Q) : Q := orQ (prop shape k) d.

Definition twoPI : Q := Math_PI * 2.

Definition geo (t : string) (args : list Q) : option Geometry :=
  Some (mkGeometry t args false).

(** [createGeometry(shape)]: the constructor chosen and its numeric arguments. *)
Definition createGeometry (shape : Shape) : option Geometry :=
  let p := dim shape in
  match shapeKindOf (s_type shape) with
  | Some SBox =>
      geo "BoxGeometry"
          [p "width" 1; p "height" 1; p "depth" 1;
           p "widthSegments" 1; p "heightSegments" 1; p "depthSegments" 1]
  | Some SSphere =>
      geo "SphereGeometry"
          [p "radius" 1; p "widthSegments" 32; p "heightSegments" 16;
           p "phiStart" 0; p "phiLength" twoPI;
           p "thetaStart" 0; p "thetaLength" Math_PI]
  | Some SPlane =>
      geo "PlaneGeometry"
          [p "width" 1; p "height" 1; p "widthSegments" 1; p "heightSegments" 1]
  | Some SCylinder =>
      geo "CylinderGeometry"
          [p "radiusTop" 1; p "radiusBottom" 1; p "height" 1;
           p "radialSegments" 32; p "heightSegments" 1;
           p "thetaStart" 0; p "thetaLength" twoPI]
  | Some SCone =>
      geo "ConeGeometry"
          [p "radius" 1; p "height" 1; p "radialSegments" 32;
           p "heightSegments" 1;
           p "thetaStart" 0; p "thetaLength" twoPI]
  | Some STorus =>
      geo "TorusGeometry"
          [p "radius" 1; p "tube" (2 # 5); p "radialSegments" 16;
           p "tubularSegments" 100; p "arc" twoPI]
  | Some SCircle =>
      geo "CircleGeometry"
          [p "radius" 1; p "segments" 32; p "thetaStart" 0; p "thetaLength" twoPI]
  | Some SRing =>
      geo "RingGeometry"
          [p "innerRadius" (1 # 2); p "outerRadius" 1; p "thetaSegments" 32;
           p "phiSegments" 1; p "thetaStart" 0; p "thetaLength" twoPI]
  | Some SDodecahedron => geo "DodecahedronGeometry" [p "radius" 1; p "detail" 0]
  | Some SIcosahedron => geo "IcosahedronGeometry" [p "radius" 1; p "detail" 0]
  | Some SOctahedron => geo "OctahedronGeometry" [p "radius" 1; p "detail" 0]
  | Some STetrahedron => geo "TetrahedronGeometry" [p "radius" 1; p "detail" 0]
  | Some STorusKnot =>
      geo "TorusKnotGeometry"
          [p "radius" 1; p "tube" (2 # 5); p "tubularSegments" 64;
           p "radialSegments" 8; p "p" 2; p "q" 3]
  | Some SCapsule =>
      geo "CapsuleGeometry"
          [p "radius" (1 # 2); p "height" 1; p "capSegments" 16;
           p "radialSegments" 32]
  | None => None
  end%Q.

(** ** The shape scaler *)

(** [getScaledShapeDimensions(config, mesh)]: a copy of [config.shape] whose
    dimensions are multiplied by the mesh's current scale.  Only six shape
    types have a case; every other type returns the copy as it is. *)
Definition getScaledShapeDimensions (config : Config) (mesh : ThreeObj)
  : option Shape :=
  let scale := o_scale mesh in
  match c_shape config with
  | None => None
  | Some shape =>
      let p := dim shape in
      let scaledShape := shape in
      Some
        match shapeKindOf (s_type shape) with
        | Some SBox =>
            setProp "depth" (p "depth" 1 * vz scale)
              (setProp "height" (p "height" 1 * vy scale)
                 (setProp "width" (p "width" 1 * vx scale) scaledShape))
        | Some SSphere =>
            setProp "radius"
              (p "radius" 1 * Math_max3 (vx scale) (vy scale) (vz scale))
              scaledShape
        | Some SPlane =>
            setProp "height" (p "height" 1 * vz scale)
              (setProp "width" (p "width" 1 * vx scale) scaledShape)
        | Some SCylinder =>
            setProp "height" (p "height" 1 * vy scale)
              (setProp "radiusBottom"
                 (p "radiusBottom" 1 * Math_max (vx scale) (vz scale))
                 (setProp "radiusTop"
                    (p "radiusTop" 1 * Math_max (vx scale) (vz scale))
                    scaledShape))
        | Some SCone =>
            setProp "height" (p "height" 1 * vy scale)
              (setProp "radius" (p "radius" 1 * Math_max (vx scale) (vz scale))
                 scaledShape)
        | Some STorus =>
            setProp "tube"
              (p "tube" (2 # 5) * Math_max3 (vx scale) (vy scale) (vz scale))
              (setProp "radius" (p "radius" 1 * Math_max (vx scale) (vz scale))
                 scaledShape)
        | _ => scaledShape
        end%Q
  end.

Definition lowerAscii (c : Ascii.ascii) : Ascii.ascii :=
  let n := Ascii.nat_of_ascii c in
  if (65 <=? n)%nat && (n <=? 90)%nat then Ascii.ascii_of_nat (n + 32) else c.

Fixpoint toLowerCase (s : string) : string :=
  match s with
  | EmptyString => EmptyString
  | String c rest => String (lowerAscii c) (toLowerCase rest)
  end.

(** The material classes of [createMaterialFromObj]: the Three.js class and
    whether its constructor is given a colour. *)
Definition materialCases : list (string * (string * bool)) :=
  [("basic", ("MeshBasicMaterial", true));
   ("lambert", ("MeshLambertMaterial", true));
   ("phong", ("MeshPhongMaterial", true));
   ("standard", ("MeshStandardMaterial", true));
   ("physical", ("MeshPhysicalMaterial", true));
   ("toon", ("MeshToonMaterial", true));
   ("normal", ("MeshNormalMaterial", false));
   ("depth", ("MeshDepthMaterial", false));
   ("linebasic", ("LineBasicMaterial", true));
   ("linedashed", ("LineDashedMaterial", true));
   ("points", ("PointsMaterial", true));
   ("sprite", ("SpriteMaterial", true));
   ("shadow", ("ShadowMaterial", false))].

Definition white : Q := 16777215.

(** [createMaterialFromObj(materialObj)].  Of [commonProps] the model keeps
    [transparent] and [opacity], the two the registry later rewrites. *)
Definition createMaterialFromObj (materialObj : MaterialCfg) : option Material :=
  let type := orS (toLowerCase <$> m_type materialObj) "phong" in
  let transparent := default false (m_transparent materialObj) in
  let opacity := default 1%Q (m_opacity materialObj) in
  match switchOn materialCases type with
  | Some (cls, hasColor) =>
      Some (mkMaterial cls
              (if hasColor then Some (orQ (m_color materialObj) white) else None)
              transparent opacity false)
  | None => None
  end.

(** ** Physics bodies (owned by the engine) *)

Inductive MotionType :=
  | EMotionType_Static
  | EMotionType_Kinematic
  | EMotionType_Dynamic.

Global Instance MotionType_eq_dec : EqDecision MotionType.
Proof. solve_decision. Defined.

Definition LAYER_NON_MOVING : Z := 0.
Definition LAYER_MOVING : Z := 1.
Definition NUM_OBJECT_LAYERS : Z := 2.

(** The collision shapes the class constructs.  A numeric argument is
    [None] where JavaScript hands the constructor [undefined] or [NaN]: a
    dimension the descriptor does not have, or arithmetic on one. *)
Inductive JoltShape :=
  | BoxShape (x y z : option Q) (convexRadius : Q)
  | SphereShape (radius : option Q)
  | CylinderShape (halfHeight : option Q) (radius : option Q)
  | CapsuleShape (halfHeight : option Q) (radius : option Q).

(** Identity of a registry entry: [config.name] (a string, or [undefined]
    when the descriptor has no name); [dropTestBall] uses a number. *)
Inductive Id := IdUndefined | IdStr (s : string) | IdNum (n : Z).

Global Instance Id_eq_dec : EqDecision Id.
Proof. solve_decision. Defined.

Record Body := mkBody {
  b_shape : JoltShape;
  b_motionType : MotionType;
  b_layer : Z;
  b_position : Vec3;
  b_rotation : Quat;
  b_linearVelocity : Vec3;
  b_angularVelocity : Vec3;
  b_massOverride : option Q;
  b_friction : option Q;
  b_restitution : option Q;
  b_force : Vec3;
  b_added : bool;
  b_destroyed : bool;
  b_name : option Id
}.

(** Jolt's vector operations used by the frame callback. *)
Definition Sub (a b : Vec3) : Vec3 :=
  mkVec3 (vx a - vx b) (vy a - vy b) (vz a - vz b).
Definition Add (a b : Vec3) : Vec3 :=
  mkVec3 (vx a + vx b) (vy a + vy b) (vz a + vz b).
Definition Mul (a : Vec3) (k : Q) : Vec3 :=
  mkVec3 (vx a * k) (vy a * k) (vz a * k).
Definition LengthSq (a : Vec3) : Q :=
  vx a * vx a + vy a * vy a + vz a * vz a.


(** ** The injected libraries

    What Three.js and Jolt compute on their own.  The repository only calls
    these; their code is not part of it. *)
Class IsoDeps := {
  (** [jInterface.Step(deltaTime, numSteps)] on the body table *)
  jolt_Step : Q → Z → list Body → list Body;
  (** [Vec3.Normalized()] *)
  jolt_Normalized : Vec3 → Vec3;
  (** [body.GetMotionProperties().GetInverseMass()] *)
  jolt_GetInverseMass : Body → Q;
  (** [new Box3().setFromObject(mesh).getSize()] *)
  three_Box3_getSize : ThreeObj → Vec3
}.

(** ** The state of an [IsoCard] instance *)

Record Layer := mkLayer { l_visible : bool; l_opacity : Q }.

(** [this.layers] is a plain object, so [this.layers[name]] finds, besides
    the records the instance has stored, what every object inherits from
    [Object.prototype]. *)
Definition objectPrototypeMembers : list string :=
  ["constructor"; "hasOwnProperty"; "isPrototypeOf"; "propertyIsEnumerable";
   "toLocaleString"; "toString"; "valueOf"; "__proto__";
   "__defineGetter__"; "__defineSetter__"; "__lookupGetter__";
   "__lookupSetter__"].

(** The value of [this.layers[name]]: a record of the instance; an inherited
    member (a function, or the prototype itself), which is truthy and has
    neither [visible] nor [opacity]; or [undefined]. *)
Inductive LayerSlot := OwnLayer (l : Layer) | InheritedMember | NoLayer.

Definition layerSlot (table : gmap string Layer) (name : string) : LayerSlot :=
  match table !! name with
  | Some l => OwnLayer l
  | None =>
      if bool_decide (name ∈ objectPrototypeMembers) then InheritedMember
      else NoLayer
  end.

Record Entry := mkEntry { e_id : Id; e_threeObj : nat; e_config : Config }.

Record Snapshot := mkSnapshot {
  t_position : Vec3;
  t_quaternion : Quat;
  t_scale : Vec3;
  t_rotation : Vec3
}.

(** A child of the scene graph: a registered object, or the target object
    of the light stored at that reference. *)
Inductive SceneNode := Node (r : nat) | TargetOf (r : nat).

Global Instance SceneNode_eq_dec : EqDecision SceneNode.
Proof. solve_decision. Defined.

Record Attractor := mkAttractor { a_position : Vec3; a_strength : Q }.

Record IsoCard := mkIsoCard {
  heap : list ThreeObj;
  scene : list SceneNode;
  sceneConfig_gravity : GravityCfg;
  layers : gmap string Layer;
  objects : list Entry;
  jolt : bool;
  jInterface : bool;
  physicsSystem : bool;
  bodyInterface : bool;
  world : list Body;
  nativeGravity : Vec3;
  dynamicObjects : list nat;
  isPhysicsRunning : bool;
  time : Q;
  savedTransforms : list (Id * Snapshot);
  gravityType : string;
  gravityStrength : Q;
  gravityCenter : Vec3;
  attractors : list Attractor;
  actionsPerSecond : Q;
  lastActionTime : Q;
  (** ghost: the arguments of every [jInterface.Step] call, latest first *)
  stepLog : list (Q * Z)
}.

(** Field updates ([this.f = v]). *)
Definition set_heap (v : list ThreeObj) (st : IsoCard) : IsoCard :=
  mkIsoCard v (scene st) (sceneConfig_gravity st) (layers st) (objects st)
    (jolt st) (jInterface st) (physicsSystem st) (bodyInterface st) (world st)
    (nativeGravity st) (dynamicObjects st) (isPhysicsRunning st) (time st)
    (savedTransforms st) (gravityType st) (gravityStrength st) (gravityCenter
    st) (attractors st) (actionsPerSecond st) (lastActionTime st) (stepLog st).
Definition set_scene (v : list SceneNode) (st : IsoCard) : IsoCard :=
  mkIsoCard (heap st) v (sceneConfig_gravity st) (layers st) (objects st)
    (jolt st) (jInterface st) (physicsSystem st) (bodyInterface st) (world st)
    (nativeGravity st) (dynamicObjects st) (isPhysicsRunning st) (time st)
    (savedTransforms st) (gravityType st) (gravityStrength st) (gravityCenter
    st) (attractors st) (actionsPerSecond st) (lastActionTime st) (stepLog st).
Definition set_sceneConfig_gravity (v : GravityCfg) (st : IsoCard) : IsoCard :=
  mkIsoCard (heap st) (scene st) v (layers st) (objects st) (jolt st)
    (jInterface st) (physicsSystem st) (bodyInterface st) (world st)
    (nativeGravity st) (dynamicObjects st) (isPhysicsRunning st) (time st)
    (savedTransforms st) (gravityType st) (gravityStrength st) (gravityCenter
    st) (attractors st) (actionsPerSecond st) (lastActionTime st) (stepLog st).
Definition set_layers (v : gmap string Layer) (st : IsoCard) : IsoCard :=
  mkIsoCard (heap st) (scene st) (sceneConfig_gravity st) v (objects st) (jolt
    st) (jInterface st) (physicsSystem st) (bodyInterface st) (world st)
    (nativeGravity st) (dynamicObjects st) (isPhysicsRunning st) (time st)
    (savedTransforms st) (gravityType st) (gravityStrength st) (gravityCenter
    st) (attractors st) (actionsPerSecond st) (lastActionTime st) (stepLog st).
Definition set_objects (v : list Entry) (st : IsoCard) : IsoCard :=
  mkIsoCard (heap st) (scene st) (sceneConfig_gravity st) (layers st) v (jolt
    st) (jInterface st) (physicsSystem st) (bodyInterface st) (world st)
    (nativeGravity st) (dynamicObjects st) (isPhysicsRunning st) (time st)
    (savedTransforms st) (gravityType st) (gravityStrength st) (gravityCenter
    st) (attractors st) (actionsPerSecond st) (lastActionTime st) (stepLog st).
Definition set_jolt (v : bool) (st : IsoCard) : IsoCard :=
  mkIsoCard (heap st) (scene st) (sceneConfig_gravity st) (layers st) (objects
    st) v (jInterface st) (physicsSystem st) (bodyInterface st) (world st)
    (nativeGravity st) (dynamicObjects st) (isPhysicsRunning st) (time st)
    (savedTransforms st) (gravityType st) (gravityStrength st) (gravityCenter
    st) (attractors st) (actionsPerSecond st) (lastActionTime st) (stepLog st).
Definition set_jInterface (v : bool) (st : IsoCard) : IsoCard :=
  mkIsoCard (heap st) (scene st) (sceneConfig_gravity st) (layers st) (objects
    st) (jolt st) v (physicsSystem st) (bodyInterface st) (world st)
    (nativeGravity st) (dynamicObjects st) (isPhysicsRunning st) (time st)
    (savedTransforms st) (gravityType st) (gravityStrength st) (gravityCenter
    st) (attractors st) (actionsPerSecond st) (lastActionTime st) (stepLog st).
Definition set_physicsSystem (v : bool) (st : IsoCard) : IsoCard :=
  mkIsoCard (heap st) (scene st) (sceneConfig_gravity st) (layers st) (objects
    st) (jolt st) (jInterface st) v (bodyInterface st) (world st) (nativeGravity
    st) (dynamicObjects st) (isPhysicsRunning st) (time st) (savedTransforms st)
    (gravityType st) (gravityStrength st) (gravityCenter st) (attractors st)
    (actionsPerSecond st) (lastActionTime st) (stepLog st).
Definition set_bodyInterface (v : bool) (st : IsoCard) : IsoCard :=
  mkIsoCard (heap st) (scene st) (sceneConfig_gravity st) (layers st) (objects
    st) (jolt st) (jInterface st) (physicsSystem st) v (world st) (nativeGravity
    st) (dynamicObjects st) (isPhysicsRunning st) (time st) (savedTransforms st)
    (gravityType st) (gravityStrength st) (gravityCenter st) (attractors st)
    (actionsPerSecond st) (lastActionTime st) (stepLog st).
Definition set_world (v : list Body) (st : IsoCard) : IsoCard :=
  mkIsoCard (heap st) (scene st) (sceneConfig_gravity st) (layers st) (objects
    st) (jolt st) (jInterface st) (physicsSystem st) (bodyInterface st) v
    (nativeGravity st) (dynamicObjects st) (isPhysicsRunning st) (time st)
    (savedTransforms st) (gravityType st) (gravityStrength st) (gravityCenter
    st) (attractors st) (actionsPerSecond st) (lastActionTime st) (stepLog st).
Definition set_nativeGravity (v : Vec3) (st : IsoCard) : IsoCard :=
  mkIsoCard (heap st) (scene st) (sceneConfig_gravity st) (layers st) (objects
    st) (jolt st) (jInterface st) (physicsSystem st) (bodyInterface st) (world
    st) v (dynamicObjects st) (isPhysicsRunning st) (time st) (savedTransforms
    st) (gravityType st) (gravityStrength st) (gravityCenter st) (attractors st)
    (actionsPerSecond st) (lastActionTime st) (stepLog st).
Definition set_dynamicObjects (v : list nat) (st : IsoCard) : IsoCard :=
  mkIsoCard (heap st) (scene st) (sceneConfig_gravity st) (layers st) (objects
    st) (jolt st) (jInterface st) (physicsSystem st) (bodyInterface st) (world
    st) (nativeGravity st) v (isPhysicsRunning st) (time st) (savedTransforms
    st) (gravityType st) (gravityStrength st) (gravityCenter st) (attractors st)
    (actionsPerSecond st) (lastActionTime st) (stepLog st).
Definition set_isPhysicsRunning (v : bool) (st : IsoCard) : IsoCard :=
  mkIsoCard (heap st) (scene st) (sceneConfig_gravity st) (layers st) (objects
    st) (jolt st) (jInterface st) (physicsSystem st) (bodyInterface st) (world
    st) (nativeGravity st) (dynamicObjects st) v (time st) (savedTransforms st)
    (gravityType st) (gravityStrength st) (gravityCenter st) (attractors st)
    (actionsPerSecond st) (lastActionTime st) (stepLog st).
Definition set_time (v : Q) (st : IsoCard) : IsoCard :=
  mkIsoCard (heap st) (scene st) (sceneConfig_gravity st) (layers st) (objects
    st) (jolt st) (jInterface st) (physicsSystem st) (bodyInterface st) (world
    st) (nativeGravity st) (dynamicObjects st) (isPhysicsRunning st) v
    (savedTransforms st) (gravityType st) (gravityStrength st) (gravityCenter
    st) (attractors st) (actionsPerSecond st) (lastActionTime st) (stepLog st).
Definition set_savedTransforms (v : list (Id * Snapshot)) (st : IsoCard) : IsoCard :=
  mkIsoCard (heap st) (scene st) (sceneConfig_gravity st) (layers st) (objects
    st) (jolt st) (jInterface st) (physicsSystem st) (bodyInterface st) (world
    st) (nativeGravity st) (dynamicObjects st) (isPhysicsRunning st) (time st) v
    (gravityType st) (gravityStrength st) (gravityCenter st) (attractors st)
    (actionsPerSecond st) (lastActionTime st) (stepLog st).
Definition set_gravityType (v : string) (st : IsoCard) : IsoCard :=
  mkIsoCard (heap st) (scene st) (sceneConfig_gravity st) (layers st) (objects
    st) (jolt st) (jInterface st) (physicsSystem st) (bodyInterface st) (world
    st) (nativeGravity st) (dynamicObjects st) (isPhysicsRunning st) (time st)
    (savedTransforms st) v (gravityStrength st) (gravityCenter st) (attractors
    st) (actionsPerSecond st) (lastActionTime st) (stepLog st).
Definition set_gravityStrength (v : Q) (st : IsoCard) : IsoCard :=
  mkIsoCard (heap st) (scene st) (sceneConfig_gravity st) (layers st) (objects
    st) (jolt st) (jInterface st) (physicsSystem st) (bodyInterface st) (world
    st) (nativeGravity st) (dynamicObjects st) (isPhysicsRunning st) (time st)
    (savedTransforms st) (gravityType st) v (gravityCenter st) (attractors st)
    (actionsPerSecond st) (lastActionTime st) (stepLog st).
Definition set_attractors (v : list Attractor) (st : IsoCard) : IsoCard :=
  mkIsoCard (heap st) (scene st) (sceneConfig_gravity st) (layers st) (objects
    st) (jolt st) (jInterface st) (physicsSystem st) (bodyInterface st) (world
    st) (nativeGravity st) (dynamicObjects st) (isPhysicsRunning st) (time st)
    (savedTransforms st) (gravityType st) (gravityStrength st) (gravityCenter
    st) v (actionsPerSecond st) (lastActionTime st) (stepLog st).
Definition set_lastActionTime (v : Q) (st : IsoCard) : IsoCard :=
  mkIsoCard (heap st) (scene st) (sceneConfig_gravity st) (layers st) (objects
    st) (jolt st) (jInterface st) (physicsSystem st) (bodyInterface st) (world
    st) (nativeGravity st) (dynamicObjects st) (isPhysicsRunning st) (time st)
    (savedTransforms st) (gravityType st) (gravityStrength st) (gravityCenter
    st) (attractors st) (actionsPerSecond st) v (stepLog st).
Definition set_stepLog (v : list (Q * Z)) (st : IsoCard) : IsoCard :=
  mkIsoCard (heap st) (scene st) (sceneConfig_gravity st) (layers st) (objects
    st) (jolt st) (jInterface st) (physicsSystem st) (bodyInterface st) (world
    st) (nativeGravity st) (dynamicObjects st) (isPhysicsRunning st) (time st)
    (savedTransforms st) (gravityType st) (gravityStrength st) (gravityCenter
    st) (attractors st) (actionsPerSecond st) (lastActionTime st) v.

Definition set_o_position (v : Vec3) (x : ThreeObj) : ThreeObj :=
  mkThreeObj (o_kind x) v (o_quaternion x) (o_rotation x) (o_scale x)
    (o_visible x) (o_geometry x) (o_material x) (o_castShadow x)
    (o_receiveShadow x) (o_color x) (o_intensity x)  (o_userData x).
Definition set_o_quaternion (v : Quat) (x : ThreeObj) : ThreeObj :=
  mkThreeObj (o_kind x) (o_position x) v (o_rotation x) (o_scale x) (o_visible
    x) (o_geometry x) (o_material x) (o_castShadow x) (o_receiveShadow x)
    (o_color x) (o_intensity x)  (o_userData x).
Definition set_o_rotation (v : Vec3) (x : ThreeObj) : ThreeObj :=
  mkThreeObj (o_kind x) (o_position x) (o_quaternion x) v (o_scale x)
    (o_visible x) (o_geometry x) (o_material x) (o_castShadow x)
    (o_receiveShadow x) (o_color x) (o_intensity x)  (o_userData x).
Definition set_o_scale (v : Vec3) (x : ThreeObj) : ThreeObj :=
  mkThreeObj (o_kind x) (o_position x) (o_quaternion x) (o_rotation x) v
    (o_visible x) (o_geometry x) (o_material x) (o_castShadow x)
    (o_receiveShadow x) (o_color x) (o_intensity x)  (o_userData x).
Definition set_o_visible (v : bool) (x : ThreeObj) : ThreeObj :=
  mkThreeObj (o_kind x) (o_position x) (o_quaternion x) (o_rotation x)
    (o_scale x) v (o_geometry x) (o_material x) (o_castShadow x)
    (o_receiveShadow x) (o_color x) (o_intensity x)  (o_userData x).
Definition set_o_geometry (v : option Geometry) (x : ThreeObj) : ThreeObj :=
  mkThreeObj (o_kind x) (o_position x) (o_quaternion x) (o_rotation x)
    (o_scale x) (o_visible x) v (o_material x) (o_castShadow x) (o_receiveShadow
    x) (o_color x) (o_intensity x)  (o_userData x).
Definition set_o_material (v : option Material) (x : ThreeObj) : ThreeObj :=
  mkThreeObj (o_kind x) (o_position x) (o_quaternion x) (o_rotation x)
    (o_scale x) (o_visible x) (o_geometry x) v (o_castShadow x) (o_receiveShadow
    x) (o_color x) (o_intensity x)  (o_userData x).
Definition set_o_castShadow (v : bool) (x : ThreeObj) : ThreeObj :=
  mkThreeObj (o_kind x) (o_position x) (o_quaternion x) (o_rotation x)
    (o_scale x) (o_visible x) (o_geometry x) (o_material x) v (o_receiveShadow
    x) (o_color x) (o_intensity x)  (o_userData x).
Definition set_o_receiveShadow (v : bool) (x : ThreeObj) : ThreeObj :=
  mkThreeObj (o_kind x) (o_position x) (o_quaternion x) (o_rotation x)
    (o_scale x) (o_visible x) (o_geometry x) (o_material x) (o_castShadow x) v
    (o_color x) (o_intensity x)  (o_userData x).
Definition set_o_color (v : option Q) (x : ThreeObj) : ThreeObj :=
  mkThreeObj (o_kind x) (o_position x) (o_quaternion x) (o_rotation x)
    (o_scale x) (o_visible x) (o_geometry x) (o_material x) (o_castShadow x)
    (o_receiveShadow x) v (o_intensity x)  (o_userData x).
Definition set_o_intensity (v : option Q) (x : ThreeObj) : ThreeObj :=
  mkThreeObj (o_kind x) (o_position x) (o_quaternion x) (o_rotation x)
    (o_scale x) (o_visible x) (o_geometry x) (o_material x) (o_castShadow x)
    (o_receiveShadow x) (o_color x) v  (o_userData x).
Definition set_o_userData (v : UserData) (x : ThreeObj) : ThreeObj :=
  mkThreeObj (o_kind x) (o_position x) (o_quaternion x) (o_rotation x)
    (o_scale x) (o_visible x) (o_geometry x) (o_material x) (o_castShadow x)
    (o_receiveShadow x) (o_color x) (o_intensity x)  v.

Definition set_ud_layer (v : option string) (x : UserData) : UserData :=
  mkUserData v (ud_enabled x) (ud_body x) (ud_isStatic x) (ud_isDynamic x)
    (ud_isKinematic x) (ud_physicsConfig x).
Definition set_ud_enabled (v : option bool) (x : UserData) : UserData :=
  mkUserData (ud_layer x) v (ud_body x) (ud_isStatic x) (ud_isDynamic x)
    (ud_isKinematic x) (ud_physicsConfig x).
Definition set_ud_body (v : option nat) (x : UserData) : UserData :=
  mkUserData (ud_layer x) (ud_enabled x) v (ud_isStatic x) (ud_isDynamic x)
    (ud_isKinematic x) (ud_physicsConfig x).
Definition set_ud_isStatic (v : option bool) (x : UserData) : UserData :=
  mkUserData (ud_layer x) (ud_enabled x) (ud_body x) v (ud_isDynamic x)
    (ud_isKinematic x) (ud_physicsConfig x).
Definition set_ud_isDynamic (v : option bool) (x : UserData) : UserData :=
  mkUserData (ud_layer x) (ud_enabled x) (ud_body x) (ud_isStatic x) v
    (ud_isKinematic x) (ud_physicsConfig x).

Definition set_b_position (v : Vec3) (x : Body) : Body :=
  mkBody (b_shape x) (b_motionType x) (b_layer x) v (b_rotation x)
    (b_linearVelocity x) (b_angularVelocity x) (b_massOverride x) (b_friction x)
    (b_restitution x) (b_force x) (b_added x) (b_destroyed x) (b_name x).
Definition set_b_rotation (v : Quat) (x : Body) : Body :=
  mkBody (b_shape x) (b_motionType x) (b_layer x) (b_position x) v
    (b_linearVelocity x) (b_angularVelocity x) (b_massOverride x) (b_friction x)
    (b_restitution x) (b_force x) (b_added x) (b_destroyed x) (b_name x).
Definition set_b_linearVelocity (v : Vec3) (x : Body) : Body :=
  mkBody (b_shape x) (b_motionType x) (b_layer x) (b_position x) (b_rotation
    x) v (b_angularVelocity x) (b_massOverride x) (b_friction x) (b_restitution
    x) (b_force x) (b_added x) (b_destroyed x) (b_name x).
Definition set_b_angularVelocity (v : Vec3) (x : Body) : Body :=
  mkBody (b_shape x) (b_motionType x) (b_layer x) (b_position x) (b_rotation
    x) (b_linearVelocity x) v (b_massOverride x) (b_friction x) (b_restitution
    x) (b_force x) (b_added x) (b_destroyed x) (b_name x).
Definition set_b_force (v : Vec3) (x : Body) : Body :=
  mkBody (b_shape x) (b_motionType x) (b_layer x) (b_position x) (b_rotation
    x) (b_linearVelocity x) (b_angularVelocity x) (b_massOverride x) (b_friction
    x) (b_restitution x) v (b_added x) (b_destroyed x) (b_name x).
Definition set_b_added (v : bool) (x : Body) : Body :=
  mkBody (b_shape x) (b_motionType x) (b_layer x) (b_position x) (b_rotation
    x) (b_linearVelocity x) (b_angularVelocity x) (b_massOverride x) (b_friction
    x) (b_restitution x) (b_force x) v (b_destroyed x) (b_name x).
Definition set_b_destroyed (v : bool) (x : Body) : Body :=
  mkBody (b_shape x) (b_motionType x) (b_layer x) (b_position x) (b_rotation
    x) (b_linearVelocity x) (b_angularVelocity x) (b_massOverride x) (b_friction
    x) (b_restitution x) (b_force x) (b_added x) v (b_name x).

Definition set_mat_transparent (v : bool) (x : Material) : Material :=
  mkMaterial (mat_type x) (mat_color x) v (mat_opacity x) (mat_disposed x).
Definition set_mat_opacity (v : Q) (x : Material) : Material :=
  mkMaterial (mat_type x) (mat_color x) (mat_transparent x) v (mat_disposed
    x).
Definition set_mat_disposed (v : bool) (x : Material) : Material :=
  mkMaterial (mat_type x) (mat_color x) (mat_transparent x) (mat_opacity x) v.

Definition set_c_type (v : option string) (x : Config) : Config :=
  mkConfig v (c_name x) (c_layer x) (c_enabled x) (c_shape x) (c_material x)
    (c_color x) (c_pos x) (c_euler x) (c_rot x) (c_scale x) (c_castShadow x)
    (c_receiveShadow x) (c_lightType x) (c_helperType x) (c_intensity x)
    (c_skyColor x) (c_target x) (c_physics x) (c_gravity x).
Definition set_c_name (v : option string) (x : Config) : Config :=
  mkConfig (c_type x) v (c_layer x) (c_enabled x) (c_shape x) (c_material x)
    (c_color x) (c_pos x) (c_euler x) (c_rot x) (c_scale x) (c_castShadow x)
    (c_receiveShadow x) (c_lightType x) (c_helperType x) (c_intensity x)
    (c_skyColor x) (c_target x) (c_physics x) (c_gravity x).
Definition set_c_layer (v : option string) (x : Config) : Config :=
  mkConfig (c_type x) (c_name x) v (c_enabled x) (c_shape x) (c_material x)
    (c_color x) (c_pos x) (c_euler x) (c_rot x) (c_scale x) (c_castShadow x)
    (c_receiveShadow x) (c_lightType x) (c_helperType x) (c_intensity x)
    (c_skyColor x) (c_target x) (c_physics x) (c_gravity x).
Definition set_c_enabled (v : option bool) (x : Config) : Config :=
  mkConfig (c_type x) (c_name x) (c_layer x) v (c_shape x) (c_material x)
    (c_color x) (c_pos x) (c_euler x) (c_rot x) (c_scale x) (c_castShadow x)
    (c_receiveShadow x) (c_lightType x) (c_helperType x) (c_intensity x)
    (c_skyColor x) (c_target x) (c_physics x) (c_gravity x).
Definition set_c_shape (v : option Shape) (x : Config) : Config :=
  mkConfig (c_type x) (c_name x) (c_layer x) (c_enabled x) v (c_material x)
    (c_color x) (c_pos x) (c_euler x) (c_rot x) (c_scale x) (c_castShadow x)
    (c_receiveShadow x) (c_lightType x) (c_helperType x) (c_intensity x)
    (c_skyColor x) (c_target x) (c_physics x) (c_gravity x).
Definition set_c_material (v : option MaterialCfg) (x : Config) : Config :=
  mkConfig (c_type x) (c_name x) (c_layer x) (c_enabled x) (c_shape x) v
    (c_color x) (c_pos x) (c_euler x) (c_rot x) (c_scale x) (c_castShadow x)
    (c_receiveShadow x) (c_lightType x) (c_helperType x) (c_intensity x)
    (c_skyColor x) (c_target x) (c_physics x) (c_gravity x).
Definition set_c_pos (v : option Vec3) (x : Config) : Config :=
  mkConfig (c_type x) (c_name x) (c_layer x) (c_enabled x) (c_shape x)
    (c_material x) (c_color x) v (c_euler x) (c_rot x) (c_scale x) (c_castShadow
    x) (c_receiveShadow x) (c_lightType x) (c_helperType x) (c_intensity x)
    (c_skyColor x) (c_target x) (c_physics x) (c_gravity x).
Definition set_c_physics (v : option PhysicsConfig) (x : Config) : Config :=
  mkConfig (c_type x) (c_name x) (c_layer x) (c_enabled x) (c_shape x)
    (c_material x) (c_color x) (c_pos x) (c_euler x) (c_rot x) (c_scale x)
    (c_castShadow x) (c_receiveShadow x) (c_lightType x) (c_helperType x)
    (c_intensity x) (c_skyColor x) (c_target x) v (c_gravity x).
Definition set_c_gravity (v : option GravityCfg) (x : Config) : Config :=
  mkConfig (c_type x) (c_name x) (c_layer x) (c_enabled x) (c_shape x)
    (c_material x) (c_color x) (c_pos x) (c_euler x) (c_rot x) (c_scale x)
    (c_castShadow x) (c_receiveShadow x) (c_lightType x) (c_helperType x)
    (c_intensity x) (c_skyColor x) (c_target x) (c_physics x) v.

(** ** Store, scene graph and registry helpers *)

Definition deref (st : IsoCard) (r : nat) : option ThreeObj := heap st !! r.

(** Mutation of the object at reference [r]. *)
Definition modify (r : nat) (f : ThreeObj → ThreeObj) (st : IsoCard) : IsoCard :=
  match heap st !! r with
  | Some o => set_heap (<[r := f o]> (heap st)) st
  | None => st
  end.

(** [new ...]: the object gets the next free reference. *)
Definition alloc (o : ThreeObj) (st : IsoCard) : nat * IsoCard :=
  (length (heap st), set_heap (heap st ++ [o]) st).

(** [scene.remove(x)] *)
Definition sceneRemove (n : SceneNode) (st : IsoCard) : IsoCard :=
  set_scene (filter (λ m, m ≠ n) (scene st)) st.

(** [scene.add(x)]: a child is re-parented, never listed twice. *)
Definition sceneAdd (n : SceneNode) (st : IsoCard) : IsoCard :=
  set_scene (filter (λ m, m ≠ n) (scene st) ++ [n]) st.

(** [this.objects.findIndex((o) => o.id === id)] *)
Fixpoint findIndex (id : Id) (l : list Entry) : option nat :=
  match l with
  | [] => None
  | e :: rest =>
      if decide (e_id e = id) then Some 0%nat else S <$> findIndex id rest
  end.

(** [this.objects.find((o) => o.id === id)] *)
Definition find (id : Id) (l : list Entry) : option Entry :=
  findIndex id l ≫= λ i, l !! i.

(** [geometry.dispose()] / [material.dispose()] on the object at [r]. *)
Definition disposeGeometry (g : Geometry) : Geometry :=
  mkGeometry (geo_type g) (geo_args g) true.

Definition dispose (o : ThreeObj) : ThreeObj :=
  set_o_material (set_mat_disposed true <$> o_material o)
    (set_o_geometry (disposeGeometry <$> o_geometry o) o).

Definition idOfName (name : option string) : Id :=
  match name with Some s => IdStr s | None => IdUndefined end.

(** [`${id}`] *)
Definition idToString (id : Id) : string :=
  match id with
  | IdUndefined => "undefined"
  | IdStr s => s
  | IdNum n => pretty n
  end.

(** [!config.name]: the generated fallback name. *)
Definition fallbackName (config : Config) (id : Id) : string :=
  orS (c_shape config ≫= s_type) (orS (c_type config) "object")
    +:+ " " +:+ idToString id.

Definition withName (config : Config) (id : Id) : Config :=
  match c_name config with
  | Some (String _ _) => config
  | _ => set_c_name (Some (fallbackName config id)) config
  end.

(** [config.enabled === undefined] and [!config.layer]: the defaults. *)
Definition withDefaults (config : Config) : Config :=
  set_c_layer (Some (orS (c_layer config) "main"))
    (set_c_enabled (Some (default true (c_enabled config))) config).

Definition layerOf (config : Config) : string := orS (c_layer config) "main".

Definition degToRad (e : Vec3) : Vec3 :=
  mkVec3 (vx e * Math_PI / 180) (vy e * Math_PI / 180) (vz e * Math_PI / 180).

(** The rotation precedence shared by add, replace and update: [euler]
    (degrees) wins, else a four-component [rot] is a quaternion, else a
    three-component [rot] is euler radians. *)
Definition applyRotation (euler : option Vec3) (rot : option Rot)
    (o : ThreeObj) : ThreeObj :=
  match euler, rot with
  | Some e, _ => set_o_rotation (degToRad e) o
  | None, Some (RotQuat q) => set_o_quaternion q o
  | None, Some (RotEuler e) => set_o_rotation e o
  | None, None => o
  end.

Definition applyOpt {A} (v : option A) (f : A → ThreeObj → ThreeObj)
    (o : ThreeObj) : ThreeObj :=
  match v with Some a => f a o | None => o end.

Definition isTrue (b : option bool) : bool := default false b.

(** ** Construction of render handles

    [addObject] and [replaceObject] carry the same construction code for
    lights, helpers, meshes and groups; it is written once here. *)

Definition lightHasTarget (lightType : string) : bool :=
  String.eqb lightType "directional" || String.eqb lightType "spot".

(** The [switch (config.lightType)]: [None] is the [default] case. *)
Definition buildLight (config : Config) : option ThreeObj :=
  let color d := Some (orQ (c_color config) d) in
  let intensity := Some (orQ (c_intensity config) 1) in
  let mk lt col int :=
    set_o_intensity int (set_o_color col (newObject3D (KLight lt))) in
  let light :=
    match c_lightType config with
    | Some lt =>
        switchOn
          [("directional",
            set_o_castShadow (isTrue (c_castShadow config))
              (mk "directional" (color white) intensity));
           ("ambient", mk "ambient" (color 4210752%Q) None);
           ("point", mk "point" (color white) intensity);
           ("spot", mk "spot" (color white) intensity);
           ("hemisphere",
            mk "hemisphere" (Some (orQ (c_skyColor config) white)) intensity)]
          lt
    | None => None
    end in
  applyOpt (c_pos config) set_o_position <$> light.

(** [config.target && light.target] *)
Definition lightTargetAdded (config : Config) (light : ThreeObj) : bool :=
  match c_target config, o_kind light with
  | Some _, KLight lt => lightHasTarget lt
  | _, _ => false
  end.

Definition buildHelper (config : Config) : option ThreeObj :=
  let helper :=
    match c_helperType config with
    | Some ht =>
        switchOn [("grid", newObject3D (KHelper "grid"));
                  ("axes", newObject3D (KHelper "axes"))] ht
    | None => None
    end in
  applyOpt (c_pos config) set_o_position <$> helper.

Definition emptyShape : Shape := mkShape None ∅.

(** The material of a mesh: [config.material] when given, else a phong
    material of [config.color || 0xffffff]. *)
Definition meshMaterial (config : Config) : option Material :=
  match c_material config with
  | Some m => createMaterialFromObj m
  | None =>
      createMaterialFromObj
        (mkMaterialCfg (Some "phong") (Some (orQ (c_color config) white))
           None None)
  end.

(** "Apply layer-based opacity" *)
Definition applyLayerOpacity (layerOpacity : Q) (m : Material) : Material :=
  if Qltb layerOpacity 1
  then set_mat_opacity (mat_opacity m * layerOpacity)%Q
         (set_mat_transparent true m)
  else m.

(** The mesh branch.  [layer] is [this.layers[config.layer]]: never
    [undefined] in [addObject], possibly so in [replaceObject], which then
    skips the opacity step and takes the layer as visible.  Of an inherited
    member [opacity] and [visible] are [undefined]: [undefined < 1] is
    false, and [enabled && undefined] is falsy. *)
Definition buildMesh (config : Config) (layer : LayerSlot)
    : option ThreeObj :=
  geometry ← createGeometry (default emptyShape (c_shape config));
  material ← meshMaterial config;
  let material :=
    match layer with
    | OwnLayer l => applyLayerOpacity (l_opacity l) material
    | InheritedMember | NoLayer => material
    end in
  let mesh :=
    set_o_material (Some material)
      (set_o_geometry (Some geometry) (newObject3D KMesh)) in
  let mesh := applyOpt (c_pos config) set_o_position mesh in
  let mesh := applyRotation (c_euler config) (c_rot config) mesh in
  let mesh := applyOpt (c_scale config) set_o_scale mesh in
  let mesh :=
    set_o_visible
      (isTrue (c_enabled config)
       && match layer with
          | OwnLayer l => l_visible l
          | InheritedMember => false
          | NoLayer => true
          end) mesh in
  let mesh :=
    if isTrue (c_castShadow config) then set_o_castShadow true mesh else mesh in
  let mesh :=
    if isTrue (c_receiveShadow config) then set_o_receiveShadow true mesh
    else mesh in
  Some mesh.

Definition buildGroup (config : Config) : ThreeObj :=
  let group := newObject3D KGroup in
  let group := applyOpt (c_pos config) set_o_position group in
  let group :=
    match c_euler config with
    | Some e => set_o_rotation (degToRad e) group
    | None => group
    end in
  applyOpt (c_scale config) set_o_scale group.

Inductive TypeCase := TScene | TLight | THelper | TMesh | TGroup | TUnsupported.

(** The [if / else if] chain on [config.type]; a missing or empty type is a
    mesh. *)
Definition typeCase (config : Config) : TypeCase :=
  match c_type config with
  | None => TMesh
  | Some t =>
      if String.eqb t "scene" then TScene
      else if String.eqb t "light" then TLight
      else if String.eqb t "helper" then THelper
      else if String.eqb t "mesh" || negb (truthyS t) then TMesh
      else if String.eqb t "group" then TGroup
      else TUnsupported
  end.

(** [addedObj.userData.layer = ...; addedObj.userData.enabled = ...] *)
Definition stamp (config : Config) (o : ThreeObj) : ThreeObj :=
  set_o_userData
    (set_ud_enabled (c_enabled config)
       (set_ud_layer (c_layer config) (o_userData o))) o.

(** ** Gravity model *)

Definition mergeGravity (old new : GravityCfg) : GravityCfg :=
  mkGravityCfg (from_option Some (g_type old) (g_type new))
               (from_option Some (g_vector old) (g_vector new))
               (from_option Some (g_strength old) (g_strength new)).

Definition defaultGravityVector : Vec3 := mkVec3 0 (-(981 # 100)) 0.

(** [setGravityConfig(config)] *)
Definition setGravityConfig (config : GravityCfg) (st : IsoCard) : IsoCard :=
  let gravity := mergeGravity (sceneConfig_gravity st) config in
  let st := set_sceneConfig_gravity gravity st in
  let st := set_gravityType (orS (g_type gravity) "uniform") st in
  if physicsSystem st then
    if String.eqb (gravityType st) "uniform" then
      set_nativeGravity (default defaultGravityVector (g_vector gravity)) st
    else if String.eqb (gravityType st) "radial" then
      (* gravityCenter will be set when adding the planet *)
      set_gravityStrength (orQ (g_strength gravity) 1000)
        (set_nativeGravity vec0 st)
    else st
  else st.

(** ** The object registry *)

(** The attractor test of [addObject]: a sphere, declared static, with a
    truthy [physics.gravityStrength]. *)
Definition attractorStrength (config : Config) : option Q :=
  match c_shape config ≫= s_type, c_physics config with
  | Some t, Some ph =>
      match p_motionType ph, p_gravityStrength ph with
      | Some mt, Some g =>
          if String.eqb t "sphere" && String.eqb mt "static" && truthyQ g
          then Some g else None
      | _, _ => None
      end
  | _, _ => None
  end.

(** The tail of [addObject] and of [replaceObject]: store the entry and put
    the handle in the scene. *)
Definition register (id : Id) (config : Config) (obj : ThreeObj)
    (st : IsoCard) : IsoCard :=
  let '(r, st) := alloc (stamp config obj) st in
  let st := if lightTargetAdded config obj then sceneAdd (TargetOf r) st else st in
  let st := set_objects (objects st ++ [mkEntry id r (withName config id)]) st in
  sceneAdd (Node r) st.

(** [addObject(config)]: the new state and the returned value ([None] is
    [null]; the id of a descriptor without a name is [undefined]). *)
Definition addObject (config : Config) (st : IsoCard) : IsoCard * option Id :=
  let config := withDefaults config in
  let layer := layerOf config in
  (* Create layer if it doesn't exist *)
  let st :=
    match layerSlot (layers st) layer with
    | NoLayer => set_layers (<[layer := mkLayer true (1 # 2)]> (layers st)) st
    | OwnLayer _ | InheritedMember => st
    end in
  let id := idOfName (c_name config) in
  match typeCase config with
  | TScene =>
      (match c_gravity config with
       | Some g => setGravityConfig g st
       | None => st
       end, None)
  | TLight =>
      match buildLight config with
      | Some light => (register id config light st, Some id)
      | None => (st, None)
      end
  | THelper =>
      match buildHelper config with
      | Some helper => (register id config helper st, Some id)
      | None => (st, None)
      end
  | TMesh =>
      match buildMesh config (layerSlot (layers st) layer) with
      | Some mesh =>
          let st :=
            match attractorStrength config with
            | Some g =>
                set_attractors
                  (attractors st ++ [mkAttractor (o_position mesh) g]) st
            | None => st
            end in
          (register id config mesh st, Some id)
      | None => (st, None)
      end
  | TGroup => (register id config (buildGroup config) st, Some id)
  | TUnsupported => (st, None)
  end.

(** [replaceObject(id, newConfig)].  The old handle is taken out of the
    scene and disposed, and its entry spliced out of [this.objects], before
    the replacement is built; [tempObjects] is the array after the splice,
    so every "restore" re-attaches [tempObjects.slice(index)], the entries
    that followed the old one. *)
Definition replaceObject (id : Id) (newConfig : Config) (st : IsoCard)
    : IsoCard * bool :=
  match findIndex id (objects st) with
  | None => (st, false)
  | Some index =>
      match objects st !! index with
      | None => (st, false)
      | Some oldObj =>
          (* Remove old object from scene *)
          let st := sceneRemove (Node (e_threeObj oldObj)) st in
          (* Dispose of old geometry and materials *)
          let st := modify (e_threeObj oldObj) dispose st in
          (* Remove from objects array temporarily *)
          let tempObjects := delete index (objects st) in
          let st := set_objects (take index tempObjects) st in
          let newConfig := withDefaults newConfig in
          let restore st :=
            set_objects (objects st ++ drop index tempObjects) st in
          let built :=
            match typeCase newConfig with
            | TLight => buildLight newConfig
            | THelper => buildHelper newConfig
            | TMesh =>
                buildMesh newConfig (layerSlot (layers st) (layerOf newConfig))
            | TGroup => Some (buildGroup newConfig)
            | TScene | TUnsupported => None
            end in
          match built with
          | Some addedObj =>
              (* Re-insert at the same position with the same ID *)
              let '(r, st) := alloc (stamp newConfig addedObj) st in
              let st :=
                if lightTargetAdded newConfig addedObj
                then sceneAdd (TargetOf r) st else st in
              let st :=
                set_objects
                  (objects st ++ [mkEntry id r (withName newConfig id)]) st in
              let st := restore st in
              (sceneAdd (Node r) st, true)
          | None =>
              (* If failed, restore the objects array *)
              (restore st, false)
          end
      end
  end.

(** [removeObject(id)] *)
Definition removeObject (id : Id) (st : IsoCard) : IsoCard :=
  match findIndex id (objects st) with
  | None => st
  | Some index =>
      match objects st !! index with
      | None => st
      | Some e =>
          let st := sceneRemove (Node (e_threeObj e)) st in
          let st := modify (e_threeObj e) dispose st in
          set_objects (delete index (objects st)) st
      end
  end.

(** [new IsoCard(...)] *)
Definition newIsoCard : IsoCard :=
  mkIsoCard [] []
    (mkGravityCfg (Some "uniform") (Some defaultGravityVector) None)
    {["main" := mkLayer true 1]} []
    false false false false [] vec0 [] false 0 []
    "uniform" 1000 vec0 [] 1 0 [].

(** The result of a call that can end in a JavaScript exception: the state
    reached either way. *)
Inductive Outcome := Returned (st : IsoCard) | Thrown (st : IsoCard).

Definition stateOf (o : Outcome) : IsoCard :=
  match o with Returned st | Thrown st => st end.

(** [Object.assign(item.config, updates)] *)
Definition assign (config updates : Config) : Config :=
  let pick {A} (f : Config → option A) := from_option Some (f config) (f updates) in
  mkConfig (pick c_type) (pick c_name) (pick c_layer) (pick c_enabled)
    (pick c_shape) (pick c_material) (pick c_color) (pick c_pos)
    (pick c_euler) (pick c_rot) (pick c_scale) (pick c_castShadow)
    (pick c_receiveShadow) (pick c_lightType) (pick c_helperType)
    (pick c_intensity) (pick c_skyColor) (pick c_target) (pick c_physics)
    (pick c_gravity).

(** [item.config.material?.opacity || 1] *)
Definition baseMaterialOpacity (config : Config) : Q :=
  orQ (c_material config ≫= m_opacity) 1.

(** Replaces the entry at [index]. *)
Definition setEntry (index : nat) (e : Entry) (st : IsoCard) : IsoCard :=
  set_objects (<[index := e]> (objects st)) st.

(** A key that is present in [updates]. *)
Definition has {A} (o : option A) : bool :=
  match o with Some _ => true | None => false end.

(** Sequencing of statements that can throw. *)
Definition andThen (o : Outcome) (f : IsoCard → Outcome) : Outcome :=
  match o with
  | Returned st => f st
  | Thrown st => Thrown st
  end.

(** [updates.pos], [updates.euler] / [updates.rot], [updates.scale] *)
Definition updateTransform (obj : nat) (config updates : Config)
    (st : IsoCard) : IsoCard :=
  let st :=
    if has (c_pos updates)
    then modify obj (applyOpt (c_pos config) set_o_position) st else st in
  let st :=
    if has (c_euler updates)
    then modify obj (applyRotation (c_euler config) None) st
    else if has (c_rot updates)
    then modify obj (applyRotation None (c_rot config)) st
    else st in
  if has (c_scale updates)
  then modify obj (applyOpt (c_scale config) set_o_scale) st else st.

(** "Handle layer changes": the target layer is created when
    [this.layers] has nothing under the name, then visibility and, for a
    mesh, material opacity follow what is found there. *)
Definition updateLayer (obj : nat) (config updates : Config) (st : IsoCard)
    : IsoCard :=
  match c_layer updates with
  | None => st
  | Some l =>
      let st :=
        modify obj
          (λ o, set_o_userData (set_ud_layer (Some l) (o_userData o)) o) st in
      let st :=
        match layerSlot (layers st) l with
        | NoLayer => set_layers (<[l := mkLayer true (1 # 2)]> (layers st)) st
        | OwnLayer _ | InheritedMember => st
        end in
      let layer := layerSlot (layers st) l in
      let st :=
        modify obj
          (set_o_visible
             (default true (c_enabled config)
              && match layer with
                 | OwnLayer layer => l_visible layer
                 | InheritedMember | NoLayer => false
                 end))
          st in
      (* Update opacity if it's a mesh *)
      modify obj
        (λ o,
           if isMesh o then
             set_o_material
               ((λ m,
                   match layer with
                   | OwnLayer layer =>
                       if Qltb (l_opacity layer) 1
                       then set_mat_opacity
                              (baseMaterialOpacity config * l_opacity layer)%Q
                              (set_mat_transparent true m)
                       else set_mat_opacity (baseMaterialOpacity config) m
                   | InheritedMember | NoLayer =>
                       set_mat_opacity (baseMaterialOpacity config) m
                   end)
                  <$> o_material o) o
           else o) st
  end.

(** "Handle enabled state changes"; [updates.enabled && ...] reads
    [this.layers[layer].visible] only when the flag is set, and that read
    throws when [this.layers] has nothing under the entry's layer; of an
    inherited member it is [undefined]. *)
Definition updateEnabled (obj : nat) (config updates : Config) (st : IsoCard)
    : Outcome :=
  match c_enabled updates with
  | None => Returned st
  | Some enabled =>
      let st :=
        modify obj
          (λ o, set_o_userData (set_ud_enabled (Some enabled) (o_userData o)) o)
          st in
      if enabled then
        match layerSlot (layers st) (layerOf config) with
        | OwnLayer l =>
            Returned (modify obj (set_o_visible (enabled && l_visible l)) st)
        | InheritedMember => Returned (modify obj (set_o_visible false) st)
        | NoLayer => Thrown st
        end
      else Returned (modify obj (set_o_visible false) st)
  end.

Definition objIsMesh (obj : nat) (st : IsoCard) : bool :=
  from_option isMesh false (heap st !! obj).

(** ["shape" in updates] *)
Definition updateGeometry (obj : nat) (config updates : Config) (st : IsoCard)
    : IsoCard :=
  if has (c_shape updates) && objIsMesh obj st then
    match createGeometry (default emptyShape (c_shape config)) with
    | Some newGeo => modify obj (set_o_geometry (Some newGeo)) st
    | None => st
    end
  else st.

(** ["material" in updates] *)
Definition updateMaterial (obj : nat) (config updates : Config) (st : IsoCard)
    : Outcome :=
  if has (c_material updates) && objIsMesh obj st then
    match createMaterialFromObj
            (default (mkMaterialCfg (Some "phong") None None None)
               (c_material config)) with
    | Some newMat =>
        match layerSlot (layers st) (layerOf config) with
        | OwnLayer l =>
            Returned
              (modify obj
                 (set_o_material (Some (applyLayerOpacity (l_opacity l) newMat)))
                 st)
        | InheritedMember =>
            Returned (modify obj (set_o_material (Some newMat)) st)
        | NoLayer => Thrown st
        end
    | None => Returned st
    end
  else Returned st.

(** "For lights" *)
Definition updateLight (obj : nat) (config updates : Config) (st : IsoCard)
    : IsoCard :=
  if from_option (String.eqb "light") false (c_type config) then
    let st :=
      if has (c_color updates)
      then modify obj (set_o_color (c_color config)) st else st in
    if has (c_intensity updates)
    then modify obj (set_o_intensity (c_intensity config)) st else st
  else st.

(** [updateObject(id, updates)] *)
Definition updateObject (id : Id) (updates : Config) (st : IsoCard) : Outcome :=
  match findIndex id (objects st) with
  | None => Returned st
  | Some index =>
      match objects st !! index with
      | None => Returned st
      | Some item =>
          let config := assign (e_config item) updates in
          let obj := e_threeObj item in
          let st := setEntry index (mkEntry (e_id item) obj config) st in
          let st := updateTransform obj config updates st in
          let st := updateLayer obj config updates st in
          andThen (updateEnabled obj config updates st) (λ st,
          let st := updateGeometry obj config updates st in
          andThen (updateMaterial obj config updates st) (λ st,
          Returned (updateLight obj config updates st)))
      end
  end.

(** Applies [f] to the handle of every entry, in registry order
    ([this.objects.forEach]). *)
Definition forEachObject (f : Entry → ThreeObj → ThreeObj) (st : IsoCard)
    : IsoCard :=
  foldl (λ st e, modify (e_threeObj e) (f e) st) st (objects st).

(** [if (!this.layers[layerId]) this.layers[layerId] = { visible: true,
    opacity: 0.5 }] *)
Definition ensureLayer (layerId : string) (st : IsoCard) : IsoCard :=
  match layerSlot (layers st) layerId with
  | NoLayer => set_layers (<[layerId := mkLayer true (1 # 2)]> (layers st)) st
  | OwnLayer _ | InheritedMember => st
  end.

(** [setLayerVisibility(layerId, visible)].  Under the name of an inherited
    member the flag is written onto that built-in object and no record of
    the instance changes. *)
Definition setLayerVisibility (layerId : string) (visible : bool)
    (st : IsoCard) : IsoCard :=
  let st := ensureLayer layerId st in
  let st := set_layers (alter (λ l, mkLayer visible (l_opacity l)) layerId (layers st)) st in
  forEachObject
    (λ e o,
       if String.eqb (layerOf (e_config e)) layerId
       then set_o_visible (visible && default true (c_enabled (e_config e))) o
       else o) st.

(** The body of the loop of [updateLayerOpacity] for one mesh material. *)
Definition relayerMaterial (config : Config) (opacity : Q) (m : Material)
    : Material :=
  let baseMaterialOpacity := baseMaterialOpacity config in
  if Qltb opacity 1 then
    set_mat_opacity (baseMaterialOpacity * opacity)%Q (set_mat_transparent true m)
  else
    let m := set_mat_opacity baseMaterialOpacity m in
    if Qeq_bool baseMaterialOpacity 1 then set_mat_transparent false m else m.

(** [updateLayerOpacity(layerId, opacity)]; as for the visibility, the
    opacity written under the name of an inherited member changes no record
    of the instance. *)
Definition updateLayerOpacity (layerId : string) (opacity : Q) (st : IsoCard)
    : IsoCard :=
  let st := ensureLayer layerId st in
  let st := set_layers (alter (λ l, mkLayer (l_visible l) opacity) layerId (layers st)) st in
  (* Update all mesh materials in this layer *)
  forEachObject
    (λ e o,
       if String.eqb (layerOf (e_config e)) layerId && isMesh o
       then set_o_material (relayerMaterial (e_config e) opacity <$> o_material o) o
       else o) st.

(** [addObjectsToLayer(layerId, configs)]; every returned id is the
    constant the source overwrites [objId] with. *)
Definition addObjectsToLayer (layerId : string) (configs : list Config)
    (st : IsoCard) : IsoCard * list Id :=
  let st :=
    match layerSlot (layers st) layerId with
    | NoLayer => set_layers (<[layerId := mkLayer true 1]> (layers st)) st
    | OwnLayer _ | InheritedMember => st
    end in
  foldl
    (λ '(st, ids) config,
       let modifiedConfig := set_c_layer (Some layerId) config in
       let '(st, _) := addObject modifiedConfig st in
       (st, ids ++ [IdNum 23098409234]))
    (st, []) configs.

(** [removeLayer(layerId)]; [delete this.layers[layerId]] removes a record
    of the instance and nothing else. *)
Definition removeLayer (layerId : string) (st : IsoCard) : IsoCard * nat :=
  match layerSlot (layers st) layerId with
  | NoLayer => (st, 0%nat)
  | OwnLayer _ | InheritedMember =>
      let objectsToRemove :=
        filter (λ e, layerOf (e_config e) = layerId) (objects st) in
      let st := foldl (λ st e, removeObject (e_id e) st) st objectsToRemove in
      (set_layers (delete layerId (layers st)) st, length objectsToRemove)
  end.

(** ** Physics synchronisation *)

(** Mutation of the body with index [b] of the engine's table. *)
Definition modifyBody (b : nat) (f : Body → Body) (st : IsoCard) : IsoCard :=
  match world st !! b with
  | Some body => set_world (<[b := f body]> (world st)) st
  | None => st
  end.

(** [bodyInterface.RemoveBody(id); bodyInterface.DestroyBody(id)] *)
Definition removeAndDestroy (b : Body) : Body :=
  set_b_destroyed true (set_b_added false b).

(** [delete mesh.userData.body; delete ....isStatic; delete ....isDynamic] *)
Definition clearBody (o : ThreeObj) : ThreeObj :=
  set_o_userData
    (set_ud_isDynamic None
       (set_ud_isStatic None (set_ud_body None (o_userData o)))) o.

(** The [switch (physicsConfig.motionType)]; [dynamic] is also the default. *)
Definition motionTypeOf (physicsConfig : PhysicsConfig) : MotionType :=
  match p_motionType physicsConfig with
  | Some mt =>
      if String.eqb mt "static" then EMotionType_Static
      else if String.eqb mt "kinematic" then EMotionType_Kinematic
      else EMotionType_Dynamic
  | None => EMotionType_Dynamic
  end.

(** "Determine layer" *)
Definition objectLayerOf (motionType : MotionType) : Z :=
  if decide (motionType = EMotionType_Static)
  then LAYER_NON_MOVING else LAYER_MOVING.

(** A dimension of the scaled descriptor read without a default
    ([scaledShape.k]): [None] is [undefined]. *)
Definition rawDim (s : Shape) (k : string) : option Q := prop s k.

(** Arithmetic on a dimension that can be missing: [undefined / 2] and
    [Math.max(undefined, x)] are [NaN]. *)
Definition halfDim (x : option Q) : option Q := (λ v, v / 2)%Q <$> x.

Definition maxDim (a b : option Q) : option Q :=
  match a, b with
  | Some x, Some y => Some (Math_max x y)
  | _, _ => None
  end.

(** [a === b] on two dimensions; two missing ones are both [undefined]. *)
Definition sameDim (a b : option Q) : bool :=
  match a, b with
  | Some x, Some y => Qeq_bool x y
  | None, None => true
  | _, _ => false
  end.

Definition convexRadius : Q := 1 # 20.

(** [this.dynamicObjects.splice(this.dynamicObjects.indexOf(mesh), 1)] *)
Fixpoint removeFirst (r : nat) (l : list nat) : list nat :=
  match l with
  | [] => []
  | x :: rest => if decide (x = r) then rest else x :: removeFirst r rest
  end.

(** [this.dynamicObjects.includes(mesh)] *)
Definition includes (r : nat) (l : list nat) : bool := bool_decide (r ∈ l).

Section WithDeps.
Context `{IsoDeps}.

Definition boundingBoxShape (mesh : ThreeObj) : JoltShape :=
  let size := three_Box3_getSize mesh in
  BoxShape (Some (vx size / 2)%Q) (Some (vy size / 2)%Q)
    (Some (vz size / 2)%Q) convexRadius.

(** "Create Jolt shape based on the scaled dimensions" *)
Definition joltShapeOf (scaledShape : option Shape) (mesh : ThreeObj)
    : JoltShape :=
  match scaledShape with
  | Some s =>
      let d := rawDim s in
      match shapeKindOf (s_type s) with
      | Some SBox =>
          BoxShape (halfDim (d "width")) (halfDim (d "height"))
            (halfDim (d "depth")) convexRadius
      | Some SSphere => SphereShape (d "radius")
      | Some SPlane =>
          BoxShape (halfDim (d "width")) (Some (1 # 100)%Q)
            (halfDim (d "height")) convexRadius
      | Some SCylinder =>
          if sameDim (d "radiusTop") (d "radiusBottom")
          then CylinderShape (halfDim (d "height")) (d "radiusTop")
          else
            let r := maxDim (d "radiusTop") (d "radiusBottom") in
            BoxShape r (halfDim (d "height")) r convexRadius
      | Some SCone =>
          BoxShape (d "radius") (halfDim (d "height")) (d "radius")
            convexRadius
      | Some STorus => CylinderShape (d "tube") (d "radius")
      | Some SCapsule => CapsuleShape (halfDim (d "height")) (d "radius")
      | _ => boundingBoxShape mesh
      end
  | None => boundingBoxShape mesh
  end.

(** "Remove existing physics body if present" *)
Definition releaseOldBody (r : nat) (mesh : ThreeObj) (st : IsoCard)
    : IsoCard :=
  match ud_body (o_userData mesh) with
  | Some oldBody => modify r clearBody (modifyBody oldBody removeAndDestroy st)
  | None => st
  end.

(** The body [CreateBody] returns for the creation settings, after
    friction and restitution are applied, it is added to the world and
    named. *)
Definition createBody (id : Id) (physicsConfig : PhysicsConfig)
    (joltShape : JoltShape) (mesh : ThreeObj) : Body :=
  let motionType := motionTypeOf physicsConfig in
  let layer := objectLayerOf motionType in
  let massOverride :=
    if decide (motionType = EMotionType_Dynamic)
    then p_mass physicsConfig else None in
  mkBody joltShape motionType layer
    (o_position mesh) (o_quaternion mesh) vec0 vec0
    massOverride (p_friction physicsConfig) (p_restitution physicsConfig)
    vec0 true false (Some id).

(** "Store body reference and physics config" *)
Definition bindBody (b : nat) (physicsConfig : PhysicsConfig)
    (o : ThreeObj) : ThreeObj :=
  let motionType := motionTypeOf physicsConfig in
  set_o_userData
    (mkUserData
       (ud_layer (o_userData o)) (ud_enabled (o_userData o))
       (Some b)
       (Some (bool_decide (motionType = EMotionType_Static)))
       (Some (bool_decide (motionType = EMotionType_Dynamic)))
       (Some (bool_decide (motionType = EMotionType_Kinematic)))
       (Some physicsConfig)) o.

(** "Add to dynamic objects list if dynamic", else "Remove from dynamic
    objects if not dynamic". *)
Definition trackDynamic (r : nat) (motionType : MotionType) (st : IsoCard)
    : IsoCard :=
  if decide (motionType = EMotionType_Dynamic) then
    if includes r (dynamicObjects st) then st
    else set_dynamicObjects (dynamicObjects st ++ [r]) st
  else set_dynamicObjects (removeFirst r (dynamicObjects st)) st.

(** [convertObjectToDynamic(id, physicsConfig)]: the new state and the
    boolean the call returns. *)
Definition convertObjectToDynamic (id : Id) (physicsConfig : PhysicsConfig)
    (st : IsoCard) : IsoCard * bool :=
  if negb (jolt st) || negb (jInterface st) then (st, false) else
  match findIndex id (objects st) with
  | None => (st, false)
  | Some index =>
      match objects st !! index with
      | None => (st, false)
      | Some item =>
          match heap st !! e_threeObj item with
          | None => (st, false)
          | Some mesh =>
              if negb (isMesh mesh) then (st, false)
              (* a null bodyInterface throws at its first use, before
                 anything is written; the catch returns false *)
              else if negb (bodyInterface st) then (st, false)
              else
                let r := e_threeObj item in
                let config := e_config item in
                let st := releaseOldBody r mesh st in
                let scaledShape := getScaledShapeDimensions config mesh in
                let joltShape := joltShapeOf scaledShape mesh in
                let body := createBody id physicsConfig joltShape mesh in
                let b := length (world st) in
                let st := set_world (world st ++ [body]) st in
                let st := modify r (bindBody b physicsConfig) st in
                (* Store physics config in the object config *)
                let st :=
                  setEntry index
                    (mkEntry (e_id item) r
                       (set_c_physics (Some physicsConfig) config)) st in
                (trackDynamic r (motionTypeOf physicsConfig) st, true)
          end
      end
  end.

(** The shape [convertMainLayerToStaticBodies] builds: its [switch] has
    the box, sphere, plane and cylinder cases only. *)
Definition staticShapeOf (scaledShape : option Shape) (mesh : ThreeObj)
    : JoltShape :=
  match scaledShape with
  | Some s =>
      match shapeKindOf (s_type s) with
      | Some SBox | Some SSphere | Some SPlane | Some SCylinder =>
          joltShapeOf scaledShape mesh
      | _ => boundingBoxShape mesh
      end
  | None => boundingBoxShape mesh
  end.

(** One iteration of the loop of [convertMainLayerToStaticBodies], at the
    entry with index [i]: a static body at the mesh's transform; a body the
    mesh already had stays in the world. *)
Definition convertEntryToStatic (st : IsoCard) (i : nat) : IsoCard :=
  match objects st !! i with
  | Some obj =>
      match heap st !! e_threeObj obj with
      | Some mesh =>
          if String.eqb (layerOf (e_config obj)) "main" && isMesh mesh then
            let scaledShape := getScaledShapeDimensions (e_config obj) mesh in
            let body :=
              mkBody (staticShapeOf scaledShape mesh) EMotionType_Static
                LAYER_NON_MOVING (o_position mesh) (o_quaternion mesh)
                vec0 vec0 None None None vec0 true false None in
            let b := length (world st) in
            let st := set_world (world st ++ [body]) st in
            let st :=
              modify (e_threeObj obj)
                (λ o,
                   set_o_userData
                     (set_ud_isStatic (Some true)
                        (set_ud_body (Some b) (o_userData o))) o) st in
            setEntry i
              (mkEntry (e_id obj) (e_threeObj obj)
                 (set_c_physics
                    (Some (mkPhysicsConfig (Some "static") None (Some (1 # 5)%Q)
                             (Some 0%Q) None))
                    (e_config obj))) st
          else st
      | None => st
      end
  | None => st
  end.

(** [convertMainLayerToStaticBodies()]; without an engine the first engine
    call throws and the catch ends the loop before anything is written. *)
Definition convertMainLayerToStaticBodies (st : IsoCard) : IsoCard :=
  if negb (jolt st) || negb (bodyInterface st) then st
  else foldl convertEntryToStatic st (seq 0 (length (objects st))).

(** [batchConvertToPhysics(objectIds, physicsConfig)]: the state and, when
    the engine is up, [successCount] and [failedObjects]: for an id that
    failed, the name in the descriptor of the entry it names, or
    "Object <id>" when there is no such entry. *)
Definition batchConvertToPhysics (objectIds : list Id)
    (physicsConfig : PhysicsConfig) (st : IsoCard)
    : IsoCard * option (nat * list (option string)) :=
  if negb (jolt st) || negb (jInterface st) then (st, None)
  else
    let '(st, result) :=
      foldl
        (λ '(st, (successCount, failedObjects)) id,
           let '(st, success) := convertObjectToDynamic id physicsConfig st in
           if success then (st, (S successCount, failedObjects))
           else
             let name :=
               match find id (objects st) with
               | Some obj => c_name (e_config obj)
               | None => Some ("Object " +:+ idToString id)
               end in
             (st, (successCount, failedObjects ++ [name])))
        (st, (0%nat, [])) objectIds in
    (st, Some result).
End WithDeps.

(** ** The transform snapshot store *)

(** [Map.prototype.set]: an existing key keeps its place and takes the new
    value, a new key goes last. *)
Fixpoint mapSet (id : Id) (v : Snapshot) (m : list (Id * Snapshot))
    : list (Id * Snapshot) :=
  match m with
  | [] => [(id, v)]
  | (k, w) :: rest =>
      if decide (k = id) then (k, v) :: rest else (k, w) :: mapSet id v rest
  end.

Definition snapshotOf (o : ThreeObj) : Snapshot :=
  mkSnapshot (o_position o) (o_quaternion o) (o_scale o) (o_rotation o).

(** What [saveObjectTransforms] stores for an entry: a snapshot under the
    entry's id, for a mesh or a group. *)
Definition snapshotEntry (st : IsoCard) (e : Entry) : option (Id * Snapshot) :=
  match heap st !! e_threeObj e with
  | Some o => if isMesh o || isGroup o then Some (e_id e, snapshotOf o) else None
  | None => None
  end.

(** [saveObjectTransforms()] *)
Definition saveObjectTransforms (st : IsoCard) : IsoCard :=
  set_savedTransforms
    (foldl
       (λ saved e,
          match snapshotEntry st e with
          | Some (id, transforms) => mapSet id transforms saved
          | None => saved
          end)
       [] (objects st))
    st.

Definition restoreHandle (transforms : Snapshot) (o : ThreeObj) : ThreeObj :=
  set_o_rotation (t_rotation transforms)
    (set_o_scale (t_scale transforms)
       (set_o_quaternion (t_quaternion transforms)
          (set_o_position (t_position transforms) o))).

(** [SetPositionAndRotation], then both velocities set to zero. *)
Definition resetBody (transforms : Snapshot) (b : Body) : Body :=
  set_b_angularVelocity vec0
    (set_b_linearVelocity vec0
       (set_b_rotation (t_quaternion transforms)
          (set_b_position (t_position transforms) b))).

(** One iteration of the loop of [restoreObjectTransforms]. *)
Definition restoreOne (st : IsoCard) (entry : Id * Snapshot) : IsoCard :=
  let '(id, transforms) := entry in
  match find id (objects st) with
  | Some obj =>
      match heap st !! e_threeObj obj with
      | Some o =>
          let st := modify (e_threeObj obj) (restoreHandle transforms) st in
          (* Update physics body position if it exists *)
          match ud_body (o_userData o) with
          | Some body =>
              if bodyInterface st
              then modifyBody body (resetBody transforms) st else st
          | None => st
          end
      | None => st
      end
  | None => st
  end.

(** [restoreObjectTransforms()] *)
Definition restoreObjectTransforms (st : IsoCard) : IsoCard :=
  foldl restoreOne st (savedTransforms st).

(** [startPhysics()] *)
Definition startPhysics (st : IsoCard) : IsoCard * bool :=
  if negb (jolt st) || negb (jInterface st) then (st, false)
  else
    let st := saveObjectTransforms st in
    let st := set_isPhysicsRunning true st in
    (set_lastActionTime 0 st, true).

(** [stopPhysics()] *)
Definition stopPhysics (st : IsoCard) : IsoCard * bool :=
  if negb (jolt st) || negb (jInterface st) then (st, false)
  else
    let st := set_isPhysicsRunning false st in
    (restoreObjectTransforms st, true).

(** [togglePhysics()] *)
Definition togglePhysics (st : IsoCard) : IsoCard * bool :=
  if isPhysicsRunning st then stopPhysics st else startPhysics st.

(** ** Engine lifecycle *)

(** A new [JoltInterface] holds no body, and an interface that is
    destroyed or dropped takes its bodies with it: the bodies of the table
    are then in no world the instance steps. *)
Definition dropBodies (st : IsoCard) : IsoCard :=
  set_world (removeAndDestroy <$> world st) st.

(** [setupJOLT()], for a module that loads: a no-op when the engine is up,
    else the world interfaces are created and the scene's gravity vector is
    handed to the engine. *)
Definition setupJOLT (st : IsoCard) : IsoCard :=
  if jolt st && jInterface st && bodyInterface st then st
  else
    set_nativeGravity
      (default defaultGravityVector (g_vector (sceneConfig_gravity st)))
      (set_bodyInterface true
         (set_physicsSystem true
            (set_jInterface true
               (dropBodies (set_time 0 (set_jolt true st)))))).

(** [isPhysicsInitialized()] *)
Definition isPhysicsInitialized (st : IsoCard) : bool :=
  jolt st && jInterface st && bodyInterface st.

(** [delete] of every physics key of [userData]. *)
Definition clearPhysicsData (o : ThreeObj) : ThreeObj :=
  set_o_userData
    (mkUserData (ud_layer (o_userData o)) (ud_enabled (o_userData o))
       None None None None None) o.

Definition releaseBodyOf (r : nat) (st : IsoCard) : IsoCard :=
  match heap st !! r with
  | Some o =>
      match ud_body (o_userData o) with
      | Some b =>
          let st := if bodyInterface st then modifyBody b removeAndDestroy st else st in
          modify r clearPhysicsData st
      | None => st
      end
  | None => st
  end.

Definition hasBody (st : IsoCard) (r : nat) : bool :=
  from_option (λ o, has (ud_body (o_userData o))) false (heap st !! r).

(** The first loop of [resetPhysics], at the entry with index [i]. *)
Definition resetEntry (st : IsoCard) (i : nat) : IsoCard :=
  match objects st !! i with
  | Some e =>
      if hasBody st (e_threeObj e) then
        let st := releaseBodyOf (e_threeObj e) st in
        (* Clear physics config from object config *)
        setEntry i
          (mkEntry (e_id e) (e_threeObj e) (set_c_physics None (e_config e))) st
      else st
  | None => st
  end.

(** [resetPhysics()] *)
Definition resetPhysics (st : IsoCard) : IsoCard :=
  if negb (jolt st) || negb (jInterface st) then st
  else
    let st := set_isPhysicsRunning false st in
    (* Remove all physics bodies from objects *)
    let st := foldl resetEntry st (seq 0 (length (objects st))) in
    (* Also clean up any dynamic objects that might not be in the objects list *)
    let st := foldl (λ st r, releaseBodyOf r st) st (dynamicObjects st) in
    let st := set_savedTransforms [] (set_dynamicObjects [] st) in
    (* Destroy the Jolt interface *)
    let st := set_jInterface false (dropBodies st) in
    set_bodyInterface false (set_physicsSystem false st).

(** [dropTestBall(position, radius, color)]; without an engine the first
    engine call throws and the catch leaves the state as it is. *)
Definition dropTestBall (position : Vec3) (radius color : Q) (st : IsoCard)
    : IsoCard :=
  if negb (jolt st) || negb (bodyInterface st) then st
  else
    let body :=
      mkBody (SphereShape (Some radius)) EMotionType_Dynamic LAYER_MOVING
        position quatId vec0 vec0 None None None vec0 true false None in
    let b := length (world st) in
    let st := set_world (world st ++ [body]) st in
    let mesh :=
      mkThreeObj KMesh position quatId vec0 vec1 true
        (Some (mkGeometry "SphereGeometry" [radius; 32; 16]%Q false))
        (Some (mkMaterial "MeshPhongMaterial" (Some color) false 1 false))
        true true None None
        (mkUserData None None (Some b) None (Some true) None None) in
    let '(r, st) := alloc mesh st in
    let st := sceneAdd (Node r) st in
    let st := set_dynamicObjects (dynamicObjects st ++ [r]) st in
    let id := Z.of_nat (length (objects st)) in
    let config :=
      mkConfig (Some "mesh") (Some ("Test Ball " +:+ pretty id)) (Some "main")
        (Some true)
        (Some (mkShape (Some "sphere") {["radius" := radius]}))
        (Some (mkMaterialCfg (Some "phong") (Some color) None None))
        None (Some position) None (Some (RotQuat quatId)) None None None
        None None None None None None None in
    set_objects (objects st ++ [mkEntry (IdNum id) r config]) st.

(** [createFloor(size)]: a static box body and its mesh, in the scene but
    not in the registry. *)
Definition createFloor (size : Q) (st : IsoCard) : IsoCard :=
  if negb (jolt st) || negb (bodyInterface st) then st
  else
    let pos := mkVec3 0 (-(1 # 2)) 0 in
    let body :=
      mkBody (BoxShape (Some size) (Some (1 # 2)%Q) (Some size) convexRadius)
        EMotionType_Static LAYER_NON_MOVING pos quatId vec0 vec0
        None None None vec0 true false None in
    let b := length (world st) in
    let st := set_world (world st ++ [body]) st in
    let mesh :=
      mkThreeObj KMesh pos quatId vec0 vec1 true
        (Some (mkGeometry "BoxGeometry" [size * 2; (1 # 2) * 2; size * 2]%Q false))
        (createMaterialFromObj
           (mkMaterialCfg (Some "lambert") (Some 13092807%Q) None None))
        false false None None
        (set_ud_body (Some b) emptyUserData) in
    let '(r, st) := alloc mesh st in
    sceneAdd (Node r) st.

Section ScenePhysics.
Context `{IsoDeps}.

(** One iteration of the loop of [initializeScenePhysics], at the entry
    with index [i]: an entry whose descriptor has a [physics] key is
    attached by its id. *)
Definition attachDeclared (st : IsoCard) (i : nat) : IsoCard :=
  match objects st !! i with
  | Some obj =>
      match c_physics (e_config obj) with
      | Some physics => (convertObjectToDynamic (e_id obj) physics st).1
      | None => st
      end
  | None => st
  end.

(** [initializeScenePhysics()], for a module that loads. *)
Definition initializeScenePhysics (st : IsoCard) : IsoCard :=
  let st := if negb (jolt st) || negb (jInterface st) then setupJOLT st else st in
  (* Create floor *)
  let st := createFloor 50 st in
  (* Apply physics to objects that have physics config *)
  foldl attachDeclared st (seq 0 (length (objects st))).
End ScenePhysics.

(** [setActionsPerSecond(aps)] *)
Definition setActionsPerSecond (aps : Q) (st : IsoCard) : IsoCard :=
  mkIsoCard (heap st) (scene st) (sceneConfig_gravity st) (layers st)
    (objects st) (jolt st) (jInterface st) (physicsSystem st)
    (bodyInterface st) (world st) (nativeGravity st) (dynamicObjects st)
    (isPhysicsRunning st) (time st) (savedTransforms st) (gravityType st)
    (gravityStrength st) (gravityCenter st) (attractors st) aps
    (lastActionTime st) (stepLog st).

(** ** The frame callback *)

Definition epsilonSq : Q := 1 # 10000.

(** [body.AddForce(force)] *)
Definition AddForce (force : Vec3) (b : Body) : Body :=
  set_b_force (Add (b_force b) force) b.

Section Frame.
Context `{IsoDeps}.

(** The radial-gravity computation for one body: the force handed to
    [AddForce], or [None] when no force is applied. *)
Definition radialForce (center : Vec3) (strength : Q) (body : Body)
    : option Vec3 :=
  let pos := b_position body in
  let dir := Sub pos center in
  let distSq := LengthSq dir in
  if Qgtb distSq epsilonSq then
    let unitDir := jolt_Normalized dir in
    let forceMag := (strength / distSq)%Q in
    let invMass := jolt_GetInverseMass body in
    let mass := if Qgtb invMass 0 then (1 / invMass)%Q else 0%Q in
    if Qgtb mass 0 then Some (Mul unitDir (- forceMag * mass)) else None
  else None.

(** One iteration of [this.dynamicObjects.forEach] under radial gravity. *)
Definition attract (st : IsoCard) (r : nat) : IsoCard :=
  match heap st !! r ≫= λ obj, ud_body (o_userData obj) with
  | Some b =>
      match world st !! b with
      | Some body =>
          match radialForce (gravityCenter st) (gravityStrength st) body with
          | Some force => modifyBody b (AddForce force) st
          | None => st
          end
      | None => st
      end
  | None => st
  end.

Definition applyRadialGravity (st : IsoCard) : IsoCard :=
  foldl attract st (dynamicObjects st).

(** "Don't go below 30 Hz to prevent spiral of death" *)
Definition clampDelta (elapsed : Q) : Q := Math_min elapsed (1 / 30).

(** "When running below 55 Hz, do 2 steps instead of 1" *)
Definition numStepsFor (deltaTime : Q) : Z :=
  if Qgtb deltaTime (1 / 55) then 2%Z else 1%Z.

(** The engine moves the bodies it holds; it neither adds nor drops one,
    so the table keeps its entries and takes the new states. *)
Definition stepInPlace (new old : list Body) : list Body :=
  imap (λ i b, default b (new !! i)) old.

(** [this.jInterface.Step(deltaTime, numSteps)] *)
Definition Step (deltaTime : Q) (numSteps : Z) (st : IsoCard) : IsoCard :=
  set_stepLog ((deltaTime, numSteps) :: stepLog st)
    (set_world (stepInPlace (jolt_Step deltaTime numSteps (world st)) (world st))
       st).

(** "Update dynamic object transforms from physics", for one object. *)
Definition pullTransform (st : IsoCard) (r : nat) : IsoCard :=
  match heap st !! r ≫= λ obj, ud_body (o_userData obj) with
  | Some b =>
      match world st !! b with
      | Some body =>
          modify r
            (λ o, set_o_quaternion (b_rotation body)
                    (set_o_position (b_position body) o)) st
      | None => st
      end
  | None => st
  end.

(** The physics block of [animate()]; [elapsed] is [this.clock.getDelta()].
    The block runs only if the engine is up and the simulation running. *)
Definition animate (elapsed : Q) (st : IsoCard) : IsoCard :=
  if jInterface st && isPhysicsRunning st then
    let deltaTime := clampDelta elapsed in
    let st :=
      if String.eqb (gravityType st) "radial" then applyRadialGravity st
      else st in
    (* Step the physics world *)
    let numSteps := numStepsFor deltaTime in
    let st := Step deltaTime numSteps st in
    let st := foldl pullTransform st (dynamicObjects st) in
    let st :=
      (* 1 / 0 is Infinity: the interval is never reached *)
      if Qeq_bool (actionsPerSecond st) 0 then st
      else if Qle_bool (1 / actionsPerSecond st) (time st - lastActionTime st)
      then set_lastActionTime (time st) st
      else st in
    set_time (time st + deltaTime) st
  else st.

(** [updatePhysics(deltaTime)] *)
Definition updatePhysics (deltaTime : Q) (st : IsoCard) : IsoCard :=
  Step deltaTime (numStepsFor deltaTime) st.
(** One iteration of the loop of [renderSync()], which reads the body
    without testing it: a dynamic object without a body throws.  The
    soft-body test that follows reads [this.jolt.EBodyType_SoftBody], and
    throws when the module is not loaded; the bodies this class creates are
    rigid, so the test itself is false. *)
Definition syncTransform (o : Outcome) (r : nat) : Outcome :=
  andThen o (λ st,
    match heap st !! r ≫= λ obj, ud_body (o_userData obj) with
    | Some b =>
        let st := pullTransform st r in
        if jolt st then Returned st else Thrown st
    | None => Thrown st
    end).

(** [renderSync()], the loop that pulls the transforms first and steps the
    engine after, whether or not the simulation is marked running. *)
Definition renderSync (elapsed : Q) (st : IsoCard) : Outcome :=
  let deltaTime := clampDelta elapsed in
  andThen (foldl syncTransform (Returned st) (dynamicObjects st)) (λ st,
    let st := set_time (time st + deltaTime) st in
    if jInterface st then Returned (updatePhysics deltaTime st)
    else Thrown st).
End Frame.

(** ** A concrete engine and small scenes, for evaluating the model *)

(** Square root of a rational, exact when it is rational. *)
Definition Qsqrt (q : Q) : Q :=
  Z.sqrt (Qnum q * Zpos (Qden q)) # Qden q.

(** The volume of a collision shape. *)
Definition shapeVolume (s : JoltShape) : Q :=
  match s with
  | BoxShape (Some x) (Some y) (Some z) _ => 8 * x * y * z
  | SphereShape (Some r) => 4 / 3 * Math_PI * (r * r * r)
  | CylinderShape (Some h) (Some r) => Math_PI * (r * r) * (2 * h)
  | CapsuleShape (Some h) (Some r) =>
      Math_PI * (r * r) * (2 * h) + 4 / 3 * Math_PI * (r * r * r)
  | _ => 0
  end%Q.

(** The density Jolt gives a shape by default. *)
Definition defaultDensity : Q := 1000.

(** An engine whose step leaves every body where it is.  It normalises
    exactly every vector of rational length.  As in Jolt, the mass of a
    dynamic body is that of its shape at the default density: the source
    writes [physics.mass] to [mMassPropertiesOverride.mMass] but leaves
    [mOverrideMassProperties] at its default, under which the engine does
    not use it.  The other bodies report inverse mass 0. *)
Definition stillEngine : IsoDeps :=
  {| jolt_Step := λ _ _ w, w;
     jolt_Normalized := λ v,
       let len := Qsqrt (LengthSq v) in
       if Qeq_bool len 0 then v else Mul v (/ len);
     jolt_GetInverseMass := λ b,
       match b_motionType b with
       | EMotionType_Dynamic =>
           let mass := (defaultDensity * shapeVolume (b_shape b))%Q in
           if Qeq_bool mass 0 then 0%Q else (/ mass)%Q
       | _ => 0%Q
       end;
     three_Box3_getSize := o_scale |}.

Definition boxShape : Shape := mkShape (Some "box") ∅.
Definition sphereShape : Shape := mkShape (Some "sphere") ∅.

(** [{ name, shape: { type: "box" }, pos }] *)
Definition meshConfig (name : option string) (shape : Shape) (pos : Vec3)
    : Config :=
  set_c_pos (Some pos) (set_c_shape (Some shape) (set_c_name name emptyConfig)).

(** An instance whose engine is up ([setupJOLT] done). *)
Definition readyIsoCard : IsoCard := setupJOLT newIsoCard.

(** The box "a" of [oneBox], with the engine up. *)
Definition readyBox : IsoCard :=
  (addObject (meshConfig (Some "a") boxShape vec0) readyIsoCard).1.

Definition motion (motionType : string) : PhysicsConfig :=
  mkPhysicsConfig (Some motionType) None None None None.

(** ** Vocabulary of the statements *)

(** The shape types [getScaledShapeDimensions] has a case for. *)
Definition recognized (k : ShapeKind) : bool :=
  match k with
  | SBox | SSphere | SPlane | SCylinder | SCone | STorus => true
  | _ => false
  end.

(** The dimensions each case rescales, with the default the code reads
    them with ([shape.k || d]). *)
Definition scaledDims (k : ShapeKind) : list (string * Q) :=
  match k with
  | SBox => [("width", 1); ("height", 1); ("depth", 1)]
  | SSphere => [("radius", 1)]
  | SPlane => [("width", 1); ("height", 1)]
  | SCylinder => [("radiusTop", 1); ("radiusBottom", 1); ("height", 1)]
  | SCone => [("radius", 1); ("height", 1)]
  | STorus => [("radius", 1); ("tube", 2 # 5)]
  | _ => []
  end%Q.

(** A descriptor that spells out every dimension of its type, non-zero. *)
Definition carriesDims (k : ShapeKind) (s : Shape) : Prop :=
  ∀ key d, (key, d) ∈ scaledDims k →
    ∃ v, prop s key = Some v ∧ truthyQ v = true.

(** A registry holding one box mesh named "a". *)
Definition oneBox : IsoCard :=
  (addObject (meshConfig (Some "a") boxShape vec0) newIsoCard).1.

(** A replacement whose shape type no geometry exists for. *)
Definition pyramidConfig : Config :=
  meshConfig None (mkShape (Some "pyramid") ∅) vec0.


(** Two handles never point at the same body. *)
Definition bodiesUnshared (st : IsoCard) : Prop :=
  ∀ r1 r2 o1 o2 b,
    heap st !! r1 = Some o1 → heap st !! r2 = Some o2 →
    ud_body (o_userData o1) = Some b → ud_body (o_userData o2) = Some b →
    r1 = r2.

(** Two meshes added without a name: both get the id [undefined]. *)
Definition twoUnnamed : IsoCard :=
  (addObject (meshConfig None boxShape (mkVec3 5 0 0))
     (addObject (meshConfig None boxShape vec0) readyIsoCard).1).1.

(** A store entry that agrees with the current state: its id names an
    entry whose handle has exactly the saved transform. *)
Definition consistent (st : IsoCard) (entry : Id * Snapshot) : Prop :=
  ∃ e o, find entry.1 (objects st) = Some e
       ∧ heap st !! e_threeObj e = Some o
       ∧ entry.2 = snapshotOf o.

(** The entry of the store writes to body [b]. *)
Definition writes (st : IsoCard) (b : nat) (entry : Id * Snapshot) : Prop :=
  ∃ e o, find entry.1 (objects st) = Some e
       ∧ heap st !! e_threeObj e = Some o
       ∧ ud_body (o_userData o) = Some b.

(** Componentwise equality of vectors as numbers. *)
Definition veq (a b : Vec3) : Prop :=
  (vx a == vx b ∧ vy a == vy b ∧ vz a == vz b)%Q.



(** No two registry entries hold the same handle. *)
Definition handlesDistinct (st : IsoCard) : Prop :=
  NoDup (e_threeObj <$> objects st).

(** A mesh named "m" on layer "fx", material opacity not configured. *)
Definition fxMesh : IsoCard :=
  (addObject (set_c_layer (Some "fx") (meshConfig (Some "m") boxShape vec0))
     newIsoCard).1.

(** A radial-gravity scene: a static sphere "planet" at (3,0,0) with an
    attraction strength of 500, and a sphere "ball" at (3,4,0) attached as
    a dynamic body of mass 1. *)
Definition radialScene : Config :=
  set_c_gravity (Some (mkGravityCfg (Some "radial") None (Some 500%Q)))
    (set_c_type (Some "scene") emptyConfig).

Definition planetConfig : Config :=
  set_c_physics
    (Some (mkPhysicsConfig (Some "static") None None None (Some 500%Q)))
    (meshConfig (Some "planet") sphereShape (mkVec3 3 0 0)).

Definition planetAndBall : IsoCard :=
  let st := (addObject radialScene readyIsoCard).1 in
  let st := (addObject planetConfig st).1 in
  let st := (addObject (meshConfig (Some "ball") sphereShape (mkVec3 3 4 0)) st).1 in
  let st :=
    (convertObjectToDynamic (H := stillEngine) (IdStr "ball")
       (mkPhysicsConfig (Some "dynamic") (Some 1%Q) None None None) st).1 in
  (startPhysics st).1.

(** Two boxes "a" and "b"; "b", at (5,0,0), is attached as a dynamic body. *)
Definition twoBoxes : IsoCard :=
  let st := (addObject (meshConfig (Some "b") boxShape (mkVec3 5 0 0)) readyBox).1 in
  (convertObjectToDynamic (H := stillEngine) (IdStr "b") (motion "dynamic") st).1.

(** A box descriptor that spells out its three dimensions. *)
Definition brick : Shape :=
  mkShape (Some "box") (<["width" := 2%Q]> (<["height" := 1%Q]> {["depth" := 3%Q]})).

(** The opacity a descriptor gives its material, as [createMaterialFromObj]
    reads it ([opacity !== undefined ? opacity : 1]). *)
Definition declaredOpacity (config : Config) : Q :=
  default 1%Q (c_material config ≫= m_opacity).

(** A mesh named "ghost" on the main layer whose material is configured
    fully transparent ([opacity: 0]). *)
Definition ghostMesh : IsoCard :=
  (addObject
     (set_c_material (Some (mkMaterialCfg None None (Some 0%Q) (Some true)))
        (meshConfig (Some "ghost") boxShape vec0))
     newIsoCard).1.

(** The box "a" of [oneBox] replaced by a box on the layer "loft", a layer
    [replaceObject] does not create. *)
Definition strayBox : IsoCard :=
  (replaceObject (IdStr "a")
     (set_c_layer (Some "loft") (meshConfig (Some "a") boxShape vec0))
     oneBox).1.

(** ** Reachable states *)

Definition bodyOf (o : ThreeObj) : option nat := ud_body (o_userData o).

(** The part of a state that ties handles, registry, dynamic set and body
    table together. *)
Record Skeleton := mkSkeleton {
  sk_bodies : list (option nat);
  sk_handles : list nat;
  sk_dynamic : list nat;
  sk_world : nat;
  sk_jolt : bool;
  sk_jInterface : bool;
  sk_physicsSystem : bool;
  sk_bodyInterface : bool;
  sk_center : Vec3
}.

Definition skeleton (st : IsoCard) : Skeleton :=
  mkSkeleton (bodyOf <$> heap st) (e_threeObj <$> objects st)
    (dynamicObjects st) (length (world st))
    (jolt st) (jInterface st) (physicsSystem st) (bodyInterface st)
    (gravityCenter st).

(** No body index occurs at two handles; every body index is in the table. *)
Definition unshared (bodies : list (option nat)) : Prop :=
  ∀ i j b, bodies !! i = Some (Some b) → bodies !! j = Some (Some b) → i = j.

Definition inTable (bodies : list (option nat)) (size : nat) : Prop :=
  ∀ i b, bodies !! i = Some (Some b) → b < size.

(** Handles that lose their body, and none that gains one. *)
Definition releases (bs' bs : list (option nat)) : Prop :=
  length bs' = length bs
  ∧ ∀ i b, bs' !! i = Some (Some b) → bs !! i = Some (Some b).

(** [k'] is [k] but for handles that have lost their body. *)
Definition releasedFrom (k' k : Skeleton) : Prop :=
  releases (sk_bodies k') (sk_bodies k)
  ∧ sk_handles k' = sk_handles k
  ∧ sk_dynamic k' = sk_dynamic k
  ∧ sk_world k' = sk_world k
  ∧ sk_jolt k' = sk_jolt k
  ∧ sk_jInterface k' = sk_jInterface k
  ∧ sk_physicsSystem k' = sk_physicsSystem k
  ∧ sk_bodyInterface k' = sk_bodyInterface k
  ∧ sk_center k' = sk_center k.

Record wellFormedSk (k : Skeleton) : Prop := mkWellFormed {
  wf_dynamic_nodup : NoDup (sk_dynamic k);
  wf_dynamic_bound : Forall (λ r, r < length (sk_bodies k)) (sk_dynamic k);
  wf_dynamic_body :
    Forall (λ r, ∃ b, sk_bodies k !! r = Some (Some b)) (sk_dynamic k);
  wf_dynamic_jolt : sk_dynamic k ≠ [] → sk_jolt k = true;
  wf_handles_nodup : NoDup (sk_handles k);
  wf_handles_bound : Forall (λ r, r < length (sk_bodies k)) (sk_handles k);
  wf_bodies_unshared : unshared (sk_bodies k);
  wf_bodies_bound : inTable (sk_bodies k) (sk_world k);
  wf_bodyInterface : sk_bodyInterface k = sk_jInterface k;
  wf_physicsSystem : sk_physicsSystem k = sk_jInterface k;
  wf_jolt : sk_jInterface k = true → sk_jolt k = true;
  wf_center : sk_center k = vec0
}.

(** The dynamic set and the registry hold each handle once, a dynamic
    object has a body, a body belongs to one handle, the engine's interfaces
    exist together, and the gravity centre is the origin. *)
Definition wellFormed (st : IsoCard) : Prop := wellFormedSk (skeleton st).

Section Calls.
Context `{IsoDeps}.

(** One call of a method of the class that writes to the state modelled
    here.  The methods left out read it ([getObjectById], [exportScene],
    [isPhysicsInitialized], ...), build a value ([createGeometry],
    [getScaledShapeDimensions], ...), or write to the camera, the selection
    or the callbacks only; [interpretJSON] and [loadSceneWithConstraints]
    are sequences of [addObject] and [convertObjectToDynamic]. *)
Inductive call : IsoCard → IsoCard → Prop :=
  | call_addObject config st :
      call st (addObject config st).1
  | call_replaceObject id newConfig st :
      call st (replaceObject id newConfig st).1
  | call_updateObject id updates st :
      call st (stateOf (updateObject id updates st))
  | call_removeObject id st :
      call st (removeObject id st)
  | call_setLayerVisibility layerId visible st :
      call st (setLayerVisibility layerId visible st)
  | call_updateLayerOpacity layerId opacity st :
      call st (updateLayerOpacity layerId opacity st)
  | call_addObjectsToLayer layerId configs st :
      call st (addObjectsToLayer layerId configs st).1
  | call_removeLayer layerId st :
      call st (removeLayer layerId st).1
  | call_setGravityConfig config st :
      call st (setGravityConfig config st)
  | call_setActionsPerSecond aps st :
      call st (setActionsPerSecond aps st)
  | call_setupJOLT st :
      call st (setupJOLT st)
  | call_resetPhysics st :
      call st (resetPhysics st)
  | call_createFloor size st :
      call st (createFloor size st)
  | call_dropTestBall position radius color st :
      call st (dropTestBall position radius color st)
  | call_convertObjectToDynamic id physicsConfig st :
      call st (convertObjectToDynamic id physicsConfig st).1
  | call_batchConvertToPhysics objectIds physicsConfig st :
      call st (batchConvertToPhysics objectIds physicsConfig st).1
  | call_convertMainLayerToStaticBodies st :
      call st (convertMainLayerToStaticBodies st)
  | call_initializeScenePhysics st :
      call st (initializeScenePhysics st)
  | call_saveObjectTransforms st :
      call st (saveObjectTransforms st)
  | call_restoreObjectTransforms st :
      call st (restoreObjectTransforms st)
  | call_startPhysics st :
      call st (startPhysics st).1
  | call_stopPhysics st :
      call st (stopPhysics st).1
  | call_togglePhysics st :
      call st (togglePhysics st).1
  | call_animate elapsed st :
      call st (animate elapsed st)
  | call_renderSync elapsed st :
      call st (stateOf (renderSync elapsed st))
  | call_updatePhysics deltaTime st :
      call st (updatePhysics deltaTime st).

(** A state an instance can be in: a new one, after any calls. *)
Definition reachable (st : IsoCard) : Prop := rtc call newIsoCard st.
End Calls.

(** * Properties *)

Arguments register : simpl never.
Arguments setGravityConfig : simpl never.

(** ** Arithmetic helpers *)

Lemma Qmult_1_r_eq (x : Q) : (x * 1)%Q = x.
Proof.
  destruct x as [n d]. unfold Qmult; simpl.
  by rewrite Z.mul_1_r, Pos.mul_1_r.
Qed.

Lemma orQ_truthy (o : option Q) (d : Q) :
  truthyQ d = true → truthyQ (orQ o d) = true.
Proof.
  intros Hd. unfold orQ. destruct o as [v|]; [|done].
  by destruct (truthyQ v) eqn:Hv.
Qed.

Lemma orQ_Some_truthy (v d : Q) : truthyQ v = true → orQ (Some v) d = v.
Proof. intros Hv. unfold orQ. by rewrite Hv. Qed.

(** ** The shape scaler at scale (1,1,1) *)

Lemma prop_setProp (k k' : string) (v : Q) (s : Shape) :
  prop (setProp k v s) k' = if decide (k = k') then Some v else prop s k'.
Proof. unfold prop, setProp; simpl. apply lookup_insert. Qed.

Lemma dim_setProp_same (k : string) (d0 d : Q) (s0 s : Shape) :
  truthyQ d0 = true →
  dim (setProp k (dim s0 k d0 * 1)%Q s) k d = dim s0 k d0.
Proof.
  intros Hd. unfold dim at 1. rewrite prop_setProp, decide_True by done.
  rewrite Qmult_1_r_eq. by apply orQ_Some_truthy, orQ_truthy.
Qed.

Lemma dim_setProp_other (k k' : string) (v d : Q) (s : Shape) :
  k ≠ k' → dim (setProp k v s) k' d = dim s k' d.
Proof. intros Hne. unfold dim. by rewrite prop_setProp, decide_False. Qed.

Lemma setProp_id (k : string) (v : Q) (s : Shape) :
  prop s k = Some v → setProp k v s = s.
Proof.
  intros H. destruct s as [t m]. unfold setProp, prop in *; simpl in *.
  f_equal. by apply insert_id.
Qed.

Lemma setProp_carried (k : string) (d : Q) (s : Shape) :
  (∃ v, prop s k = Some v ∧ truthyQ v = true) →
  setProp k (dim s k d * 1)%Q s = s.
Proof.
  intros (v & Hv & Ht). apply setProp_id.
  rewrite Hv, Qmult_1_r_eq. unfold dim. rewrite Hv.
  by rewrite orQ_Some_truthy.
Qed.

Ltac dims_cases H :=
  repeat (apply elem_of_cons in H as [H | H]; [inversion H; subst; clear H |]);
  try (by apply elem_of_nil in H).

(** C6.  For a descriptor of a recognized type (box, sphere, plane,
    cylinder, cone, torus) and a mesh whose scale is (1,1,1),
    [getScaledShapeDimensions] returns a descriptor of the same type in
    which every dimension, read the way the code reads it ([shape.k || d]),
    has the value it has in the original; every other property is
    untouched, the geometry built from it is the same, and when the
    original spells its dimensions out the descriptor comes back equal. *)
Theorem scaled_shape_identity (config : Config) (mesh : ThreeObj)
    (shape : Shape) (k : ShapeKind) :
  c_shape config = Some shape →
  o_scale mesh = vec1 →
  shapeKindOf (s_type shape) = Some k →
  recognized k = true →
  ∃ s', getScaledShapeDimensions config mesh = Some s'
      ∧ s_type s' = s_type shape
      ∧ (∀ key d, (key, d) ∈ scaledDims k → dim s' key d = dim shape key d)
      ∧ (∀ key, (∀ d, (key, d) ∉ scaledDims k) → prop s' key = prop shape key)
      ∧ createGeometry s' = createGeometry shape
      ∧ (carriesDims k shape → s' = shape).
Proof.
  intros Hs Hsc Hk Hrec.
  unfold getScaledShapeDimensions. rewrite Hs, Hk, Hsc.
  eexists; split; [reflexivity|].
  change (Math_max3 (vx vec1) (vy vec1) (vz vec1)) with 1%Q.
  change (Math_max (vx vec1) (vz vec1)) with 1%Q.
  change (vx vec1) with 1%Q; change (vy vec1) with 1%Q;
    change (vz vec1) with 1%Q.
  assert (H25 : truthyQ (2 # 5) = true) by reflexivity.
  assert (H1 : truthyQ 1 = true) by reflexivity.
  destruct k; try discriminate Hrec; cbv zeta.
  all: split; [reflexivity|].
  all: split;
    [ intros key d Hin; dims_cases Hin;
      repeat first
        [ rewrite dim_setProp_same by done
        | rewrite dim_setProp_other by done ];
      reflexivity
    | ].
  all: split;
    [ intros key Hout; rewrite !prop_setProp;
      repeat (case_decide;
              [ subst key; exfalso; eapply Hout; simpl;
                repeat first [ apply list_elem_of_here | apply list_elem_of_further ]
              | ]);
      reflexivity
    | ].
  all: split;
    [ unfold createGeometry; simpl s_type; rewrite Hk; cbv zeta; unfold geo;
      do 2 f_equal;
      repeat first
        [ rewrite dim_setProp_same by done
        | rewrite dim_setProp_other by done ];
      reflexivity
    | ].
  all: intros Hc;
    repeat (rewrite setProp_carried;
            [ | eapply Hc; simpl;
                repeat first [ apply list_elem_of_here | apply list_elem_of_further ] ]);
    reflexivity.
Qed.

(** ** Store and registry lemmas *)

Lemma heap_modify (r r' : nat) (f : ThreeObj → ThreeObj) (st : IsoCard) :
  heap (modify r f st) !! r' =
  if decide (r = r') then f <$> (heap st !! r') else heap st !! r'.
Proof.
  unfold modify. destruct (heap st !! r) as [o|] eqn:Ho; simpl.
  - case_decide as Hd.
    + subst r'. rewrite Ho. simpl. apply list_lookup_insert_eq.
      by eapply lookup_lt_Some.
    + by apply list_lookup_insert_ne.
  - case_decide; [subst r'; by rewrite Ho|done].
Qed.

Lemma heap_modify_eq (r : nat) (f : ThreeObj → ThreeObj) (st : IsoCard) :
  heap (modify r f st) !! r = f <$> (heap st !! r).
Proof. by rewrite heap_modify, decide_True. Qed.

Lemma heap_modify_ne (r r' : nat) (f : ThreeObj → ThreeObj) (st : IsoCard) :
  r ≠ r' → heap (modify r f st) !! r' = heap st !! r'.
Proof. intros. by rewrite heap_modify, decide_False. Qed.

Lemma world_modifyBody (b b' : nat) (f : Body → Body) (st : IsoCard) :
  world (modifyBody b f st) !! b' =
  if decide (b = b') then f <$> (world st !! b') else world st !! b'.
Proof.
  unfold modifyBody. destruct (world st !! b) as [o|] eqn:Ho; simpl.
  - case_decide as Hd.
    + subst b'. rewrite Ho. simpl. apply list_lookup_insert_eq.
      by eapply lookup_lt_Some.
    + by apply list_lookup_insert_ne.
  - case_decide; [subst b'; by rewrite Ho|done].
Qed.

Lemma length_world_modifyBody (b : nat) (f : Body → Body) (st : IsoCard) :
  length (world (modifyBody b f st)) = length (world st).
Proof.
  unfold modifyBody. destruct (world st !! b); simpl; [|done].
  apply length_insert.
Qed.

(** Fields a store or body mutation leaves alone. *)
Ltac frame_modify :=
  intros; unfold modify, modifyBody;
  repeat match goal with
    | |- context [match ?x with _ => _ end] => destruct x
    end; reflexivity.

Lemma objects_modify r f st : objects (modify r f st) = objects st.
Proof. frame_modify. Qed.
Lemma world_modify r f st : world (modify r f st) = world st.
Proof. frame_modify. Qed.
Lemma layers_modify r f st : layers (modify r f st) = layers st.
Proof. frame_modify. Qed.
Lemma scene_modify r f st : scene (modify r f st) = scene st.
Proof. frame_modify. Qed.
Lemma dynamicObjects_modify r f st :
  dynamicObjects (modify r f st) = dynamicObjects st.
Proof. frame_modify. Qed.
Lemma bodyInterface_modify r f st :
  bodyInterface (modify r f st) = bodyInterface st.
Proof. frame_modify. Qed.
Lemma gravityCenter_modify r f st :
  gravityCenter (modify r f st) = gravityCenter st.
Proof. frame_modify. Qed.
Lemma heap_modifyBody b f st : heap (modifyBody b f st) = heap st.
Proof. frame_modify. Qed.
Lemma objects_modifyBody b f st : objects (modifyBody b f st) = objects st.
Proof. frame_modify. Qed.
Lemma bodyInterface_modifyBody b f st :
  bodyInterface (modifyBody b f st) = bodyInterface st.
Proof. frame_modify. Qed.
Lemma dynamicObjects_modifyBody b f st :
  dynamicObjects (modifyBody b f st) = dynamicObjects st.
Proof. frame_modify. Qed.

Lemma findIndex_lookup (id : Id) (l : list Entry) (i : nat) :
  findIndex id l = Some i → ∃ e, l !! i = Some e ∧ e_id e = id.
Proof.
  revert i. induction l as [|e l IH]; intros i; simpl; [done|].
  case_decide as Hd.
  - intros [= <-]. by exists e.
  - destruct (findIndex id l) as [j|]; simpl; [|done].
    intros [= <-]. by apply IH.
Qed.

(** ** replaceObject: what a failed replacement leaves behind *)

(** Whenever [replaceObject] finds the id and then fails to build the
    replacement, the registry it leaves is the old one without the entry,
    and the old handle is out of the scene and disposed. *)
Lemma replaceObject_failure (id : Id) (newConfig : Config) (st : IsoCard)
    (index : nat) (old : Entry) :
  findIndex id (objects st) = Some index →
  objects st !! index = Some old →
  (replaceObject id newConfig st).2 = false →
  let st' := (replaceObject id newConfig st).1 in
  objects st' = delete index (objects st)
  ∧ (Node (e_threeObj old) ∉ scene st')
  ∧ heap st' !! e_threeObj old = dispose <$> (heap st !! e_threeObj old).
Proof.
  intros Hi Ho. unfold replaceObject. rewrite Hi, Ho.
  match goal with
  | |- context [match ?b with Some _ => _ | None => _ end] =>
      destruct b as [added|] eqn:Hb
  end.
  - destruct (alloc _ _) as [r st1]. simpl. discriminate.
  - intros _. simpl. rewrite !objects_modify. simpl.
    split; [by rewrite take_drop|].
    split.
    + rewrite scene_modify. unfold sceneRemove; simpl.
      rewrite list_elem_of_filter. intros [Hne _]. by apply Hne.
    + rewrite heap_modify_eq. reflexivity.
Qed.

(** C1.  [replaceObject("a", { shape: { type: "pyramid" } })] on a registry
    that holds the box "a": the call fails (returns [false]), and afterwards
    the entry "a" is no longer in the registry, its handle is no longer in
    the scene, and its geometry and material are disposed.  The failed call
    does not leave the registry as it was. *)
Theorem replaceObject_failure_loses_entry :
  find (IdStr "a") (objects oneBox) ≠ None
  ∧ scene oneBox = [Node 0%nat]
  ∧ (geo_disposed <$> (heap oneBox !! 0%nat ≫= o_geometry)) = Some false
  ∧ (replaceObject (IdStr "a") pyramidConfig oneBox).2 = false
  ∧ let st' := (replaceObject (IdStr "a") pyramidConfig oneBox).1 in
    objects st' = []
    ∧ find (IdStr "a") (objects st') = None
    ∧ scene st' = []
    ∧ (geo_disposed <$> (heap st' !! 0%nat ≫= o_geometry)) = Some true
    ∧ (mat_disposed <$> (heap st' !! 0%nat ≫= o_material)) = Some true.
Proof. vm_compute. repeat split; congruence. Qed.

(** The same loss for a replacement of an unsupported [type]. *)
Lemma replaceObject_unsupported_type_loses_entry :
  replaceObject (IdStr "a") (set_c_type (Some "widget") emptyConfig) oneBox
  = (set_objects [] (modify 0 dispose (set_scene [] oneBox)), false).
Proof. vm_compute. reflexivity. Qed.

(** ** The dynamic set as a list *)

Lemma elem_of_removeFirst_ne (r x : nat) (l : list nat) :
  x ≠ r → x ∈ removeFirst r l ↔ x ∈ l.
Proof.
  intros Hne. induction l as [|y l IH]; simpl; [done|].
  case_decide as Hy.
  - subst y. rewrite elem_of_cons. intuition congruence.
  - rewrite !elem_of_cons, IH. done.
Qed.

Lemma removeFirst_subseteq (r x : nat) (l : list nat) :
  x ∈ removeFirst r l → x ∈ l.
Proof.
  induction l as [|y l IH]; simpl; [done|].
  case_decide; rewrite !elem_of_cons; intuition.
Qed.

Lemma removeFirst_not_in (r : nat) (l : list nat) :
  NoDup l → r ∉ removeFirst r l.
Proof.
  induction 1 as [|y l Hy Hnd IH]; simpl; [apply not_elem_of_nil|].
  case_decide as Hd.
  - by subst y.
  - rewrite elem_of_cons. intuition.
Qed.

Lemma NoDup_removeFirst (r : nat) (l : list nat) :
  NoDup l → NoDup (removeFirst r l).
Proof.
  induction 1 as [|y l Hy Hnd IH]; simpl; [constructor|].
  case_decide; [done|].
  constructor; [|done]. intros Hin. by apply removeFirst_subseteq in Hin.
Qed.

(** ** convertObjectToDynamic *)

Section Attach.
Context `{IsoDeps}.

Lemma heap_trackDynamic r mt st : heap (trackDynamic r mt st) = heap st.
Proof. unfold trackDynamic. by repeat case_match. Qed.

Lemma world_trackDynamic r mt st : world (trackDynamic r mt st) = world st.
Proof. unfold trackDynamic. by repeat case_match. Qed.

Lemma dynamicObjects_trackDynamic r mt st :
  dynamicObjects (trackDynamic r mt st) =
  if decide (mt = EMotionType_Dynamic) then
    if includes r (dynamicObjects st) then dynamicObjects st
    else dynamicObjects st ++ [r]
  else removeFirst r (dynamicObjects st).
Proof. unfold trackDynamic. by repeat case_match. Qed.

(** What a successful [convertObjectToDynamic] has done: the mesh of the
    entry points at a new body, created from the mesh's transform with
    the motion type of the configuration, and the dynamic set is
    updated from the old one. *)
Lemma convert_success (id : Id) (pc : PhysicsConfig) (st st' : IsoCard) :
  convertObjectToDynamic id pc st = (st', true) →
  ∃ item mesh0 mesh' body,
    find id (objects st) = Some item
    ∧ heap st !! e_threeObj item = Some mesh0
    ∧ isMesh mesh0 = true
    ∧ heap st' !! e_threeObj item = Some mesh'
    ∧ ud_body (o_userData mesh') = Some (length (world st))
    ∧ world st' !! length (world st) = Some body
    ∧ b_motionType body = motionTypeOf pc
    ∧ b_layer body = objectLayerOf (motionTypeOf pc)
    ∧ b_position body = o_position mesh0
    ∧ b_rotation body = o_quaternion mesh0
    ∧ dynamicObjects st' =
        if decide (motionTypeOf pc = EMotionType_Dynamic) then
          if includes (e_threeObj item) (dynamicObjects st)
          then dynamicObjects st
          else dynamicObjects st ++ [e_threeObj item]
        else removeFirst (e_threeObj item) (dynamicObjects st).
Proof.
  unfold convertObjectToDynamic, find.
  destruct (negb (jolt st) || negb (jInterface st)); [discriminate|].
  destruct (findIndex id (objects st)) as [index|]; [|discriminate].
  simpl. destruct (objects st !! index) as [item|]; [|discriminate].
  destruct (heap st !! e_threeObj item) as [mesh0|] eqn:Hm; [|discriminate].
  destruct (isMesh mesh0) eqn:Hmesh; [|discriminate]. simpl.
  destruct (bodyInterface st); [|discriminate]. simpl.
  set (st1 := releaseOldBody (e_threeObj item) mesh0 st).
  assert (Hw1 : length (world st1) = length (world st)).
  { subst st1. unfold releaseOldBody. destruct (ud_body _); [|done].
    by rewrite world_modify, length_world_modifyBody. }
  assert (Hd1 : dynamicObjects st1 = dynamicObjects st).
  { subst st1. unfold releaseOldBody. destruct (ud_body _); [|done].
    by rewrite dynamicObjects_modify, dynamicObjects_modifyBody. }
  assert (Hh1 : ∃ m1, heap st1 !! e_threeObj item = Some m1).
  { subst st1. unfold releaseOldBody. destruct (ud_body _); [|by eexists].
    rewrite heap_modify_eq, heap_modifyBody, Hm. by eexists. }
  destruct Hh1 as [m1 Hm1].
  intros [= <-].
  eexists item, mesh0, _, _.
  split; [done|]. split; [done|]. split; [done|].
  rewrite heap_trackDynamic, world_trackDynamic, dynamicObjects_trackDynamic.
  simpl. rewrite heap_modify_eq, world_modify, dynamicObjects_modify.
  simpl. rewrite Hm1, Hd1. simpl.
  split; [reflexivity|]. split; [by rewrite Hw1|].
  split.
  { rewrite lookup_app_r by lia. by rewrite Hw1, Nat.sub_diag. }
  done.
Qed.

(** C2 (amended).  The collision layer of the body that
    [convertObjectToDynamic] creates is a function of its motion type
    alone: a static body is on the non-moving layer; a kinematic body,
    like a dynamic one, is on the moving layer. *)
Theorem attach_layer_by_motion_type (id : Id) (pc : PhysicsConfig)
    (st st' : IsoCard) :
  convertObjectToDynamic id pc st = (st', true) →
  ∃ item mesh b body,
    find id (objects st) = Some item
    ∧ heap st' !! e_threeObj item = Some mesh
    ∧ ud_body (o_userData mesh) = Some b
    ∧ world st' !! b = Some body
    ∧ b_motionType body = motionTypeOf pc
    ∧ b_layer body = objectLayerOf (b_motionType body)
    ∧ (b_motionType body = EMotionType_Static →
       b_layer body = LAYER_NON_MOVING)
    ∧ (b_motionType body = EMotionType_Kinematic →
       b_layer body = LAYER_MOVING)
    ∧ (b_motionType body = EMotionType_Dynamic →
       b_layer body = LAYER_MOVING).
Proof.
  intros Hc.
  destruct (convert_success _ _ _ _ Hc)
    as (item & mesh0 & mesh' & body & Hf & _ & _ & Hh & Hb & Hw & Hmt & Hl & _).
  exists item, mesh', (length (world st)), body.
  repeat (split; [done|]).
  rewrite Hl, Hmt.
  split; [done|].
  repeat split; intros ->; reflexivity.
Qed.

(** C7.  After a successful [convertObjectToDynamic], on a dynamic set
    without duplicates (which the set stays), the mesh of the object is in
    [dynamicObjects] exactly when the motion type applied is dynamic;
    membership of every other mesh is as before. *)
Theorem dynamic_set_membership (id : Id) (pc : PhysicsConfig)
    (st st' : IsoCard) :
  NoDup (dynamicObjects st) →
  convertObjectToDynamic id pc st = (st', true) →
  ∃ item,
    find id (objects st) = Some item
    ∧ (e_threeObj item ∈ dynamicObjects st'
       ↔ motionTypeOf pc = EMotionType_Dynamic)
    ∧ NoDup (dynamicObjects st')
    ∧ (∀ r, r ≠ e_threeObj item →
         r ∈ dynamicObjects st' ↔ r ∈ dynamicObjects st).
Proof.
  intros Hnd Hc.
  destruct (convert_success _ _ _ _ Hc)
    as (item & mesh0 & mesh' & body & Hf & _ & _ & _ & _ & _ & _ & _ & _ & _ & Hd).
  exists item. split; [done|]. rewrite Hd. clear Hd.
  case_decide as Hdyn.
  - unfold includes. case_bool_decide as Hin.
    + repeat split; try done.
    + split; [|split].
      * split; [done|]. intros _. apply elem_of_app. right.
        by apply list_elem_of_singleton.
      * apply NoDup_app. repeat split; [done| |apply NoDup_singleton].
        intros x Hx Hx'. apply list_elem_of_singleton in Hx'. by subst x.
      * intros r Hr. rewrite elem_of_app, list_elem_of_singleton.
        intuition congruence.
  - split; [|split].
    + split; [|done]. intros Hin.
      by apply (removeFirst_not_in _ _ Hnd) in Hin.
    + by apply NoDup_removeFirst.
    + intros r Hr. by apply elem_of_removeFirst_ne.
Qed.
End Attach.

(** C2, as stated, fails: attached with [motionType: "kinematic"], the box
    "a" gets a kinematic body on the moving layer, not on the non-moving
    one. *)
Lemma kinematic_body_on_moving_layer :
  ∃ st' body,
    convertObjectToDynamic (H := stillEngine) (IdStr "a") (motion "kinematic")
      readyBox = (st', true)
    ∧ world st' !! 0%nat = Some body
    ∧ b_motionType body = EMotionType_Kinematic
    ∧ b_layer body = LAYER_MOVING
    ∧ b_layer body ≠ LAYER_NON_MOVING.
Proof.
  eexists _, _. split; [vm_compute; reflexivity|].
  split; [vm_compute; reflexivity|].
  vm_compute. repeat split; congruence.
Qed.

(** ** The transform snapshot store *)

Lemma restoreHandle_snapshotOf (o : ThreeObj) :
  restoreHandle (snapshotOf o) o = o.
Proof. by destruct o. Qed.

Lemma set_heap_id (st : IsoCard) : set_heap (heap st) st = st.
Proof. by destruct st. Qed.

Lemma modify_id (r : nat) (f : ThreeObj → ThreeObj) (o : ThreeObj)
    (st : IsoCard) :
  heap st !! r = Some o → f o = o → modify r f st = st.
Proof.
  intros Ho Hf. unfold modify. rewrite Ho, Hf.
  rewrite list_insert_id by done. apply set_heap_id.
Qed.

Lemma find_cons (id : Id) (e : Entry) (l : list Entry) :
  find id (e :: l) = if decide (e_id e = id) then Some e else find id l.
Proof.
  unfold find; simpl. case_decide; [done|].
  by destruct (findIndex id l).
Qed.

Lemma find_NoDup (e : Entry) (l : list Entry) :
  NoDup (e_id <$> l) → e ∈ l → find (e_id e) l = Some e.
Proof.
  induction l as [|x l IH]; intros Hnd Hin; [by apply elem_of_nil in Hin|].
  rewrite find_cons. rewrite fmap_cons in Hnd.
  apply NoDup_cons in Hnd as [Hx Hnd].
  apply elem_of_cons in Hin as [->|Hin]; [by rewrite decide_True|].
  case_decide as Hd; [|by apply IH].
  exfalso. apply Hx. rewrite Hd. by apply list_elem_of_fmap_2.
Qed.

Lemma mapSet_fresh (id : Id) (v : Snapshot) (m : list (Id * Snapshot)) :
  id ∉ m.*1 → mapSet id v m = m ++ [(id, v)].
Proof.
  induction m as [|[k w] m IH]; simpl; [done|].
  rewrite not_elem_of_cons. intros [Hne Hm].
  rewrite decide_False by done. by rewrite IH.
Qed.

Lemma snapshotEntry_Some (st : IsoCard) (e : Entry) (id : Id) (s : Snapshot) :
  snapshotEntry st e = Some (id, s) →
  id = e_id e
  ∧ ∃ o, heap st !! e_threeObj e = Some o
       ∧ isMesh o || isGroup o = true ∧ s = snapshotOf o.
Proof.
  unfold snapshotEntry. destruct (heap st !! e_threeObj e) as [o|]; [|done].
  destruct (isMesh o || isGroup o) eqn:Hk; [|done].
  intros [= <- <-]. split; [done|]. by exists o.
Qed.

(** With pairwise distinct ids, the store holds one snapshot per mesh or
    group, in registry order. *)
Lemma saveObjectTransforms_NoDup (st : IsoCard) :
  NoDup (e_id <$> objects st) →
  savedTransforms (saveObjectTransforms st) = omap (snapshotEntry st) (objects st).
Proof.
  intros Hnd. unfold saveObjectTransforms; simpl.
  change (omap (snapshotEntry st) (objects st))
    with ([] ++ omap (snapshotEntry st) (objects st)).
  assert (Hacc : ∀ e, e ∈ objects st → e_id e ∉ ([] : list (Id * Snapshot)).*1)
    by (intros; apply not_elem_of_nil).
  revert Hnd Hacc. generalize ([] : list (Id * Snapshot)) as acc.
  induction (objects st) as [|e l IH]; intros acc Hnd Hacc.
  { simpl. by rewrite app_nil_r. }
  rewrite fmap_cons in Hnd. apply NoDup_cons in Hnd as [He Hnd].
  assert (Hfresh : e_id e ∉ acc.*1) by (apply Hacc; left).
  cbn [foldl omap list_omap].
  destruct (snapshotEntry st e) as [[id s]|] eqn:Hs.
  - apply snapshotEntry_Some in Hs as [-> _].
    rewrite mapSet_fresh by done. rewrite IH; [by rewrite <- app_assoc|done|].
    intros e' He'. rewrite fmap_app, elem_of_app. simpl.
    rewrite list_elem_of_singleton. intros [Hin|Heq].
    + by apply (Hacc e'); [right|].
    + apply He. rewrite <- Heq. by apply list_elem_of_fmap_2.
  - apply IH; [done|]. intros; apply Hacc; by right.
Qed.

(** Restoring a consistent entry leaves everything but the body alone. *)
Lemma restoreOne_consistent (st : IsoCard) (entry : Id * Snapshot) :
  consistent st entry →
  ∃ e o, find entry.1 (objects st) = Some e
       ∧ heap st !! e_threeObj e = Some o
       ∧ entry.2 = snapshotOf o
       ∧ restoreOne st entry =
           match ud_body (o_userData o) with
           | Some b =>
               if bodyInterface st then modifyBody b (resetBody entry.2) st
               else st
           | None => st
           end.
Proof.
  intros (e & o & Hf & Ho & Hs). exists e, o. repeat (split; [done|]).
  destruct entry as [id snap]; simpl in *. unfold restoreOne.
  rewrite Hf, Ho. subst snap.
  rewrite (modify_id _ _ o) by (done || apply restoreHandle_snapshotOf).
  done.
Qed.

Lemma restoreOne_frame (st : IsoCard) (entry : Id * Snapshot) :
  consistent st entry →
  heap (restoreOne st entry) = heap st
  ∧ objects (restoreOne st entry) = objects st
  ∧ bodyInterface (restoreOne st entry) = bodyInterface st
  ∧ length (world (restoreOne st entry)) = length (world st).
Proof.
  intros Hc. destruct (restoreOne_consistent _ _ Hc) as (e & o & _ & _ & _ & ->).
  destruct (ud_body _); [|done]. destruct (bodyInterface st) eqn:Hb; [|done].
  by rewrite heap_modifyBody, objects_modifyBody, bodyInterface_modifyBody,
    length_world_modifyBody.
Qed.

Lemma consistent_frame (st st' : IsoCard) (entry : Id * Snapshot) :
  heap st' = heap st → objects st' = objects st →
  consistent st entry → consistent st' entry.
Proof. intros Hh Ho (e & o & ?). exists e, o. by rewrite Hh, Ho. Qed.

Lemma restore_frame (l : list (Id * Snapshot)) (st : IsoCard) :
  Forall (consistent st) l →
  heap (foldl restoreOne st l) = heap st
  ∧ objects (foldl restoreOne st l) = objects st
  ∧ bodyInterface (foldl restoreOne st l) = bodyInterface st.
Proof.
  revert st. induction l as [|x l IH]; intros st Hl; simpl; [done|].
  apply Forall_cons in Hl as [Hx Hl].
  destruct (restoreOne_frame _ _ Hx) as (Hh & Ho & Hb & _).
  destruct (IH (restoreOne st x)) as (Hh' & Ho' & Hb').
  { eapply Forall_impl; [done|]. intros y. by apply consistent_frame. }
  by rewrite Hh', Ho', Hb'.
Qed.

Lemma resetBody_idem (s : Snapshot) (b : Body) :
  resetBody s (resetBody s b) = resetBody s b.
Proof. by destruct b. Qed.

Lemma restoreOne_world (st : IsoCard) (entry : Id * Snapshot) (b : nat) :
  consistent st entry →
  bodyInterface st = true →
  (writes st b entry
   ∧ world (restoreOne st entry) !! b = resetBody entry.2 <$> (world st !! b))
  ∨ (¬ writes st b entry
     ∧ world (restoreOne st entry) !! b = world st !! b).
Proof.
  intros Hc Hbi.
  destruct (restoreOne_consistent _ _ Hc) as (e & o & Hf & Ho & Hs & ->).
  rewrite Hbi.
  destruct (ud_body (o_userData o)) as [b'|] eqn:Hb.
  - rewrite world_modifyBody. case_decide as Hd.
    + subst b'. left. split; [by exists e, o|done].
    + right. split; [|done]. intros (e' & o' & Hf' & Ho' & Hb'). congruence.
  - right. split; [|done]. intros (e' & o' & Hf' & Ho' & Hb'). congruence.
Qed.

Lemma writes_frame (st st' : IsoCard) (b : nat) (entry : Id * Snapshot) :
  heap st' = heap st → objects st' = objects st →
  writes st' b entry ↔ writes st b entry.
Proof. intros Hh Ho. unfold writes. by rewrite Hh, Ho. Qed.

(** While every write to [b] carries the snapshot [s], the body is either
    as it was or reset to [s]. *)
Lemma restore_world_any (l : list (Id * Snapshot)) (st : IsoCard) (b : nat)
    (s : Snapshot) (body : Body) :
  Forall (consistent st) l →
  bodyInterface st = true →
  (∀ entry, entry ∈ l → writes st b entry → entry.2 = s) →
  world st !! b = Some body →
  world (foldl restoreOne st l) !! b = Some body
  ∨ world (foldl restoreOne st l) !! b = Some (resetBody s body).
Proof.
  revert st body. induction l as [|x l IH]; intros st body Hl Hbi Hw Hb; simpl.
  { by left. }
  apply Forall_cons in Hl as [Hx Hl].
  destruct (restoreOne_frame _ _ Hx) as (Hh & Ho & Hbi' & _).
  assert (Hl' : Forall (consistent (restoreOne st x)) l).
  { eapply Forall_impl; [done|]. intros y. by apply consistent_frame. }
  assert (Hw' : ∀ entry, entry ∈ l → writes (restoreOne st x) b entry → entry.2 = s).
  { intros entry Hin Hwr. apply Hw; [by right|]. by eapply writes_frame. }
  destruct (restoreOne_world st x b Hx Hbi) as [[Hwr Hres]|[_ Hres]].
  - rewrite Hb, (Hw x) in Hres by (done || left). simpl in Hres.
    destruct (IH _ _ Hl' ltac:(congruence) Hw' Hres) as [->| ->].
    + by right.
    + right. by rewrite resetBody_idem.
  - rewrite Hb in Hres. by apply IH; [|congruence| |].
Qed.

(** ... and it is reset as soon as one entry writes to it. *)
Lemma restore_world_hit (l : list (Id * Snapshot)) (st : IsoCard) (b : nat)
    (s : Snapshot) (body : Body) :
  Forall (consistent st) l →
  bodyInterface st = true →
  (∀ entry, entry ∈ l → writes st b entry → entry.2 = s) →
  (∃ entry, entry ∈ l ∧ writes st b entry) →
  world st !! b = Some body →
  world (foldl restoreOne st l) !! b = Some (resetBody s body).
Proof.
  revert st body. induction l as [|x l IH];
    intros st body Hl Hbi Hw (entry & Hin & Hwr) Hb; simpl.
  { by apply elem_of_nil in Hin. }
  apply Forall_cons in Hl as [Hx Hl].
  destruct (restoreOne_frame _ _ Hx) as (Hh & Ho & Hbi' & _).
  assert (Hl' : Forall (consistent (restoreOne st x)) l).
  { eapply Forall_impl; [done|]. intros y. by apply consistent_frame. }
  assert (Hw' : ∀ entry, entry ∈ l → writes (restoreOne st x) b entry → entry.2 = s).
  { intros entry' Hin' Hwr'. apply Hw; [by right|]. by eapply writes_frame. }
  destruct (restoreOne_world st x b Hx Hbi) as [[Hwx Hres]|[Hnx Hres]].
  - rewrite Hb, (Hw x) in Hres by (done || left). simpl in Hres.
    destruct (restore_world_any _ _ _ _ _ Hl' ltac:(congruence) Hw' Hres)
      as [->| ->]; [done|by rewrite resetBody_idem].
  - rewrite Hb in Hres.
    apply elem_of_cons in Hin as [->|Hin]; [done|].
    apply IH; [done|congruence|done| |done].
    exists entry. split; [done|]. by eapply writes_frame.
Qed.

Lemma elem_of_omap_snapshotEntry (st : IsoCard) (entry : Id * Snapshot)
    (l : list Entry) :
  entry ∈ omap (snapshotEntry st) l →
  ∃ e o, e ∈ l ∧ entry = (e_id e, snapshotOf o)
       ∧ heap st !! e_threeObj e = Some o
       ∧ isMesh o || isGroup o = true.
Proof.
  rewrite list_elem_of_omap. intros (e & He & Hs).
  destruct entry as [id s].
  apply snapshotEntry_Some in Hs as (-> & o & Ho & Hk & ->).
  by exists e, o.
Qed.

(** Start and stop where ids are distinct.  On an instance whose engine is
    up ([jolt], [jInterface] and [bodyInterface] set) and whose registry
    entries have pairwise distinct ids: [startPhysics] stores, for every
    mesh and group, its position, quaternion, scale and rotation under its
    id and marks the simulation running; a [stopPhysics] that follows with
    no frame in between marks it stopped and leaves every handle with the
    fields it had before the start; and every body still attached to a
    mesh or group is put at the handle's position and quaternion with both
    velocities zero.  (A body belongs to one handle.) *)
Lemma stop_after_start_is_identity (st : IsoCard) :
  jolt st = true → jInterface st = true → bodyInterface st = true →
  bodiesUnshared st →
  NoDup (e_id <$> objects st) →
  let st1 := (startPhysics st).1 in
  let st2 := (stopPhysics st1).1 in
  (startPhysics st).2 = true ∧ (stopPhysics st1).2 = true
  ∧ isPhysicsRunning st1 = true ∧ isPhysicsRunning st2 = false
  ∧ (∀ e o, e ∈ objects st → heap st !! e_threeObj e = Some o →
       isMesh o || isGroup o = true →
       (e_id e, snapshotOf o) ∈ savedTransforms st1)
  ∧ heap st2 = heap st
  ∧ objects st2 = objects st
  ∧ (∀ e o b body, e ∈ objects st → heap st !! e_threeObj e = Some o →
       isMesh o || isGroup o = true →
       ud_body (o_userData o) = Some b → world st !! b = Some body →
       ∃ body', world st2 !! b = Some body'
              ∧ b_position body' = o_position o
              ∧ b_rotation body' = o_quaternion o
              ∧ b_linearVelocity body' = vec0
              ∧ b_angularVelocity body' = vec0).
Proof.
  intros Hj Hji Hbi Hun Hnd st1 st2.
  assert (Hsaved : savedTransforms st1 = omap (snapshotEntry st) (objects st)).
  { subst st1. unfold startPhysics. rewrite Hj, Hji. simpl.
    by apply saveObjectTransforms_NoDup. }
  assert (Hst1 : heap st1 = heap st ∧ objects st1 = objects st
                 ∧ bodyInterface st1 = true ∧ world st1 = world st
                 ∧ jolt st1 = true ∧ jInterface st1 = true
                 ∧ isPhysicsRunning st1 = true).
  { subst st1. unfold startPhysics. rewrite Hj, Hji. by simpl. }
  destruct Hst1 as (Hh1 & Ho1 & Hbi1 & Hw1 & Hj1 & Hji1 & Hr1).
  set (st1' := set_isPhysicsRunning false st1).
  assert (Hst2 : st2 = foldl restoreOne st1' (savedTransforms st1)).
  { subst st2. unfold stopPhysics. rewrite Hj1, Hji1. by simpl. }
  assert (Hcons : Forall (consistent st1') (savedTransforms st1)).
  { apply Forall_forall. intros entry Hin. rewrite Hsaved in Hin.
    apply elem_of_omap_snapshotEntry in Hin as (e & o & He & -> & Ho & _).
    exists e, o. simpl. rewrite Ho1, Hh1. split; [|done].
    by apply find_NoDup. }
  destruct (restore_frame _ _ Hcons) as (Hh2 & Ho2 & _).
  split. { subst st1. unfold startPhysics. by rewrite Hj, Hji. }
  split. { unfold stopPhysics. by rewrite Hj1, Hji1. }
  split; [done|].
  split. { rewrite Hst2. unfold restoreObjectTransforms.
           clear -Hcons. revert Hcons. generalize (savedTransforms st1).
           assert (Hr : isPhysicsRunning st1' = false) by done.
           revert Hr. generalize st1'. intros s Hs l. revert s Hs.
           induction l as [|x l IH]; intros s Hs Hl; simpl; [done|].
           apply Forall_cons in Hl as [Hx Hl].
           destruct (restoreOne_frame _ _ Hx) as (Hh & Ho & _).
           apply IH.
           - destruct (restoreOne_consistent _ _ Hx) as (e & o & _ & _ & _ & ->).
             destruct (ud_body _); [|done]. destruct (bodyInterface s); [|done].
             unfold modifyBody. by destruct (world s !! _).
           - eapply Forall_impl; [done|]. intros y. by apply consistent_frame. }
  split.
  { intros e o He Ho Hk. rewrite Hsaved. apply list_elem_of_omap.
    exists e. split; [done|]. unfold snapshotEntry. by rewrite Ho, Hk. }
  split. { by rewrite Hst2, Hh2. }
  split. { by rewrite Hst2, Ho2. }
  intros e o b body He Ho Hk Hb Hw.
  exists (resetBody (snapshotOf o) body). split; [|by destruct body].
  rewrite Hst2. apply restore_world_hit; [done|done| | |by rewrite <- Hw1 in Hw].
  - intros entry Hin (e' & o' & Hf' & Ho' & Hb'). rewrite Hsaved in Hin.
    apply elem_of_omap_snapshotEntry in Hin as (e'' & o'' & He'' & -> & Ho'' & _).
    simpl in *. rewrite Ho1 in Hf'. rewrite Hh1 in Ho'.
    rewrite (find_NoDup e'') in Hf' by done. injection Hf' as <-.
    assert (e_threeObj e'' = e_threeObj e) as Hr by (by eapply Hun).
    congruence.
  - exists (e_id e, snapshotOf o). split.
    + rewrite Hsaved. apply list_elem_of_omap. exists e. split; [done|].
      unfold snapshotEntry. by rewrite Ho, Hk.
    + exists e, o. simpl. rewrite Ho1, Hh1. by rewrite find_NoDup.
Qed.

(** C3.  Stop after start is not the identity on transforms when two
    meshes were added without a name.  [addObject] takes [config.name] for
    the id, so both entries have the id [undefined]; [startPhysics] keeps
    one snapshot for the two, the second mesh's, and [stopPhysics] restores
    it to the first entry with that id: the first mesh, which was at the
    origin before the start, sits at (5,0,0) after the stop. *)
Theorem stop_after_start_moves_unnamed_mesh :
  let st1 := (startPhysics twoUnnamed).1 in
  let st2 := (stopPhysics st1).1 in
  (e_id <$> objects twoUnnamed) = [IdUndefined; IdUndefined]
  ∧ (o_position <$> heap twoUnnamed) = [vec0; mkVec3 5 0 0]
  ∧ length (savedTransforms st1) = 1%nat
  ∧ (o_position <$> heap st2) = [mkVec3 5 0 0; mkVec3 5 0 0]
  ∧ heap st2 ≠ heap twoUnnamed.
Proof. vm_compute. repeat split; congruence. Qed.

(** ** The frame callback: time step and radial gravity *)

Lemma Qgtb_true (a b : Q) : Qgtb a b = true ↔ (b < a)%Q.
Proof.
  unfold Qgtb. rewrite negb_true_iff, <- not_true_iff_false, Qle_bool_iff.
  split; [apply Qnot_le_lt|apply Qlt_not_le].
Qed.

Lemma Qgtb_false (a b : Q) : Qgtb a b = false ↔ (a <= b)%Q.
Proof. unfold Qgtb. by rewrite negb_false_iff, Qle_bool_iff. Qed.

(** A vector that is [dir] scaled to unit length, scaled again by [c]. *)
Lemma scaled_unit_force (n dir : Vec3) (k c : Q) :
  veq n (Mul dir k) → (k * k * LengthSq dir == 1)%Q →
  (LengthSq (Mul n c) == c * c)%Q ∧ veq (Mul n c) (Mul dir (k * c)).
Proof.
  intros (Hx & Hy & Hz) Hunit.
  destruct n as [nx ny nz], dir as [dx dy dz].
  unfold LengthSq, Mul, veq in *; simpl in *.
  split.
  - rewrite Hx, Hy, Hz.
    transitivity (c * c * (k * k * (dx * dx + dy * dy + dz * dz)))%Q; [ring|].
    rewrite Hunit. ring.
  - rewrite Hx, Hy, Hz. repeat split; ring.
Qed.



Section FrameProps.
Context `{IsoDeps}.

Lemma stepLog_attract st r : stepLog (attract st r) = stepLog st.
Proof.
  unfold attract, modifyBody. repeat case_match; reflexivity.
Qed.

Lemma frame_attract st r :
  jInterface (attract st r) = jInterface st
  ∧ isPhysicsRunning (attract st r) = isPhysicsRunning st
  ∧ time (attract st r) = time st
  ∧ dynamicObjects (attract st r) = dynamicObjects st
  ∧ gravityCenter (attract st r) = gravityCenter st.
Proof.
  unfold attract, modifyBody. repeat case_match; done.
Qed.

Lemma stepLog_pullTransform st r : stepLog (pullTransform st r) = stepLog st.
Proof.
  unfold pullTransform, modify. repeat case_match; reflexivity.
Qed.

Lemma time_pullTransform st r : time (pullTransform st r) = time st.
Proof.
  unfold pullTransform, modify. repeat case_match; reflexivity.
Qed.

Lemma stepLog_foldl (f : IsoCard → nat → IsoCard) (l : list nat) st :
  (∀ s r, stepLog (f s r) = stepLog s) →
  stepLog (foldl f st l) = stepLog st.
Proof.
  intros Hf. revert st. induction l as [|r l IH]; intros st; simpl; [done|].
  by rewrite IH, Hf.
Qed.

Lemma time_foldl (f : IsoCard → nat → IsoCard) (l : list nat) st :
  (∀ s r, time (f s r) = time s) →
  time (foldl f st l) = time st.
Proof.
  intros Hf. revert st. induction l as [|r l IH]; intros st; simpl; [done|].
  by rewrite IH, Hf.
Qed.

Lemma clampDelta_le (elapsed : Q) : (clampDelta elapsed <= 1 / 30)%Q.
Proof.
  unfold clampDelta, Math_min.
  destruct (Qle_bool elapsed (1 / 30)) eqn:Hle.
  - by apply Qle_bool_iff.
  - apply Qle_refl.
Qed.

(** C5.  On a frame with the engine up and the simulation running, the
    engine is stepped once, with the elapsed time clamped to at most
    1/30 s and with 2 sub-steps when the clamped time exceeds 1/55 s,
    1 otherwise; the simulation time advances by the clamped time.
    Elapsed times of 0.01 s and 0.05 s give 1 and 2 sub-steps. *)
Theorem tick_clamp_and_substeps (elapsed : Q) (st : IsoCard) :
  jInterface st = true → isPhysicsRunning st = true →
  let deltaTime := clampDelta elapsed in
  stepLog (animate elapsed st) = (deltaTime, numStepsFor deltaTime) :: stepLog st
  ∧ time (animate elapsed st) = (time st + deltaTime)%Q
  ∧ (deltaTime <= 1 / 30)%Q
  ∧ ((elapsed <= 1 / 30)%Q → deltaTime = elapsed)
  ∧ ((1 / 30 < elapsed)%Q → deltaTime = (1 / 30)%Q)
  ∧ ((1 / 55 < deltaTime)%Q → numStepsFor deltaTime = 2%Z)
  ∧ ((deltaTime <= 1 / 55)%Q → numStepsFor deltaTime = 1%Z)
  ∧ numStepsFor (clampDelta (1 # 100)) = 1%Z
  ∧ numStepsFor (clampDelta (1 # 20)) = 2%Z.
Proof.
  intros Hji Hrun deltaTime.
  split.
  { unfold animate. rewrite Hji, Hrun. simpl andb. cbv iota.
    set (st0 := if String.eqb (gravityType st) "radial"
                then applyRadialGravity st else st).
    assert (Hlog : stepLog st0 = stepLog st).
    { subst st0. destruct (String.eqb _ _); [|done].
      apply stepLog_foldl, stepLog_attract. }
    repeat match goal with
      | |- context [if ?c then _ else _] => destruct c
      end; simpl;
      rewrite (stepLog_foldl pullTransform) by apply stepLog_pullTransform;
      simpl; by rewrite Hlog. }
  split.
  { unfold animate. rewrite Hji, Hrun. simpl andb. cbv iota.
    set (st0 := if String.eqb (gravityType st) "radial"
                then applyRadialGravity st else st).
    assert (Htime : time st0 = time st).
    { subst st0. destruct (String.eqb _ _); [|done].
      apply time_foldl. intros s r. apply frame_attract. }
    repeat match goal with
      | |- context [if ?c then _ else _] => destruct c
      end; simpl;
      rewrite (time_foldl pullTransform) by apply time_pullTransform;
      simpl; by rewrite Htime. }
  split; [apply clampDelta_le|].
  split.
  { intros Hle. subst deltaTime. unfold clampDelta, Math_min.
    apply Qle_bool_iff in Hle. by rewrite Hle. }
  split.
  { intros Hlt. subst deltaTime. unfold clampDelta, Math_min.
    destruct (Qle_bool elapsed (1 / 30)) eqn:Hle; [|done].
    apply Qle_bool_iff in Hle. exfalso. by apply (Qlt_not_le _ _ Hlt). }
  split.
  { intros Hlt. unfold numStepsFor. apply Qgtb_true in Hlt. by rewrite Hlt. }
  split.
  { intros Hle. unfold numStepsFor. apply Qgtb_false in Hle. by rewrite Hle. }
  split; reflexivity.
Qed.


End FrameProps.

(** ** Layer opacity *)

Lemma forEachObject_other (f : Entry → ThreeObj → ThreeObj) (l : list Entry)
    (st : IsoCard) (r : nat) :
  r ∉ e_threeObj <$> l →
  heap (foldl (λ st e, modify (e_threeObj e) (f e) st) st l) !! r = heap st !! r.
Proof.
  revert st. induction l as [|x l IH]; intros st Hr; simpl; [done|].
  rewrite fmap_cons, not_elem_of_cons in Hr. destruct Hr as [Hne Hr].
  rewrite IH by done. by apply heap_modify_ne.
Qed.

Lemma forEachObject_entry (f : Entry → ThreeObj → ThreeObj) (l : list Entry)
    (st : IsoCard) (e : Entry) :
  NoDup (e_threeObj <$> l) → e ∈ l →
  heap (foldl (λ st e, modify (e_threeObj e) (f e) st) st l) !! e_threeObj e
  = f e <$> (heap st !! e_threeObj e).
Proof.
  revert st. induction l as [|x l IH]; intros st Hnd Hin; simpl.
  { by apply elem_of_nil in Hin. }
  rewrite fmap_cons in Hnd. apply NoDup_cons in Hnd as [Hx Hnd].
  apply elem_of_cons in Hin as [->|Hin].
  - rewrite forEachObject_other by done. apply heap_modify_eq.
  - rewrite IH by done. rewrite heap_modify_ne; [done|].
    intros Heq. apply Hx. rewrite Heq. by apply list_elem_of_fmap_2.
Qed.

(** What the test [this.layers[name]] finds. *)
Lemma layerSlot_own (table : gmap string Layer) (name : string) (l : Layer) :
  layerSlot table name = OwnLayer l ↔ table !! name = Some l.
Proof.
  unfold layerSlot. destruct (table !! name) as [l'|]; [|case_bool_decide];
    split; intros Heq; by simplify_eq.
Qed.

Lemma layerSlot_none (table : gmap string Layer) (name : string) :
  layerSlot table name = NoLayer
  ↔ table !! name = None ∧ name ∉ objectPrototypeMembers.
Proof.
  unfold layerSlot. destruct (table !! name) as [l'|]; [|case_bool_decide];
    split; try done; intros [? ?]; done.
Qed.

Lemma layerSlot_inherited (table : gmap string Layer) (name : string) :
  layerSlot table name = InheritedMember
  ↔ table !! name = None ∧ name ∈ objectPrototypeMembers.
Proof.
  unfold layerSlot. destruct (table !! name) as [l'|]; [|case_bool_decide];
    split; try done; intros [? ?]; done.
Qed.

Lemma layerSlot_insert (table : gmap string Layer) (name : string) (l : Layer) :
  layerSlot (<[name := l]> table) name = OwnLayer l.
Proof. apply layerSlot_own, lookup_insert_eq. Qed.

Lemma layerSlot_insert_ne (table : gmap string Layer) (name other : string)
    (l : Layer) :
  other ≠ name →
  layerSlot (<[other := l]> table) name = layerSlot table name.
Proof. intros Hne. unfold layerSlot. by rewrite lookup_insert_ne. Qed.

Lemma objects_ensureLayer l st : objects (ensureLayer l st) = objects st.
Proof. unfold ensureLayer. by destruct (layerSlot (layers st) l). Qed.

Lemma heap_ensureLayer l st : heap (ensureLayer l st) = heap st.
Proof. unfold ensureLayer. by destruct (layerSlot (layers st) l). Qed.

Lemma foldl_modify_frame (f : Entry → ThreeObj → ThreeObj) (l : list Entry)
    (st : IsoCard) :
  let st' := foldl (λ st e, modify (e_threeObj e) (f e) st) st l in
  layers st' = layers st ∧ objects st' = objects st.
Proof.
  revert st. induction l as [|x l IH]; intros st; simpl; [done|].
  destruct (IH (modify (e_threeObj x) (f x) st)) as [-> ->].
  by rewrite layers_modify, objects_modify.
Qed.

Lemma layers_forEachObject f st :
  layers (forEachObject f st) = layers st.
Proof. apply foldl_modify_frame. Qed.

Lemma objects_forEachObject f st :
  objects (forEachObject f st) = objects st.
Proof. apply foldl_modify_frame. Qed.

(** What [updateLayerOpacity] does to the handle of an entry. *)
Lemma updateLayerOpacity_entry (layerId : string) (opacity : Q) (st : IsoCard)
    (e : Entry) (o : ThreeObj) :
  handlesDistinct st → e ∈ objects st → heap st !! e_threeObj e = Some o →
  heap (updateLayerOpacity layerId opacity st) !! e_threeObj e =
    Some (if String.eqb (layerOf (e_config e)) layerId && isMesh o
          then set_o_material
                 (relayerMaterial (e_config e) opacity <$> o_material o) o
          else o).
Proof.
  intros Hnd He Ho. unfold updateLayerOpacity, forEachObject. simpl.
  rewrite objects_ensureLayer.
  rewrite (forEachObject_entry
             (λ e o, if String.eqb (layerOf (e_config e)) layerId && isMesh o
                     then set_o_material
                            (relayerMaterial (e_config e) opacity <$> o_material o) o
                     else o)) by done.
  simpl. by rewrite heap_ensureLayer, Ho.
Qed.

Lemma relayerMaterial_spec (config : Config) (opacity : Q) (m : Material) :
  (opacity <= 1)%Q →
  let m' := relayerMaterial config opacity m in
  (mat_opacity m' == baseMaterialOpacity config * opacity)%Q
  ∧ ((opacity < 1)%Q → mat_transparent m' = true)
  ∧ ((opacity == 1)%Q → (baseMaterialOpacity config == 1)%Q →
     (mat_opacity m' == 1)%Q ∧ mat_transparent m' = false)
  ∧ mat_type m' = mat_type m ∧ mat_color m' = mat_color m.
Proof.
  intros Hle. unfold relayerMaterial.
  destruct (Qltb opacity 1) eqn:Hlt; simpl.
  - apply Qgtb_true in Hlt.
    split; [reflexivity|]. split; [done|]. split; [|done].
    intros Heq. rewrite Heq in Hlt. by apply Qlt_irrefl in Hlt.
  - apply Qgtb_false in Hlt.
    assert (Heq : (opacity == 1)%Q) by (by apply Qle_antisym).
    destruct (Qeq_bool (baseMaterialOpacity config) 1) eqn:Hb; simpl.
    + apply Qeq_bool_iff in Hb.
      split; [by rewrite Heq, Qmult_1_r|].
      split; [intros Hc; rewrite Heq in Hc; by apply Qlt_irrefl in Hc|].
      done.
    + split; [by rewrite Heq, Qmult_1_r|].
      split; [intros Hc; rewrite Heq in Hc; by apply Qlt_irrefl in Hc|].
      split; [|done]. intros _ Hb'. apply Qeq_bool_iff in Hb'. congruence.
Qed.

(** The layer table after [updateLayerOpacity]: the record of the layer,
    created at need, holds the opacity; under the name of an inherited
    member the table stays as it was. *)
Lemma layers_updateLayerOpacity (layerId : string) (opacity : Q) (st : IsoCard) :
  layers (updateLayerOpacity layerId opacity st) =
    match layerSlot (layers st) layerId with
    | OwnLayer l => <[layerId := mkLayer (l_visible l) opacity]> (layers st)
    | NoLayer => <[layerId := mkLayer true opacity]> (layers st)
    | InheritedMember => layers st
    end.
Proof.
  unfold updateLayerOpacity. rewrite layers_forEachObject. simpl.
  unfold ensureLayer.
  destruct (layerSlot (layers st) layerId) as [l| |] eqn:Hl; simpl.
  - apply layerSlot_own in Hl. apply map_eq. intros k.
    destruct (decide (k = layerId)) as [->|Hne].
    + by rewrite lookup_alter_eq, lookup_insert_eq, Hl.
    + by rewrite lookup_alter_ne, lookup_insert_ne.
  - apply layerSlot_inherited in Hl as [Hl _]. apply map_eq. intros k.
    destruct (decide (k = layerId)) as [->|Hne].
    + by rewrite lookup_alter_eq, Hl.
    + by rewrite lookup_alter_ne.
  - apply map_eq. intros k.
    destruct (decide (k = layerId)) as [->|Hne].
    + by rewrite lookup_alter_eq, !lookup_insert_eq.
    + by rewrite lookup_alter_ne, !lookup_insert_ne.
Qed.

Lemma layers_updateLayerOpacity_lookup (layerId : string) (opacity : Q)
    (st : IsoCard) :
  layerSlot (layers st) layerId ≠ InheritedMember →
  l_opacity <$> (layers (updateLayerOpacity layerId opacity st) !! layerId)
  = Some opacity.
Proof.
  intros Hl. rewrite layers_updateLayerOpacity.
  destruct (layerSlot (layers st) layerId); [| done |];
    by rewrite lookup_insert_eq.
Qed.

Lemma baseMaterialOpacity_declared (config : Config) :
  truthyQ (declaredOpacity config) = true →
  baseMaterialOpacity config = declaredOpacity config.
Proof.
  unfold baseMaterialOpacity, declaredOpacity, orQ.
  destruct (c_material config ≫= m_opacity) as [v|]; simpl; [|done].
  by intros ->.
Qed.

(** The rule of [updateLayerOpacity] where it holds.  For an opacity of at
    most 1 and a registry whose entries hold distinct handles, the call
    stores the opacity in the layer's record (there is none under the name
    of an inherited member) and gives every mesh of the layer whose
    descriptor declares no material opacity, or a non-zero one, a material
    opacity equal to that declared opacity (1 when there is none) times the
    layer opacity, whatever the material's opacity was before; below 1 the
    material is marked transparent, and at 1 with a declared opacity of 1
    the material has opacity 1 and is not transparent.  Handles on other
    layers are untouched. *)
Lemma layer_opacity_from_base (layerId : string) (opacity : Q)
    (st : IsoCard) :
  (opacity <= 1)%Q →
  handlesDistinct st →
  let st' := updateLayerOpacity layerId opacity st in
  (layerSlot (layers st) layerId ≠ InheritedMember →
   l_opacity <$> (layers st' !! layerId) = Some opacity)
  ∧ objects st' = objects st
  ∧ (∀ e o m, e ∈ objects st → layerOf (e_config e) = layerId →
       heap st !! e_threeObj e = Some o → isMesh o = true →
       o_material o = Some m →
       truthyQ (declaredOpacity (e_config e)) = true →
       ∃ o' m', heap st' !! e_threeObj e = Some o'
              ∧ o_material o' = Some m'
              ∧ (mat_opacity m' == declaredOpacity (e_config e) * opacity)%Q
              ∧ ((opacity < 1)%Q → mat_transparent m' = true)
              ∧ ((opacity == 1)%Q → (declaredOpacity (e_config e) == 1)%Q →
                 (mat_opacity m' == 1)%Q ∧ mat_transparent m' = false))
  ∧ (∀ e o, e ∈ objects st → layerOf (e_config e) ≠ layerId →
       heap st !! e_threeObj e = Some o →
       heap st' !! e_threeObj e = Some o).
Proof.
  intros Hle Hnd st'.
  split; [apply layers_updateLayerOpacity_lookup|].
  split.
  { subst st'. unfold updateLayerOpacity. rewrite objects_forEachObject.
    simpl. apply objects_ensureLayer. }
  split.
  - intros e o m He Hl Ho Hmesh Hm Hdecl.
    subst st'. rewrite (updateLayerOpacity_entry _ _ _ e o) by done.
    rewrite Hl, String.eqb_refl, Hmesh. simpl.
    eexists _, _. split; [reflexivity|]. simpl. rewrite Hm. simpl.
    split; [reflexivity|].
    destruct (relayerMaterial_spec (e_config e) opacity m Hle) as (? & ? & ? & _).
    by rewrite <- (baseMaterialOpacity_declared _ Hdecl).
  - intros e o He Hl Ho.
    subst st'. rewrite (updateLayerOpacity_entry _ _ _ e o) by done.
    apply String.eqb_neq in Hl. by rewrite Hl.
Qed.

(** C8.  The material opacity is not recomputed from the base opacity of
    a material configured with opacity 0.  The loop reads the base as
    [config.material?.opacity || 1], which takes 0 for missing: the fully
    transparent mesh "ghost" is given opacity 0.5 when its layer is set to
    0.5, not 0 times 0.5, and opacity 1, not transparent, when the layer is
    set back to 1. *)
Theorem layer_opacity_of_ghost :
  let material st := heap st !! 0%nat ≫= o_material in
  let config := e_config <$> (objects ghostMesh !! 0%nat) in
  let half := updateLayerOpacity "main" (1 # 2) ghostMesh in
  let back := updateLayerOpacity "main" 1 half in
  (declaredOpacity <$> config) = Some 0%Q
  ∧ (mat_opacity <$> material ghostMesh) = Some 0%Q
  ∧ (mat_opacity <$> material half) = Some ((1 # 2)%Q)
  ∧ ¬ ((1 # 2) == 0 * (1 # 2))%Q
  ∧ (mat_opacity <$> material back) = Some 1%Q
  ∧ (mat_transparent <$> material back) = Some false.
Proof. vm_compute. repeat split; try reflexivity. discriminate. Qed.

(** Repeated calls do not compound: after two calls the material opacity
    is the base opacity times the second layer opacity. *)
Lemma layer_opacity_twice (layerId : string) (opacity1 opacity2 : Q)
    (st : IsoCard) (e : Entry) (o : ThreeObj) (m : Material) :
  (opacity2 <= 1)%Q →
  handlesDistinct st →
  e ∈ objects st → layerOf (e_config e) = layerId →
  heap st !! e_threeObj e = Some o → isMesh o = true → o_material o = Some m →
  ∃ o'' m'',
    heap (updateLayerOpacity layerId opacity2
            (updateLayerOpacity layerId opacity1 st)) !! e_threeObj e = Some o''
    ∧ o_material o'' = Some m''
    ∧ (mat_opacity m'' == baseMaterialOpacity (e_config e) * opacity2)%Q.
Proof.
  intros Hle Hnd He Hl Ho Hmesh Hm.
  set (st1 := updateLayerOpacity layerId opacity1 st).
  assert (Hobj : objects st1 = objects st).
  { subst st1. unfold updateLayerOpacity. rewrite objects_forEachObject.
    simpl. apply objects_ensureLayer. }
  assert (Ho1 := updateLayerOpacity_entry layerId opacity1 st e o Hnd He Ho).
  fold st1 in Ho1. rewrite Hl, String.eqb_refl, Hmesh, Hm in Ho1. simpl in Ho1.
  rewrite (updateLayerOpacity_entry _ _ st1 e _ ltac:(by unfold handlesDistinct; rewrite Hobj)
             ltac:(by rewrite Hobj) Ho1).
  rewrite Hl, String.eqb_refl.
  change (isMesh (set_o_material ?x o)) with (isMesh o). rewrite Hmesh. simpl.
  eexists _, _. split; [reflexivity|]. simpl. split; [reflexivity|].
  by destruct (relayerMaterial_spec (e_config e) opacity2
                 (relayerMaterial (e_config e) opacity1 m) Hle) as (? & _).
Qed.

(** Scenario C: the layer "fx" set to 0.5 and back to 1.0, on a mesh of
    base opacity 1.0. *)
Lemma layer_opacity_scenario :
  let half := updateLayerOpacity "fx" (1 # 2) fxMesh in
  let back := updateLayerOpacity "fx" 1 half in
  let material st := heap st !! 0%nat ≫= o_material in
  (mat_opacity <$> material half) = Some (1 # 2)
  ∧ (mat_transparent <$> material half) = Some true
  ∧ (mat_opacity <$> material back) = Some 1%Q
  ∧ (mat_transparent <$> material back) = Some false.
Proof. vm_compute. done. Qed.

(** ** The attractor centre *)

Lemma gravityCenter_setGravityConfig g st :
  gravityCenter (setGravityConfig g st) = gravityCenter st.
Proof. unfold setGravityConfig. by repeat case_match. Qed.

Lemma gravityCenter_register id config obj st :
  gravityCenter (register id config obj st) = gravityCenter st.
Proof. unfold register, alloc. by repeat case_match. Qed.

(** No [addObject] writes [gravityCenter]: the attractor goes to
    [this.attractors], which the frame callback does not read. *)
Lemma addObject_keeps_gravityCenter (config : Config) (st : IsoCard) :
  gravityCenter (addObject config st).1 = gravityCenter st.
Proof.
  unfold addObject.
  repeat case_match; cbn;
    rewrite ?gravityCenter_register, ?gravityCenter_setGravityConfig; done.
Qed.

(** C9.  With radial gravity of strength 500, a static sphere "planet"
    added at (3,0,0) with [physics.gravityStrength] 500 is recorded in
    [attractors], but [gravityCenter] stays (0,0,0); on the next frame the
    dynamic ball at (3,4,0), a sphere of radius 1 and so of mass
    1000 * 4/3 * pi whatever [physics.mass] says, is pulled with
    (-12,-16,0) times its mass, toward the origin at distance 5, and not
    with (0,-125/4,0) times its mass, toward the planet at distance 4. *)
Theorem attractor_position_not_used :
  let mass := (defaultDensity * shapeVolume (SphereShape (Some 1)))%Q in
  gravityType planetAndBall = "radial"
  ∧ attractors planetAndBall = [mkAttractor (mkVec3 3 0 0) 500]
  ∧ gravityCenter planetAndBall = vec0
  ∧ dynamicObjects planetAndBall = [1%nat]
  ∧ ∃ body,
      world (animate (H := stillEngine) (1 # 60) planetAndBall) !! 0%nat
        = Some body
      ∧ veq (b_position body) (mkVec3 3 4 0)
      ∧ veq (b_force body) (Mul (mkVec3 (-12) (-16) 0) mass)
      ∧ ¬ veq (b_force body) (Mul (mkVec3 0 (-(125 # 4)) 0) mass).
Proof.
  intros mass.
  split; [vm_compute; reflexivity|].
  split; [vm_compute; reflexivity|].
  split; [vm_compute; reflexivity|].
  split; [vm_compute; reflexivity|].
  eexists. split; [vm_compute; reflexivity|].
  vm_compute. repeat split; try reflexivity.
  intros (Hx & _). discriminate Hx.
Qed.

(** ** Layers created on demand *)

Lemma layers_setGravityConfig g st :
  layers (setGravityConfig g st) = layers st.
Proof. unfold setGravityConfig. by repeat case_match. Qed.

Lemma layers_register id config obj st :
  layers (register id config obj st) = layers st.
Proof. unfold register, alloc. by repeat (case_match; simpl). Qed.

Lemma layerOf_withDefaults (config : Config) :
  layerOf (withDefaults config) = layerOf config.
Proof.
  unfold layerOf, withDefaults; simpl. unfold orS.
  destruct (c_layer config) as [[|c s]|]; reflexivity.
Qed.

(** The only layer [addObject] can create is the one the descriptor names,
    and only when [this.layers] has nothing under the name; it then has
    opacity 0.5. *)
Lemma addObject_layers (config : Config) (st : IsoCard) :
  layers (addObject config st).1 =
    match layerSlot (layers st) (layerOf config) with
    | NoLayer => <[layerOf config := mkLayer true (1 # 2)]> (layers st)
    | OwnLayer _ | InheritedMember => layers st
    end.
Proof.
  unfold addObject. rewrite layerOf_withDefaults.
  destruct (layerSlot (layers st) (layerOf config)) eqn:Hl;
    repeat case_match; cbn;
    rewrite ?layers_register, ?layers_setGravityConfig; done.
Qed.

Lemma buildMesh_Some (config : Config) (l : Layer) (g : Geometry)
    (m : Material) :
  createGeometry (default emptyShape (c_shape config)) = Some g →
  meshMaterial config = Some m →
  ∃ mesh, buildMesh config (OwnLayer l) = Some mesh
        ∧ isMesh mesh = true
        ∧ o_geometry mesh = Some g
        ∧ o_material mesh = Some (applyLayerOpacity (l_opacity l) m).
Proof.
  intros Hg Hm. unfold buildMesh. rewrite Hg, Hm. simpl.
  eexists. split; [reflexivity|].
  unfold applyOpt, applyRotation.
  repeat case_match; simpl; done.
Qed.

Lemma heap_register (id : Id) (config : Config) (obj : ThreeObj) (st : IsoCard) :
  heap (register id config obj st) = heap st ++ [stamp config obj]
  ∧ objects (register id config obj st)
    = objects st ++ [mkEntry id (length (heap st)) (withName config id)]
  ∧ Node (length (heap st)) ∈ scene (register id config obj st).
Proof.
  unfold register, alloc. case_match; simpl.
  all: repeat split; try reflexivity.
  all: apply elem_of_app; right; by apply list_elem_of_singleton.
Qed.

Lemma layers_updateLayer obj config updates st l :
  c_layer updates = Some l →
  layerSlot (layers st) l = NoLayer →
  layers (updateLayer obj config updates st) !! l = Some (mkLayer true (1 # 2)).
Proof.
  intros Hu Hl. unfold updateLayer. rewrite Hu.
  rewrite !layers_modify, Hl. cbn.
  apply lookup_insert_eq.
Qed.

Lemma layers_updateLayer_found obj config updates st l :
  c_layer updates = Some l →
  layerSlot (layers st) l ≠ NoLayer →
  layers (updateLayer obj config updates st) = layers st.
Proof.
  intros Hu Hl. unfold updateLayer. rewrite Hu.
  rewrite !layers_modify.
  destruct (layerSlot (layers st) l); try done; by rewrite ?layers_modify.
Qed.

Lemma layers_updateTransform obj config updates st :
  layers (updateTransform obj config updates st) = layers st.
Proof.
  unfold updateTransform. repeat case_match; by rewrite ?layers_modify.
Qed.

Lemma layers_updateTail obj config updates st :
  layers
    (stateOf
       (andThen (updateEnabled obj config updates st) (λ st,
        let st := updateGeometry obj config updates st in
        andThen (updateMaterial obj config updates st) (λ st,
        Returned (updateLight obj config updates st)))))
  = layers st.
Proof.
  unfold updateEnabled, updateGeometry, updateMaterial, updateLight, andThen.
  repeat (case_match; simpl; simplify_eq); rewrite ?layers_modify; done.
Qed.

Lemma addObjectsToLayer_layers (configs : list Config) (layerId : string)
    (st : IsoCard) (ids : list Id) (x : Layer) :
  layers st !! layerId = Some x →
  layers
    (foldl
       (λ '(st, ids) config,
          let modifiedConfig := set_c_layer (Some layerId) config in
          let '(st, _) := addObject modifiedConfig st in
          (st, ids ++ [IdNum 23098409234]))
       (st, ids) configs).1 !! layerId = Some x.
Proof.
  revert st ids. induction configs as [|c cs IH]; intros st ids Hl; simpl.
  { done. }
  destruct (addObject (set_c_layer (Some layerId) c) st) as [st' r] eqn:Ha.
  apply IH.
  assert (Hst : st' = (addObject (set_c_layer (Some layerId) c) st).1)
    by (by rewrite Ha).
  rewrite Hst, addObject_layers.
  destruct (layerSlot (layers st) (layerOf _)) eqn:Hl'; [done|done|].
  apply layerSlot_none in Hl' as [Hl' _].
  rewrite lookup_insert_ne; [done|]. intros Heq. congruence.
Qed.

(** Layers created on demand.  Where [this.layers] has nothing under the
    name, a layer is created by [addObject], and by an [updateObject] that
    moves an object to it, as visible with opacity 0.5; the mesh whose
    [addObject] created the layer has its material marked transparent and
    its opacity multiplied by 0.5.  [addObjectsToLayer] creates such a
    layer with opacity 1. *)
Lemma missing_layer_defaults (st : IsoCard) :
  (∀ config,
     layerSlot (layers st) (layerOf config) = NoLayer →
     let st' := (addObject config st).1 in
     layers st' !! layerOf config = Some (mkLayer true (1 # 2))
     ∧ (∀ g m,
          typeCase config = TMesh →
          createGeometry (default emptyShape (c_shape config)) = Some g →
          meshMaterial config = Some m →
          ∃ mesh m',
            heap st' !! length (heap st) = Some mesh
            ∧ (e_threeObj <$> last (objects st')) = Some (length (heap st))
            ∧ Node (length (heap st)) ∈ scene st'
            ∧ isMesh mesh = true
            ∧ o_material mesh = Some m'
            ∧ mat_transparent m' = true
            ∧ mat_opacity m' = (mat_opacity m * (1 # 2))%Q))
  ∧ (∀ id updates l item,
       c_layer updates = Some l → layerSlot (layers st) l = NoLayer →
       find id (objects st) = Some item →
       layers (stateOf (updateObject id updates st)) !! l
         = Some (mkLayer true (1 # 2)))
  ∧ (∀ layerId configs,
       layerSlot (layers st) layerId = NoLayer →
       layers (addObjectsToLayer layerId configs st).1 !! layerId
         = Some (mkLayer true 1)).
Proof.
  split; [|split].
  - intros config Hl st'. split.
    { subst st'. rewrite addObject_layers, Hl. apply lookup_insert_eq. }
    intros g m Ht Hg Hm.
    subst st'. unfold addObject.
    rewrite layerOf_withDefaults, Hl.
    change (typeCase (withDefaults config)) with (typeCase config). rewrite Ht.
    simpl layers. rewrite layerSlot_insert.
    destruct (buildMesh_Some (withDefaults config) (mkLayer true (1 # 2)) g m)
      as (mesh & Hb & Hmesh & _ & Hmat); [done|done|].
    rewrite Hb.
    cbn [fst].
    match goal with
    | |- context [register ?i ?c ?o ?s] =>
        set (s1 := s); destruct (heap_register i c o s1) as (Hh & Ho & Hs)
    end.
    assert (Hlen : heap s1 = heap st) by (subst s1; by case_match).
    rewrite Hh, Ho. rewrite Hlen in *.
    exists (stamp (withDefaults config) mesh), (applyLayerOpacity (1 # 2) m).
    split. { rewrite lookup_app_r by lia. by rewrite Nat.sub_diag. }
    split. { by rewrite last_snoc. }
    split; [done|].
    split; [done|]. split; [exact Hmat|].
    done.
  - intros id updates l item Hu Hl Hf.
    unfold updateObject. unfold find in Hf.
    destruct (findIndex id (objects st)) as [index|]; [|done]. simpl in Hf.
    rewrite Hf. cbv zeta. rewrite layers_updateTail.
    apply layers_updateLayer; [done|].
    by rewrite layers_updateTransform.
  - intros layerId configs Hl. unfold addObjectsToLayer. rewrite Hl.
    apply addObjectsToLayer_layers. simpl. apply lookup_insert_eq.
Qed.

(** C10.  The rule fails in the code for a layer named like a member every
    JavaScript object inherits.  No layer "constructor" exists on a new
    instance, yet [this.layers["constructor"]] finds the inherited member:
    an [addObject] that names the layer creates no record, and its mesh
    keeps material opacity 1 and is not marked transparent, where the
    claim has a layer of opacity 0.5 and the opacity halved.  Likewise an
    [updateObject] that moves the box "a" to the layer "toString" and an
    [addObjectsToLayer] on "valueOf" create no layer.  The same calls with
    the name "fx" create the layer. *)
Theorem inherited_layer_name_not_created :
  let mesh := meshConfig (Some "m") boxShape vec0 in
  let added l := (addObject (set_c_layer (Some l) mesh) newIsoCard).1 in
  let moved l :=
    stateOf (updateObject (IdStr "a") (set_c_layer (Some l) emptyConfig)
               oneBox) in
  let batch l := (addObjectsToLayer l [mesh] newIsoCard).1 in
  let material st := heap st !! 0%nat ≫= o_material in
  let layerOn st := heap st !! 0%nat ≫= (ud_layer ∘ o_userData) in
  layers newIsoCard !! "constructor" = None
  ∧ layers (added "constructor") !! "constructor" = None
  ∧ layerOn (added "constructor") = Some "constructor"
  ∧ (mat_opacity <$> material (added "constructor")) = Some 1%Q
  ∧ (mat_transparent <$> material (added "constructor")) = Some false
  ∧ layers (moved "toString") !! "toString" = None
  ∧ layerOn (moved "toString") = Some "toString"
  ∧ layers (batch "valueOf") !! "valueOf" = None
  ∧ layerOn (batch "valueOf") = Some "valueOf"
  ∧ layers (added "fx") !! "fx" = Some (mkLayer true (1 # 2))
  ∧ (mat_opacity <$> material (added "fx")) = Some ((1 # 2)%Q)
  ∧ (mat_transparent <$> material (added "fx")) = Some true
  ∧ layers (moved "fx") !! "fx" = Some (mkLayer true (1 # 2))
  ∧ layers (batch "fx") !! "fx" = Some (mkLayer true 1).
Proof. vm_compute. repeat split; reflexivity. Qed.

(** ** Well-formedness of reachable states *)

Lemma skeleton_modify_keep (r : nat) (f : ThreeObj → ThreeObj) (st : IsoCard) :
  (∀ o, bodyOf (f o) = bodyOf o) →
  skeleton (modify r f st) = skeleton st.
Proof.
  intros Hf. unfold modify. destruct (heap st !! r) as [o|] eqn:Ho; [|done].
  unfold skeleton; simpl. f_equal.
  rewrite list_fmap_insert, Hf. apply list_insert_id.
  by rewrite list_lookup_fmap, Ho.
Qed.

Lemma skeleton_modifyBody (b : nat) (f : Body → Body) (st : IsoCard) :
  skeleton (modifyBody b f st) = skeleton st.
Proof.
  unfold modifyBody. destruct (world st !! b); [|done].
  unfold skeleton; simpl. by rewrite length_insert.
Qed.

Lemma skeleton_foldl {A} (f : IsoCard → A → IsoCard) (l : list A)
    (st : IsoCard) :
  (∀ s x, skeleton (f s x) = skeleton s) →
  skeleton (foldl f st l) = skeleton st.
Proof.
  intros Hf. revert st. induction l as [|x l IH]; intros st; simpl; [done|].
  by rewrite IH, Hf.
Qed.

Lemma skeleton_setEntry (i : nat) (e e' : Entry) (st : IsoCard) :
  objects st !! i = Some e → e_threeObj e' = e_threeObj e →
  skeleton (setEntry i e' st) = skeleton st.
Proof.
  intros He Hr. unfold setEntry, skeleton; simpl. f_equal.
  rewrite list_fmap_insert, Hr. apply list_insert_id.
  by rewrite list_lookup_fmap, He.
Qed.

(** The handle mutations that leave [userData.body] alone. *)
Ltac keeps_body :=
  intros;
  unfold applyOpt, applyRotation, restoreHandle, dispose, stamp, bodyOf;
  repeat case_match; reflexivity.

Lemma skeleton_set_layers v st : skeleton (set_layers v st) = skeleton st.
Proof. reflexivity. Qed.
Lemma skeleton_set_scene v st : skeleton (set_scene v st) = skeleton st.
Proof. reflexivity. Qed.
Lemma skeleton_set_savedTransforms v st : skeleton (set_savedTransforms v st) = skeleton st.
Proof. reflexivity. Qed.
Lemma skeleton_set_time v st : skeleton (set_time v st) = skeleton st.
Proof. reflexivity. Qed.
Lemma skeleton_set_stepLog v st : skeleton (set_stepLog v st) = skeleton st.
Proof. reflexivity. Qed.
Lemma skeleton_set_attractors v st : skeleton (set_attractors v st) = skeleton st.
Proof. reflexivity. Qed.
Lemma skeleton_set_sceneConfig_gravity v st : skeleton (set_sceneConfig_gravity v st) = skeleton st.
Proof. reflexivity. Qed.
Lemma skeleton_set_gravityType v st : skeleton (set_gravityType v st) = skeleton st.
Proof. reflexivity. Qed.
Lemma skeleton_set_gravityStrength v st : skeleton (set_gravityStrength v st) = skeleton st.
Proof. reflexivity. Qed.
Lemma skeleton_set_nativeGravity v st : skeleton (set_nativeGravity v st) = skeleton st.
Proof. reflexivity. Qed.
Lemma skeleton_set_isPhysicsRunning v st : skeleton (set_isPhysicsRunning v st) = skeleton st.
Proof. reflexivity. Qed.
Lemma skeleton_set_lastActionTime v st : skeleton (set_lastActionTime v st) = skeleton st.
Proof. reflexivity. Qed.

Lemma skeleton_dropBodies st : skeleton (dropBodies st) = skeleton st.
Proof. unfold dropBodies, skeleton; simpl. by rewrite length_fmap. Qed.

(** Rewrites away every state change that leaves the skeleton alone. *)
Ltac skel :=
  repeat first
    [ rewrite skeleton_set_layers | rewrite skeleton_set_scene
    | rewrite skeleton_set_savedTransforms | rewrite skeleton_set_time
    | rewrite skeleton_set_stepLog | rewrite skeleton_set_attractors
    | rewrite skeleton_set_sceneConfig_gravity | rewrite skeleton_set_gravityType
    | rewrite skeleton_set_gravityStrength | rewrite skeleton_set_nativeGravity
    | rewrite skeleton_set_isPhysicsRunning | rewrite skeleton_set_lastActionTime
    | rewrite skeleton_modifyBody | rewrite skeleton_dropBodies
    | rewrite skeleton_modify_keep by keeps_body ].

Lemma skeleton_ensureLayer l st : skeleton (ensureLayer l st) = skeleton st.
Proof. unfold ensureLayer. case_match; by skel. Qed.

Lemma skeleton_forEachObject (f : Entry → ThreeObj → ThreeObj) (st : IsoCard) :
  (∀ e o, bodyOf (f e o) = bodyOf o) →
  skeleton (forEachObject f st) = skeleton st.
Proof.
  intros Hf. apply skeleton_foldl. intros s e.
  by apply skeleton_modify_keep.
Qed.

Lemma skeleton_setLayerVisibility l v st :
  skeleton (setLayerVisibility l v st) = skeleton st.
Proof.
  unfold setLayerVisibility.
  rewrite skeleton_forEachObject by keeps_body.
  skel. apply skeleton_ensureLayer.
Qed.

Lemma skeleton_updateLayerOpacity l op st :
  skeleton (updateLayerOpacity l op st) = skeleton st.
Proof.
  unfold updateLayerOpacity.
  rewrite skeleton_forEachObject by keeps_body.
  skel. apply skeleton_ensureLayer.
Qed.

Lemma skeleton_setGravityConfig g st :
  skeleton (setGravityConfig g st) = skeleton st.
Proof. unfold setGravityConfig. repeat case_match; by skel. Qed.

Lemma skeleton_updateTransform obj config updates st :
  skeleton (updateTransform obj config updates st) = skeleton st.
Proof.
  unfold updateTransform. repeat case_match; by skel.
Qed.

Lemma skeleton_updateLayer obj config updates st :
  skeleton (updateLayer obj config updates st) = skeleton st.
Proof.
  unfold updateLayer. case_match; [|done].
  skel. case_match; by skel.
Qed.

Lemma skeleton_updateEnabled obj config updates st :
  skeleton (stateOf (updateEnabled obj config updates st)) = skeleton st.
Proof.
  unfold updateEnabled. repeat case_match; simpl; by skel.
Qed.

Lemma skeleton_updateGeometry obj config updates st :
  skeleton (updateGeometry obj config updates st) = skeleton st.
Proof.
  unfold updateGeometry. repeat case_match; by skel.
Qed.

Lemma skeleton_updateMaterial obj config updates st :
  skeleton (stateOf (updateMaterial obj config updates st)) = skeleton st.
Proof.
  unfold updateMaterial. repeat case_match; simpl; by skel.
Qed.

Lemma skeleton_updateLight obj config updates st :
  skeleton (updateLight obj config updates st) = skeleton st.
Proof.
  unfold updateLight. repeat case_match; by skel.
Qed.

Lemma skeleton_andThen (o : Outcome) (f : IsoCard → Outcome) (k : Skeleton) :
  skeleton (stateOf o) = k →
  (∀ st, skeleton st = k → skeleton (stateOf (f st)) = k) →
  skeleton (stateOf (andThen o f)) = k.
Proof. intros Ho Hf. destruct o; simpl in *; [by apply Hf|done]. Qed.

Lemma skeleton_updateObject id updates st :
  skeleton (stateOf (updateObject id updates st)) = skeleton st.
Proof.
  unfold updateObject.
  destruct (findIndex id (objects st)) as [index|]; [|done].
  destruct (objects st !! index) as [item|] eqn:Hitem; [|done].
  cbv zeta.
  apply skeleton_andThen.
  { rewrite skeleton_updateEnabled, skeleton_updateLayer,
      skeleton_updateTransform.
    by apply (skeleton_setEntry _ item). }
  intros st1 H1. apply skeleton_andThen.
  { by rewrite skeleton_updateMaterial, skeleton_updateGeometry. }
  intros st2 H2. simpl. by rewrite skeleton_updateLight.
Qed.

Lemma skeleton_setActionsPerSecond aps st :
  skeleton (setActionsPerSecond aps st) = skeleton st.
Proof. reflexivity. Qed.

Lemma skeleton_startPhysics st : skeleton (startPhysics st).1 = skeleton st.
Proof.
  unfold startPhysics, saveObjectTransforms. case_match; simpl; by skel.
Qed.

Lemma skeleton_restoreOne st entry : skeleton (restoreOne st entry) = skeleton st.
Proof.
  unfold restoreOne. destruct entry as [id transforms].
  repeat case_match; by skel.
Qed.

Lemma skeleton_stopPhysics st : skeleton (stopPhysics st).1 = skeleton st.
Proof.
  unfold stopPhysics, restoreObjectTransforms. case_match; simpl; [done|].
  rewrite skeleton_foldl by apply skeleton_restoreOne. by skel.
Qed.

Lemma skeleton_togglePhysics st : skeleton (togglePhysics st).1 = skeleton st.
Proof.
  unfold togglePhysics.
  case_match; [apply skeleton_stopPhysics|apply skeleton_startPhysics].
Qed.

Section CallsKeep.
Context `{IsoDeps}.

Lemma skeleton_Step dt n st : skeleton (Step dt n st) = skeleton st.
Proof.
  unfold Step. skel. unfold skeleton; simpl. f_equal.
  unfold stepInPlace. apply length_imap.
Qed.

Lemma skeleton_attract st r : skeleton (attract st r) = skeleton st.
Proof. unfold attract. repeat case_match; by skel. Qed.

Lemma skeleton_pullTransform st r : skeleton (pullTransform st r) = skeleton st.
Proof. unfold pullTransform. repeat case_match; by skel. Qed.

Lemma skeleton_updatePhysics dt st : skeleton (updatePhysics dt st) = skeleton st.
Proof. apply skeleton_Step. Qed.

Lemma skeleton_animate elapsed st : skeleton (animate elapsed st) = skeleton st.
Proof.
  unfold animate, applyRadialGravity. case_match; [|done].
  skel.
  transitivity
    (skeleton
       (foldl pullTransform
          (Step (clampDelta elapsed) (numStepsFor (clampDelta elapsed))
             (if String.eqb (gravityType st) "radial"
              then foldl attract st (dynamicObjects st) else st))
          (dynamicObjects
             (Step (clampDelta elapsed) (numStepsFor (clampDelta elapsed))
                (if String.eqb (gravityType st) "radial"
                 then foldl attract st (dynamicObjects st) else st))))).
  { repeat case_match; by skel. }
  rewrite skeleton_foldl by apply skeleton_pullTransform.
  rewrite skeleton_Step. case_match; [|done].
  apply skeleton_foldl, skeleton_attract.
Qed.

Lemma skeleton_syncTransform (l : list nat) (o : Outcome) :
  skeleton (stateOf (foldl syncTransform o l)) = skeleton (stateOf o).
Proof.
  revert o. induction l as [|r l IH]; intros o; simpl; [done|].
  rewrite IH. unfold syncTransform. destruct o as [st|st]; simpl; [|done].
  repeat case_match; simpl; by rewrite ?skeleton_pullTransform.
Qed.

Lemma skeleton_renderSync elapsed st :
  skeleton (stateOf (renderSync elapsed st)) = skeleton st.
Proof.
  unfold renderSync. apply skeleton_andThen.
  { apply (skeleton_syncTransform _ (Returned st)). }
  intros st1 H1. case_match; simpl; [rewrite skeleton_updatePhysics|]; by skel.
Qed.
End CallsKeep.

(** *** Body indexes *)

Lemma unshared_app_None (bs : list (option nat)) :
  unshared bs → unshared (bs ++ [None]).
Proof.
  intros Hu i j b Hi Hj.
  apply lookup_app_Some in Hi as [Hi|[_ Hi]];
    [|by apply list_lookup_singleton_Some in Hi as [_ ?]].
  apply lookup_app_Some in Hj as [Hj|[_ Hj]];
    [|by apply list_lookup_singleton_Some in Hj as [_ ?]].
  by eapply Hu.
Qed.

Lemma inTable_app_None (bs : list (option nat)) (w : nat) :
  inTable bs w → inTable (bs ++ [None]) w.
Proof.
  intros Hb i b Hi.
  apply lookup_app_Some in Hi as [Hi|[_ Hi]];
    [by eapply Hb|by apply list_lookup_singleton_Some in Hi as [_ ?]].
Qed.

Lemma unshared_app_fresh (bs : list (option nat)) (w : nat) :
  unshared bs → inTable bs w → unshared (bs ++ [Some w]).
Proof.
  intros Hu Hb i j b Hi Hj.
  apply lookup_app_Some in Hi as [Hi|[Hil Hi]];
    apply lookup_app_Some in Hj as [Hj|[Hjl Hj]].
  - by eapply Hu.
  - apply list_lookup_singleton_Some in Hj as [_ [= <-]].
    apply Hb in Hi. lia.
  - apply list_lookup_singleton_Some in Hi as [_ [= <-]].
    apply Hb in Hj. lia.
  - apply list_lookup_singleton_Some in Hi as [Hi _].
    apply list_lookup_singleton_Some in Hj as [Hj _]. lia.
Qed.

Lemma inTable_app_fresh (bs : list (option nat)) (w : nat) :
  inTable bs w → inTable (bs ++ [Some w]) (S w).
Proof.
  intros Hb i b Hi.
  apply lookup_app_Some in Hi as [Hi|[_ Hi]].
  - apply Hb in Hi. lia.
  - apply list_lookup_singleton_Some in Hi as [_ [= <-]]. lia.
Qed.

Lemma unshared_insert_fresh (bs : list (option nat)) (w r : nat) :
  unshared bs → inTable bs w → unshared (<[r := Some w]> bs).
Proof.
  intros Hu Hb i j b Hi Hj.
  destruct (decide (r = i)) as [Hri|Hri], (decide (r = j)) as [Hrj|Hrj];
    [congruence|subst i|subst j|].
  - rewrite list_lookup_insert_ne in Hj by done.
    apply list_lookup_insert_Some in Hi as [(_ & [= <-] & _)|[? _]]; [|done].
    apply Hb in Hj. lia.
  - rewrite list_lookup_insert_ne in Hi by done.
    apply list_lookup_insert_Some in Hj as [(_ & [= <-] & _)|[? _]]; [|done].
    apply Hb in Hi. lia.
  - rewrite list_lookup_insert_ne in Hi, Hj by done. by eapply Hu.
Qed.

Lemma inTable_insert_fresh (bs : list (option nat)) (w r : nat) :
  inTable bs w → inTable (<[r := Some w]> bs) (S w).
Proof.
  intros Hb i b Hi.
  apply list_lookup_insert_Some in Hi as [(_ & [= <-] & _)|[_ Hi]]; [lia|].
  apply Hb in Hi. lia.
Qed.

Lemma releases_refl bs : releases bs bs.
Proof. by split. Qed.

Lemma releases_trans bs1 bs2 bs3 :
  releases bs1 bs2 → releases bs2 bs3 → releases bs1 bs3.
Proof. intros [Hl1 H1] [Hl2 H2]. split; [congruence|]. eauto. Qed.

Lemma releases_insert_None bs r : releases (<[r := None]> bs) bs.
Proof.
  split; [apply length_insert|]. intros i b Hi.
  apply list_lookup_insert_Some in Hi as [(_ & ? & _)|[_ Hi]]; done.
Qed.

Lemma unshared_releases bs' bs : releases bs' bs → unshared bs → unshared bs'.
Proof. intros [_ Hr] Hu i j b Hi Hj. eapply Hu; by apply Hr. Qed.

Lemma inTable_releases bs' bs w : releases bs' bs → inTable bs w → inTable bs' w.
Proof. intros [_ Hr] Hb i b Hi. eapply Hb. by apply Hr. Qed.

Lemma inTable_mono bs w w' : w ≤ w' → inTable bs w → inTable bs w'.
Proof. intros Hw Hb i b Hi. apply Hb in Hi. lia. Qed.

(** *** Operations that allocate, bind or release *)

Lemma skeleton_alloc (o : ThreeObj) (st : IsoCard) :
  skeleton (alloc o st).2 =
  mkSkeleton (sk_bodies (skeleton st) ++ [bodyOf o]) (sk_handles (skeleton st))
    (sk_dynamic (skeleton st)) (sk_world (skeleton st)) (sk_jolt (skeleton st))
    (sk_jInterface (skeleton st)) (sk_physicsSystem (skeleton st))
    (sk_bodyInterface (skeleton st)) (sk_center (skeleton st)).
Proof. unfold alloc, skeleton; simpl. by rewrite fmap_app. Qed.

Lemma skeleton_sceneAdd n st : skeleton (sceneAdd n st) = skeleton st.
Proof. reflexivity. Qed.

Lemma skeleton_sceneRemove n st : skeleton (sceneRemove n st) = skeleton st.
Proof. reflexivity. Qed.

Lemma skeleton_register (id : Id) (config : Config) (obj : ThreeObj)
    (st : IsoCard) :
  skeleton (register id config obj st) =
  mkSkeleton (sk_bodies (skeleton st) ++ [bodyOf obj])
    (sk_handles (skeleton st) ++ [length (sk_bodies (skeleton st))])
    (sk_dynamic (skeleton st)) (sk_world (skeleton st)) (sk_jolt (skeleton st))
    (sk_jInterface (skeleton st)) (sk_physicsSystem (skeleton st))
    (sk_bodyInterface (skeleton st)) (sk_center (skeleton st)).
Proof.
  unfold register, alloc, skeleton. case_match; simpl;
    by rewrite !fmap_app, length_fmap.
Qed.

(** The handles the builders return carry no body. *)
Lemma bodyOf_buildLight config light :
  buildLight config = Some light → bodyOf light = None.
Proof.
  unfold buildLight. destruct (c_lightType config) as [lt|]; [|done].
  cbn [switchOn]. repeat case_match; simpl; try done;
    intros [= <-]; unfold applyOpt; by case_match.
Qed.

Lemma bodyOf_buildHelper config helper :
  buildHelper config = Some helper → bodyOf helper = None.
Proof.
  unfold buildHelper. destruct (c_helperType config) as [ht|]; [|done].
  cbn [switchOn]. repeat case_match; simpl; try done;
    intros [= <-]; unfold applyOpt; by case_match.
Qed.

Lemma bodyOf_buildMesh config layer mesh :
  buildMesh config layer = Some mesh → bodyOf mesh = None.
Proof.
  unfold buildMesh. destruct (createGeometry _); [|done].
  destruct (meshMaterial config); [|done]. simpl.
  intros [= <-]. unfold applyOpt, applyRotation, bodyOf.
  by repeat case_match.
Qed.

Lemma bodyOf_buildGroup config : bodyOf (buildGroup config) = None.
Proof. unfold buildGroup, applyOpt, bodyOf. by repeat case_match. Qed.

Lemma Forall_lt_S (l : list nat) (n : nat) :
  Forall (λ r, r < n) l → Forall (λ r, r < S n) l.
Proof. intros Hl. eapply Forall_impl; [done|]. simpl; lia. Qed.

Lemma Forall_sublist_of {A} (P : A → Prop) (l' l : list A) :
  l' `sublist_of` l → Forall P l → Forall P l'.
Proof.
  rewrite !Forall_forall. intros Hs Hl x Hx. apply Hl.
  by eapply elem_of_sublist.
Qed.

Lemma Forall_body_app (bs : list (option nat)) (b : option nat) (l : list nat) :
  Forall (λ r, ∃ b, bs !! r = Some (Some b)) l →
  Forall (λ r, ∃ b', (bs ++ [b]) !! r = Some (Some b')) l.
Proof.
  intros Hl. eapply Forall_impl; [done|]. intros r [b' Hb]. exists b'.
  by apply lookup_app_l_Some.
Qed.

Lemma Forall_body_insert (bs : list (option nat)) (r w : nat) (l : list nat) :
  r < length bs →
  Forall (λ r, ∃ b, bs !! r = Some (Some b)) l →
  Forall (λ r', ∃ b', <[r := Some w]> bs !! r' = Some (Some b')) l.
Proof.
  intros Hr Hl. eapply Forall_impl; [done|]. intros r' [b' Hb].
  destruct (decide (r = r')) as [<-|Hne].
  - exists w. by apply list_lookup_insert_eq.
  - exists b'. by rewrite list_lookup_insert_ne.
Qed.

(** A new handle without a body joins the registry. *)
Lemma wellFormedSk_push (k : Skeleton) :
  wellFormedSk k →
  wellFormedSk
    (mkSkeleton (sk_bodies k ++ [None]) (sk_handles k ++ [length (sk_bodies k)])
       (sk_dynamic k) (sk_world k) (sk_jolt k) (sk_jInterface k)
       (sk_physicsSystem k) (sk_bodyInterface k) (sk_center k)).
Proof.
  intros [Hdn Hdb Hdy Hdj Hhn Hhb Hu Ht Hbi Hps Hj Hc].
  constructor; simpl; try done.
  - eapply Forall_impl; [exact Hdb|]. intros x Hx; simpl in *.
    rewrite length_app; simpl; lia.
  - by apply Forall_body_app.
  - apply NoDup_app. split; [done|]. split; [|apply NoDup_singleton].
    intros x Hx ->%list_elem_of_singleton.
    rewrite Forall_forall in Hhb. apply Hhb in Hx. lia.
  - apply Forall_app. split.
    + eapply Forall_impl; [exact Hhb|]. intros x Hx; simpl in *.
      rewrite length_app; simpl; lia.
    + apply Forall_singleton. rewrite length_app; simpl; lia.
  - by apply unshared_app_None.
  - by apply inTable_app_None.
Qed.

Lemma wellFormed_register (id : Id) (config : Config) (obj : ThreeObj)
    (st : IsoCard) :
  bodyOf obj = None → wellFormed st → wellFormed (register id config obj st).
Proof.
  intros Hb Hwf. unfold wellFormed. rewrite skeleton_register, Hb.
  by apply wellFormedSk_push.
Qed.

Lemma wellFormed_skeleton (st st' : IsoCard) :
  skeleton st' = skeleton st → wellFormed st → wellFormed st'.
Proof. unfold wellFormed. by intros ->. Qed.

Lemma wellFormed_addObject (config : Config) (st : IsoCard) :
  wellFormed st → wellFormed (addObject config st).1.
Proof.
  intros Hwf. unfold addObject.
  set (st1 := match layerSlot (layers st) _ with
              | NoLayer => _
              | OwnLayer _ | InheritedMember => st
              end).
  assert (Hwf1 : wellFormed st1).
  { subst st1. by case_match. }
  clearbody st1.
  destruct (typeCase _).
  - simpl. case_match; [|done].
    eapply wellFormed_skeleton; [apply skeleton_setGravityConfig|done].
  - destruct (buildLight _) eqn:Hl; simpl; [|done].
    apply wellFormed_register; [by eapply bodyOf_buildLight|done].
  - destruct (buildHelper _) eqn:Hl; simpl; [|done].
    apply wellFormed_register; [by eapply bodyOf_buildHelper|done].
  - destruct (buildMesh _ _) eqn:Hl; simpl; [|done].
    apply wellFormed_register; [by eapply bodyOf_buildMesh|].
    by case_match.
  - simpl. apply wellFormed_register; [apply bodyOf_buildGroup|done].
  - done.
Qed.

(** A loop that threads the state and a result. *)
Lemma foldl_fst_invariant {A B} (P : IsoCard → Prop)
    (f : IsoCard * B → A → IsoCard * B) (l : list A) (s : IsoCard) (b : B) :
  (∀ s b a, P s → P (f (s, b) a).1) →
  P s → P (foldl f (s, b) l).1.
Proof.
  intros Hf. revert s b. induction l as [|a l IH]; intros s b Hs; simpl;
    [done|].
  specialize (Hf s b a Hs). destruct (f (s, b) a) as [s' b']. by apply IH.
Qed.

Lemma wellFormed_addObjectsToLayer (layerId : string) (configs : list Config)
    (st : IsoCard) :
  wellFormed st → wellFormed (addObjectsToLayer layerId configs st).1.
Proof.
  intros Hwf. unfold addObjectsToLayer.
  apply foldl_fst_invariant; [|by case_match].
  intros s b a Hs. simpl.
  pose proof (wellFormed_addObject (set_c_layer (Some layerId) a) s Hs) as Ha.
  by destruct (addObject _ s).
Qed.

(** An entry leaves the registry. *)
Lemma wellFormedSk_handles (k : Skeleton) (handles : list nat) :
  handles `sublist_of` sk_handles k →
  wellFormedSk k →
  wellFormedSk
    (mkSkeleton (sk_bodies k) handles (sk_dynamic k) (sk_world k) (sk_jolt k)
       (sk_jInterface k) (sk_physicsSystem k) (sk_bodyInterface k)
       (sk_center k)).
Proof.
  intros Hs [Hdn Hdb Hdy Hdj Hhn Hhb Hu Ht Hbi Hps Hj Hc].
  constructor; simpl; try done.
  - by eapply sublist_NoDup.
  - by eapply Forall_sublist_of.
Qed.

Lemma wellFormed_removeObject (id : Id) (st : IsoCard) :
  wellFormed st → wellFormed (removeObject id st).
Proof.
  intros Hwf. unfold removeObject.
  destruct (findIndex id (objects st)) as [index|]; [|done].
  destruct (objects st !! index) as [e|]; [|done].
  unfold wellFormed.
  match goal with
  | |- wellFormedSk (skeleton ?s) =>
      replace (skeleton s) with
        (mkSkeleton (sk_bodies (skeleton st))
           (delete index (sk_handles (skeleton st)))
           (sk_dynamic (skeleton st)) (sk_world (skeleton st))
           (sk_jolt (skeleton st)) (sk_jInterface (skeleton st))
           (sk_physicsSystem (skeleton st)) (sk_bodyInterface (skeleton st))
           (sk_center (skeleton st)))
  end.
  - apply wellFormedSk_handles; [apply sublist_delete|done].
  - assert (Hk : skeleton (modify (e_threeObj e) dispose
                             (sceneRemove (Node (e_threeObj e)) st))
                 = skeleton st) by by skel.
    unfold skeleton in *; simpl.
    rewrite objects_modify; simpl. rewrite list_fmap_delete.
    by injection Hk as -> _ -> -> -> -> -> -> ->.
Qed.

Lemma wellFormed_removeObjects (es : list Entry) (st : IsoCard) :
  wellFormed st → wellFormed (foldl (λ st e, removeObject (e_id e) st) st es).
Proof.
  revert st. induction es as [|e es IH]; intros st Hwf; simpl; [done|].
  apply IH. by apply wellFormed_removeObject.
Qed.

Lemma wellFormed_removeLayer (layerId : string) (st : IsoCard) :
  wellFormed st → wellFormed (removeLayer layerId st).1.
Proof.
  intros Hwf. unfold removeLayer. case_match; [| |done]; simpl.
  all: eapply wellFormed_skeleton; [apply skeleton_set_layers|].
  all: by apply wellFormed_removeObjects.
Qed.

(** A fresh handle takes a place in the registry. *)
Lemma wellFormedSk_insert (k : Skeleton) (h1 h2 : list nat) :
  (h1 ++ h2) `sublist_of` sk_handles k →
  wellFormedSk k →
  wellFormedSk
    (mkSkeleton (sk_bodies k ++ [None]) (h1 ++ [length (sk_bodies k)] ++ h2)
       (sk_dynamic k) (sk_world k) (sk_jolt k) (sk_jInterface k)
       (sk_physicsSystem k) (sk_bodyInterface k) (sk_center k)).
Proof.
  intros Hs [Hdn Hdb Hdy Hdj Hhn Hhb Hu Ht Hbi Hps Hj Hc].
  assert (Hb12 : Forall (λ r, r < length (sk_bodies k)) (h1 ++ h2))
    by by eapply Forall_sublist_of.
  constructor; simpl; try done.
  - eapply Forall_impl; [exact Hdb|]. intros x Hx; simpl in *.
    rewrite length_app; simpl; lia.
  - by apply Forall_body_app.
  - rewrite <- (Permutation_middle h1 h2 (length (sk_bodies k))).
    apply NoDup_cons. split.
    + intros Hin. rewrite Forall_forall in Hb12. apply Hb12 in Hin. lia.
    + by eapply sublist_NoDup.
  - rewrite <- (Permutation_middle h1 h2 (length (sk_bodies k))).
    apply Forall_cons. split.
    + rewrite length_app; simpl; lia.
    + eapply Forall_impl; [exact Hb12|]. intros x Hx; simpl in *.
      rewrite length_app; simpl; lia.
  - by apply unshared_app_None.
  - by apply inTable_app_None.
Qed.

Lemma wellFormed_replaceObject (id : Id) (newConfig : Config) (st : IsoCard) :
  wellFormed st → wellFormed (replaceObject id newConfig st).1.
Proof.
  intros Hwf. unfold replaceObject.
  destruct (findIndex id (objects st)) as [index|]; [|done].
  destruct (objects st !! index) as [oldObj|] eqn:Hold; [|done].
  set (st0 := modify (e_threeObj oldObj) dispose
                (sceneRemove (Node (e_threeObj oldObj)) st)).
  assert (Hk0 : skeleton st0 = skeleton st) by (subst st0; by skel).
  assert (Ho0 : objects st0 = objects st)
    by (subst st0; by rewrite objects_modify).
  cbv zeta.
  set (tmp := delete index (objects st0)).
  assert (Htmp : (e_threeObj <$> tmp) `sublist_of` sk_handles (skeleton st)).
  { subst tmp. rewrite Ho0, list_fmap_delete. apply sublist_delete. }
  match goal with
  | |- context [match ?b with Some _ => _ | None => _ end] =>
      destruct b as [addedObj|] eqn:Hb
  end.
  - assert (Hbody : bodyOf addedObj = None).
    { destruct (typeCase _); try done.
      - by eapply bodyOf_buildLight.
      - by eapply bodyOf_buildHelper.
      - by eapply bodyOf_buildMesh.
      - injection Hb as <-. apply bodyOf_buildGroup. }
    unfold wellFormed.
    match goal with
    | |- wellFormedSk (skeleton ?s) =>
        replace (skeleton s) with
          (mkSkeleton (sk_bodies (skeleton st) ++ [None])
             ((e_threeObj <$> take index tmp)
                ++ [length (sk_bodies (skeleton st))]
                ++ (e_threeObj <$> drop index tmp))
             (sk_dynamic (skeleton st)) (sk_world (skeleton st))
             (sk_jolt (skeleton st)) (sk_jInterface (skeleton st))
             (sk_physicsSystem (skeleton st)) (sk_bodyInterface (skeleton st))
             (sk_center (skeleton st)))
    end.
    + apply wellFormedSk_insert; [|done].
      by rewrite <- fmap_app, take_drop.
    + rewrite <- Hk0. unfold alloc, skeleton.
      destruct (lightTargetAdded _ _); simpl;
        rewrite !fmap_app, length_fmap; simpl;
        by rewrite <- Hbody, <- !app_assoc.
  - simpl. unfold wellFormed.
    match goal with
    | |- wellFormedSk (skeleton ?s) =>
        replace (skeleton s) with
          (mkSkeleton (sk_bodies (skeleton st)) (e_threeObj <$> tmp)
             (sk_dynamic (skeleton st)) (sk_world (skeleton st))
             (sk_jolt (skeleton st)) (sk_jInterface (skeleton st))
             (sk_physicsSystem (skeleton st)) (sk_bodyInterface (skeleton st))
             (sk_center (skeleton st)))
    end.
    + by apply wellFormedSk_handles.
    + rewrite <- Hk0. unfold skeleton; simpl. by rewrite take_drop.
Qed.

Lemma wellFormed_foldl {A} (f : IsoCard → A → IsoCard) (l : list A)
    (st : IsoCard) :
  (∀ s x, wellFormed s → wellFormed (f s x)) →
  wellFormed st → wellFormed (foldl f st l).
Proof.
  intros Hf. revert st. induction l as [|x l IH]; intros st Hwf; simpl;
    [done|].
  by apply IH, Hf.
Qed.

(** *** Attaching bodies *)

(** The handle [r] takes the next body of the table. *)
Lemma wellFormedSk_bind (k : Skeleton) (r : nat) (dyn : list nat) :
  r < length (sk_bodies k) →
  NoDup dyn →
  (∀ x, x ∈ dyn → x ∈ sk_dynamic k ∨ x = r) →
  (dyn ≠ [] → sk_jolt k = true) →
  wellFormedSk k →
  wellFormedSk
    (mkSkeleton (<[r := Some (sk_world k)]> (sk_bodies k)) (sk_handles k) dyn
       (S (sk_world k)) (sk_jolt k) (sk_jInterface k) (sk_physicsSystem k)
       (sk_bodyInterface k) (sk_center k)).
Proof.
  intros Hr Hnd Hdyn Hjolt [Hdn Hdb Hdy Hdj Hhn Hhb Hu Ht Hbi Hps Hj Hc].
  constructor; simpl; try done.
  - rewrite length_insert. apply Forall_forall. intros x Hx.
    destruct (Hdyn x Hx) as [Hin| ->]; [|done].
    rewrite Forall_forall in Hdb. by apply Hdb.
  - apply Forall_forall. intros x Hx.
    destruct (decide (r = x)) as [<-|Hne].
    + exists (sk_world k). by apply list_lookup_insert_eq.
    + destruct (Hdyn x Hx) as [Hin|]; [|done].
      rewrite Forall_forall in Hdy. destruct (Hdy x Hin) as [b Hb].
      exists b. by rewrite list_lookup_insert_ne.
  - by rewrite length_insert.
  - by apply unshared_insert_fresh.
  - by apply inTable_insert_fresh.
Qed.

Section AttachKeeps.
Context `{IsoDeps}.

Lemma skeleton_trackDynamic r mt st :
  skeleton (trackDynamic r mt st) =
  mkSkeleton (sk_bodies (skeleton st)) (sk_handles (skeleton st))
    (dynamicObjects (trackDynamic r mt st)) (sk_world (skeleton st))
    (sk_jolt (skeleton st)) (sk_jInterface (skeleton st))
    (sk_physicsSystem (skeleton st)) (sk_bodyInterface (skeleton st))
    (sk_center (skeleton st)).
Proof. unfold trackDynamic. by repeat case_match. Qed.

Lemma trackDynamic_NoDup r mt st :
  NoDup (dynamicObjects st) →
  NoDup (dynamicObjects (trackDynamic r mt st))
  ∧ ∀ x, x ∈ dynamicObjects (trackDynamic r mt st) →
         x ∈ dynamicObjects st ∨ x = r.
Proof.
  intros Hnd. rewrite dynamicObjects_trackDynamic.
  case_decide.
  - unfold includes. case_bool_decide as Hin; [by auto|]. split.
    + apply NoDup_app. split; [done|]. split; [|apply NoDup_singleton].
      intros x Hx ->%list_elem_of_singleton. done.
    + intros x [Hx|Hx%list_elem_of_singleton]%elem_of_app; by auto.
  - split; [by apply NoDup_removeFirst|].
    intros x Hx. left. by eapply removeFirst_subseteq.
Qed.

Lemma skeleton_releaseOldBody r mesh st :
  heap st !! r = Some mesh →
  skeleton (releaseOldBody r mesh st) =
  mkSkeleton
    (match bodyOf mesh with
     | Some _ => <[r := None]> (sk_bodies (skeleton st))
     | None => sk_bodies (skeleton st)
     end)
    (sk_handles (skeleton st)) (sk_dynamic (skeleton st))
    (sk_world (skeleton st)) (sk_jolt (skeleton st))
    (sk_jInterface (skeleton st)) (sk_physicsSystem (skeleton st))
    (sk_bodyInterface (skeleton st)) (sk_center (skeleton st)).
Proof.
  intros Hm. unfold releaseOldBody, bodyOf.
  destruct (ud_body (o_userData mesh)) as [b|]; [|done].
  unfold modify. rewrite heap_modifyBody, Hm.
  unfold skeleton; simpl.
  rewrite list_fmap_insert, objects_modifyBody, dynamicObjects_modifyBody,
    length_world_modifyBody.
  unfold modifyBody. by case_match.
Qed.

Lemma wellFormed_convertObjectToDynamic (id : Id) (pc : PhysicsConfig)
    (st : IsoCard) :
  wellFormed st → wellFormed (convertObjectToDynamic id pc st).1.
Proof.
  intros Hwf. unfold convertObjectToDynamic.
  destruct (negb (jolt st) || negb (jInterface st)) eqn:Hup; [done|].
  assert (Hjolt : jolt st = true) by by destruct (jolt st).
  destruct (findIndex id (objects st)) as [index|]; [|done].
  destruct (objects st !! index) as [item|] eqn:Hitem; [|done].
  destruct (heap st !! e_threeObj item) as [mesh|] eqn:Hmesh; [|done].
  destruct (negb (isMesh mesh)); [done|].
  destruct (negb (bodyInterface st)); [done|].
  cbv zeta. cbn [fst].
  set (r := e_threeObj item).
  set (st1 := releaseOldBody r mesh st).
  pose proof (skeleton_releaseOldBody r mesh st Hmesh) as Hk1.
  fold st1 in Hk1.
  assert (Hr : r < length (sk_bodies (skeleton st))).
  { unfold skeleton; simpl. rewrite length_fmap. by eapply lookup_lt_Some. }
  assert (Hh1 : ∃ m1, heap st1 !! r = Some m1).
  { apply lookup_lt_is_Some.
    assert (Hl : length (sk_bodies (skeleton st1)) = length (sk_bodies (skeleton st))).
    { rewrite Hk1; simpl. destruct (bodyOf mesh); by rewrite ?length_insert. }
    unfold skeleton in Hl, Hr; simpl in Hl, Hr.
    rewrite !length_fmap in Hl. rewrite length_fmap in Hr. lia. }
  destruct Hh1 as [m1 Hm1].
  assert (Ho1 : objects st1 = objects st).
  { subst st1. unfold releaseOldBody. destruct (ud_body _); [|done].
    by rewrite objects_modify, objects_modifyBody. }
  set (body := createBody _ _ _ _).
  set (st2 := setEntry index _ (modify r _ (set_world _ st1))).
  assert (Hk2 : skeleton st2 =
    mkSkeleton (<[r := Some (sk_world (skeleton st))]> (sk_bodies (skeleton st)))
      (sk_handles (skeleton st)) (sk_dynamic (skeleton st))
      (S (sk_world (skeleton st))) (sk_jolt (skeleton st))
      (sk_jInterface (skeleton st)) (sk_physicsSystem (skeleton st))
      (sk_bodyInterface (skeleton st)) (sk_center (skeleton st))).
  { subst st2. rewrite (skeleton_setEntry _ item);
      [|by rewrite objects_modify; simpl; rewrite Ho1|done].
    unfold modify; simpl. rewrite Hm1.
    pose proof (f_equal sk_bodies Hk1) as Hb1.
    pose proof (f_equal sk_handles Hk1) as Hh1.
    pose proof (f_equal sk_dynamic Hk1) as Hd1.
    pose proof (f_equal sk_world Hk1) as Hw1.
    pose proof (f_equal sk_jolt Hk1) as Hj1.
    pose proof (f_equal sk_jInterface Hk1) as Hji1.
    pose proof (f_equal sk_physicsSystem Hk1) as Hps1.
    pose proof (f_equal sk_bodyInterface Hk1) as Hbi1.
    pose proof (f_equal sk_center Hk1) as Hc1.
    unfold skeleton in *; simpl in *.
    rewrite list_fmap_insert, length_app; simpl.
    rewrite Hb1, Hh1, Hd1, Hw1, Hj1, Hji1, Hps1, Hbi1, Hc1, Nat.add_1_r.
    f_equal. unfold bindBody, bodyOf at 1; simpl.
    destruct (bodyOf mesh); [apply list_insert_insert_eq|done]. }
  unfold wellFormed. rewrite skeleton_trackDynamic, Hk2; simpl.
  destruct (trackDynamic_NoDup r (motionTypeOf pc) st2) as [Hnd Hsub].
  { change (dynamicObjects st2) with (sk_dynamic (skeleton st2)).
    rewrite Hk2; simpl. apply Hwf. }
  apply (wellFormedSk_bind (skeleton st) r); try done.
  intros x Hx. apply Hsub in Hx.
  change (dynamicObjects st2) with (sk_dynamic (skeleton st2)) in Hx.
  by rewrite Hk2 in Hx.
Qed.

Lemma wellFormed_batchConvertToPhysics (objectIds : list Id)
    (pc : PhysicsConfig) (st : IsoCard) :
  wellFormed st → wellFormed (batchConvertToPhysics objectIds pc st).1.
Proof.
  intros Hwf. unfold batchConvertToPhysics.
  destruct (negb (jolt st) || negb (jInterface st)); [done|].
  match goal with
  | |- wellFormed (let '(_, _) := foldl ?f ?a ?l in _).1 =>
      pose proof (foldl_fst_invariant wellFormed f l st (0%nat, [])) as Hf;
      destruct (foldl f a l) as [s1 result]
  end.
  apply Hf; [|done].
  intros s [n failed] id Hs. simpl.
  pose proof (wellFormed_convertObjectToDynamic id pc s Hs) as Hc.
  destruct (convertObjectToDynamic id pc s) as [s' []]; done.
Qed.

Lemma wellFormed_convertEntryToStatic (st : IsoCard) (i : nat) :
  wellFormed st → wellFormed (convertEntryToStatic st i).
Proof.
  intros Hwf. unfold convertEntryToStatic.
  destruct (objects st !! i) as [obj|] eqn:Hobj; [|done].
  destruct (heap st !! e_threeObj obj) as [mesh|] eqn:Hmesh; [|done].
  case_match; [|done]. cbv zeta.
  unfold wellFormed.
  rewrite (skeleton_setEntry _ obj); [|by rewrite objects_modify|done].
  unfold modify; simpl. rewrite Hmesh.
  match goal with
  | |- wellFormedSk ?k =>
      replace k with
        (mkSkeleton
           (<[e_threeObj obj := Some (sk_world (skeleton st))]>
              (sk_bodies (skeleton st)))
           (sk_handles (skeleton st)) (sk_dynamic (skeleton st))
           (S (sk_world (skeleton st))) (sk_jolt (skeleton st))
           (sk_jInterface (skeleton st)) (sk_physicsSystem (skeleton st))
           (sk_bodyInterface (skeleton st)) (sk_center (skeleton st)))
  end.
  - apply (wellFormedSk_bind (skeleton st)); try done.
    + unfold skeleton; simpl. rewrite length_fmap. by eapply lookup_lt_Some.
    + apply Hwf.
    + by left.
    + apply Hwf.
  - unfold skeleton; simpl.
    by rewrite list_fmap_insert, length_app, Nat.add_1_r.
Qed.

Lemma wellFormed_convertMainLayerToStaticBodies (st : IsoCard) :
  wellFormed st → wellFormed (convertMainLayerToStaticBodies st).
Proof.
  intros Hwf. unfold convertMainLayerToStaticBodies. case_match; [done|].
  apply wellFormed_foldl; [|done]. apply wellFormed_convertEntryToStatic.
Qed.
End AttachKeeps.

(** *** Bodies created with their handle *)

Lemma wellFormedSk_ball (k : Skeleton) :
  sk_jolt k = true →
  wellFormedSk k →
  wellFormedSk
    (mkSkeleton (sk_bodies k ++ [Some (sk_world k)])
       (sk_handles k ++ [length (sk_bodies k)])
       (sk_dynamic k ++ [length (sk_bodies k)])
       (S (sk_world k)) (sk_jolt k) (sk_jInterface k)
       (sk_physicsSystem k) (sk_bodyInterface k) (sk_center k)).
Proof.
  intros Hjolt [Hdn Hdb Hdy Hdj Hhn Hhb Hu Ht Hbi Hps Hj Hc].
  constructor; simpl; try done.
  - apply NoDup_app. split; [done|]. split; [|apply NoDup_singleton].
    intros x Hx ->%list_elem_of_singleton.
    rewrite Forall_forall in Hdb. apply Hdb in Hx. lia.
  - apply Forall_app. split.
    + eapply Forall_impl; [exact Hdb|]. intros x Hx; simpl in *.
      rewrite length_app; simpl; lia.
    + apply Forall_singleton. rewrite length_app; simpl; lia.
  - apply Forall_app. split; [by apply Forall_body_app|].
    apply Forall_singleton. exists (sk_world k).
    rewrite lookup_app_r by done. by rewrite Nat.sub_diag.
  - apply NoDup_app. split; [done|]. split; [|apply NoDup_singleton].
    intros x Hx ->%list_elem_of_singleton.
    rewrite Forall_forall in Hhb. apply Hhb in Hx. lia.
  - apply Forall_app. split.
    + eapply Forall_impl; [exact Hhb|]. intros x Hx; simpl in *.
      rewrite length_app; simpl; lia.
    + apply Forall_singleton. rewrite length_app; simpl; lia.
  - by apply unshared_app_fresh.
  - by apply inTable_app_fresh.
Qed.

Lemma wellFormedSk_floor (k : Skeleton) :
  wellFormedSk k →
  wellFormedSk
    (mkSkeleton (sk_bodies k ++ [Some (sk_world k)]) (sk_handles k)
       (sk_dynamic k) (S (sk_world k)) (sk_jolt k) (sk_jInterface k)
       (sk_physicsSystem k) (sk_bodyInterface k) (sk_center k)).
Proof.
  intros [Hdn Hdb Hdy Hdj Hhn Hhb Hu Ht Hbi Hps Hj Hc].
  constructor; simpl; try done.
  - eapply Forall_impl; [exact Hdb|]. intros x Hx; simpl in *.
    rewrite length_app; simpl; lia.
  - by apply Forall_body_app.
  - eapply Forall_impl; [exact Hhb|]. intros x Hx; simpl in *.
    rewrite length_app; simpl; lia.
  - by apply unshared_app_fresh.
  - by apply inTable_app_fresh.
Qed.

Lemma wellFormed_dropTestBall (position : Vec3) (radius color : Q)
    (st : IsoCard) :
  wellFormed st → wellFormed (dropTestBall position radius color st).
Proof.
  intros Hwf. unfold dropTestBall.
  destruct (negb (jolt st) || negb (bodyInterface st)) eqn:Hup; [done|].
  assert (Hjolt : jolt st = true) by by destruct (jolt st).
  unfold wellFormed, alloc, skeleton; simpl.
  rewrite !fmap_app, !length_app, Nat.add_1_r; simpl.
  rewrite <- (length_fmap bodyOf (heap st)).
  by apply (wellFormedSk_ball (skeleton st)).
Qed.

Lemma wellFormed_createFloor (size : Q) (st : IsoCard) :
  wellFormed st → wellFormed (createFloor size st).
Proof.
  intros Hwf. unfold createFloor. case_match; [done|].
  unfold wellFormed, alloc, skeleton; simpl.
  rewrite !fmap_app, !length_app, Nat.add_1_r; simpl.
  by apply (wellFormedSk_floor (skeleton st)).
Qed.

(** *** Engine lifecycle *)

Lemma wellFormed_setupJOLT (st : IsoCard) :
  wellFormed st → wellFormed (setupJOLT st).
Proof.
  intros [Hdn Hdb Hdy Hdj Hhn Hhb Hu Ht Hbi Hps Hj Hc]. unfold setupJOLT.
  case_match; [done|]. constructor; simpl; try done.
  all: by rewrite length_fmap.
Qed.

Lemma releasedFrom_refl (k : Skeleton) : releasedFrom k k.
Proof. repeat split; done. Qed.

Lemma releasedFrom_trans (k1 k2 k3 : Skeleton) :
  releasedFrom k1 k2 → releasedFrom k2 k3 → releasedFrom k1 k3.
Proof.
  intros (Hr1 & ? & ? & ? & ? & ? & ? & ? & ?)
         (Hr2 & ? & ? & ? & ? & ? & ? & ? & ?).
  split; [by eapply releases_trans|]. repeat split; congruence.
Qed.

Lemma releasedFrom_skeleton (st st' : IsoCard) :
  skeleton st' = skeleton st → releasedFrom (skeleton st') (skeleton st).
Proof. intros ->. apply releasedFrom_refl. Qed.

Lemma releasedFrom_releaseBodyOf (r : nat) (st : IsoCard) :
  releasedFrom (skeleton (releaseBodyOf r st)) (skeleton st).
Proof.
  unfold releaseBodyOf.
  destruct (heap st !! r) as [o|] eqn:Ho; [|apply releasedFrom_refl].
  destruct (ud_body (o_userData o)) as [b|]; [|apply releasedFrom_refl].
  set (st1 := if bodyInterface st then _ else st).
  assert (Hk1 : skeleton st1 = skeleton st)
    by (subst st1; case_match; by skel).
  assert (Hh1 : heap st1 = heap st)
    by (subst st1; case_match; by rewrite ?heap_modifyBody).
  rewrite <- Hk1. unfold modify. rewrite Hh1, Ho.
  unfold skeleton; simpl. rewrite list_fmap_insert, Hh1.
  split; [apply releases_insert_None|]. repeat split; done.
Qed.

Lemma releasedFrom_resetEntry (st : IsoCard) (i : nat) :
  releasedFrom (skeleton (resetEntry st i)) (skeleton st).
Proof.
  unfold resetEntry.
  destruct (objects st !! i) as [e|] eqn:He; [|apply releasedFrom_refl].
  case_match; [|apply releasedFrom_refl].
  rewrite (skeleton_setEntry _ e); [apply releasedFrom_releaseBodyOf| |done].
  unfold releaseBodyOf. repeat case_match;
    by rewrite ?objects_modify, ?objects_modifyBody.
Qed.

Lemma releasedFrom_foldl {A} (f : IsoCard → A → IsoCard) (l : list A)
    (st : IsoCard) :
  (∀ s x, releasedFrom (skeleton (f s x)) (skeleton s)) →
  releasedFrom (skeleton (foldl f st l)) (skeleton st).
Proof.
  intros Hf. revert st. induction l as [|x l IH]; intros st; simpl;
    [apply releasedFrom_refl|].
  eapply releasedFrom_trans; [apply IH|apply Hf].
Qed.

Lemma wellFormed_resetPhysics (st : IsoCard) :
  wellFormed st → wellFormed (resetPhysics st).
Proof.
  intros Hwf. unfold resetPhysics. case_match; [done|].
  set (st1 := foldl resetEntry _ _).
  set (st2 := foldl _ st1 _).
  assert (Hrel : releasedFrom (skeleton st2) (skeleton st)).
  { eapply releasedFrom_trans.
    { subst st2. apply releasedFrom_foldl. intros s x.
      apply releasedFrom_releaseBodyOf. }
    subst st1.
    eapply releasedFrom_trans;
      [apply releasedFrom_foldl, releasedFrom_resetEntry|].
    apply releasedFrom_skeleton. by skel. }
  destruct Hrel as (Hr & Hh & Hd & Hw & Hj & Hji & Hps & Hbi & Hc).
  destruct Hwf as [Hdn Hdb Hdy Hdj Hhn Hhb Hu Ht Hbi' Hps' Hj' Hc'].
  destruct Hr as [Hlen Hr].
  unfold skeleton in *; simpl in *.
  constructor; simpl; try done.
  - constructor.
  - by rewrite Hh.
  - rewrite Hh, Hlen. done.
  - by eapply unshared_releases.
  - rewrite length_fmap, Hw. by eapply inTable_releases.
  - congruence.
Qed.

Section Reach.
Context `{IsoDeps}.

Lemma wellFormed_attachDeclared (st : IsoCard) (i : nat) :
  wellFormed st → wellFormed (attachDeclared st i).
Proof.
  intros Hwf. unfold attachDeclared. repeat case_match; try done.
  by apply wellFormed_convertObjectToDynamic.
Qed.

Lemma wellFormed_initializeScenePhysics (st : IsoCard) :
  wellFormed st → wellFormed (initializeScenePhysics st).
Proof.
  intros Hwf. unfold initializeScenePhysics.
  apply wellFormed_foldl; [apply wellFormed_attachDeclared|].
  apply wellFormed_createFloor. case_match; [|done].
  by apply wellFormed_setupJOLT.
Qed.

Lemma wellFormed_newIsoCard : wellFormed newIsoCard.
Proof.
  constructor; simpl; try done; try constructor.
Qed.

(** No call of a public method leads out of the well-formed states. *)
Lemma wellFormed_call (st st' : IsoCard) :
  call st st' → wellFormed st → wellFormed st'.
Proof.
  intros Hcall Hwf. destruct Hcall.
  - by apply wellFormed_addObject.
  - by apply wellFormed_replaceObject.
  - eapply wellFormed_skeleton; [apply skeleton_updateObject|done].
  - by apply wellFormed_removeObject.
  - eapply wellFormed_skeleton; [apply skeleton_setLayerVisibility|done].
  - eapply wellFormed_skeleton; [apply skeleton_updateLayerOpacity|done].
  - by apply wellFormed_addObjectsToLayer.
  - by apply wellFormed_removeLayer.
  - eapply wellFormed_skeleton; [apply skeleton_setGravityConfig|done].
  - eapply wellFormed_skeleton; [apply skeleton_setActionsPerSecond|done].
  - by apply wellFormed_setupJOLT.
  - by apply wellFormed_resetPhysics.
  - by apply wellFormed_createFloor.
  - by apply wellFormed_dropTestBall.
  - by apply wellFormed_convertObjectToDynamic.
  - by apply wellFormed_batchConvertToPhysics.
  - by apply wellFormed_convertMainLayerToStaticBodies.
  - by apply wellFormed_initializeScenePhysics.
  - eapply wellFormed_skeleton; [|done].
    unfold saveObjectTransforms. by skel.
  - eapply wellFormed_skeleton; [|done].
    unfold restoreObjectTransforms. apply skeleton_foldl, skeleton_restoreOne.
  - eapply wellFormed_skeleton; [apply skeleton_startPhysics|done].
  - eapply wellFormed_skeleton; [apply skeleton_stopPhysics|done].
  - eapply wellFormed_skeleton; [apply skeleton_togglePhysics|done].
  - eapply wellFormed_skeleton; [apply skeleton_animate|done].
  - eapply wellFormed_skeleton; [apply skeleton_renderSync|done].
  - eapply wellFormed_skeleton; [apply skeleton_updatePhysics|done].
Qed.

Lemma reachable_wellFormed (st : IsoCard) : reachable st → wellFormed st.
Proof.
  unfold reachable. revert st.
  apply rtc_ind_r; [apply wellFormed_newIsoCard|].
  intros y z _ Hc Hy. by eapply wellFormed_call.
Qed.

Lemma reachable_step (st st' : IsoCard) :
  reachable st → call st st' → reachable st'.
Proof. intros Hr Hc. by eapply rtc_r. Qed.
End Reach.

(** * Properties of reachable states *)

Section ReachableProps.
Context `{IsoDeps}.

(** X1.  No sequence of calls of public methods moves the gravity centre:
    it is the origin the constructor sets, in every state an instance can
    reach. *)
Theorem gravity_center_stays_at_origin (st : IsoCard) :
  reachable st → gravityCenter st = vec0.
Proof. intros Hr. by destruct (reachable_wellFormed st Hr). Qed.

(** X2.  In every reachable state [dynamicObjects] lists each mesh at most
    once, and every mesh it lists is allocated and has a body of the
    engine's table. *)
Theorem dynamic_objects_tracked_once (st : IsoCard) :
  reachable st →
  NoDup (dynamicObjects st)
  ∧ ∀ r, r ∈ dynamicObjects st →
      ∃ mesh b body,
        heap st !! r = Some mesh
        ∧ ud_body (o_userData mesh) = Some b
        ∧ world st !! b = Some body.
Proof.
  intros Hr.
  destruct (reachable_wellFormed st Hr)
    as [Hdn Hdb Hdy Hdj Hhn Hhb Hu Ht Hbi Hps Hj Hc].
  split; [done|]. intros r Hin.
  rewrite Forall_forall in Hdy. destruct (Hdy r Hin) as [b Hb].
  pose proof (Ht r b Hb) as Hlt.
  unfold skeleton in Hb, Hlt; simpl in Hb, Hlt.
  rewrite list_lookup_fmap in Hb.
  destruct (heap st !! r) as [mesh|] eqn:Hmesh; [|done].
  simpl in Hb. injection Hb as Hb.
  destruct (lookup_lt_is_Some_2 (world st) b Hlt) as [body Hbody].
  by exists mesh, b, body.
Qed.

(** X3.  In every reachable state no two entries of the registry hold the
    same handle, and every entry's handle is allocated. *)
Theorem registry_handles_distinct (st : IsoCard) :
  reachable st →
  handlesDistinct st
  ∧ ∀ e, e ∈ objects st → is_Some (heap st !! e_threeObj e).
Proof.
  intros Hr.
  destruct (reachable_wellFormed st Hr)
    as [Hdn Hdb Hdy Hdj Hhn Hhb Hu Ht Hbi Hps Hj Hc].
  split; [done|]. intros e He.
  rewrite Forall_forall in Hhb.
  unfold skeleton in Hhb; simpl in Hhb.
  apply lookup_lt_is_Some. rewrite <- (length_fmap bodyOf).
  apply Hhb. by apply list_elem_of_fmap_2.
Qed.

(** X4.  In every reachable state a physics body is referenced by at most
    one handle. *)
Theorem body_has_one_owner (st : IsoCard) :
  reachable st → bodiesUnshared st.
Proof.
  intros Hr.
  destruct (reachable_wellFormed st Hr)
    as [Hdn Hdb Hdy Hdj Hhn Hhb Hu Ht Hbi Hps Hj Hc].
  unfold skeleton in Hu; simpl in Hu.
  assert (Hlook : ∀ r o b, heap st !! r = Some o →
            ud_body (o_userData o) = Some b →
            (bodyOf <$> heap st) !! r = Some (Some b)).
  { intros r o b Ho Hb. rewrite list_lookup_fmap, Ho. simpl.
    unfold bodyOf. by rewrite Hb. }
  intros r1 r2 o1 o2 b H1 H2 Hb1 Hb2. eapply Hu; by eapply Hlook.
Qed.

(** X5.  In every reachable state the engine's interfaces exist together:
    [bodyInterface] and [physicsSystem] are set exactly when [jInterface]
    is, the module [jolt] is loaded whenever they are, and so
    [isPhysicsInitialized()] answers whether [jInterface] is set. *)
Theorem engine_interfaces_together (st : IsoCard) :
  reachable st →
  bodyInterface st = jInterface st
  ∧ physicsSystem st = jInterface st
  ∧ (jInterface st = true → jolt st = true)
  ∧ isPhysicsInitialized st = jInterface st.
Proof.
  intros Hr.
  destruct (reachable_wellFormed st Hr)
    as [Hdn Hdb Hdy Hdj Hhn Hhb Hu Ht Hbi Hps Hj Hc].
  unfold skeleton in Hbi, Hps, Hj; simpl in Hbi, Hps, Hj.
  repeat split; try done.
  unfold isPhysicsInitialized. rewrite Hbi.
  destruct (jInterface st); [by rewrite Hj|by destruct (jolt st)].
Qed.

Lemma syncTransform_Returned (l : list nat) (st : IsoCard) :
  (l ≠ [] → jolt st = true) →
  Forall (λ r, ∃ b, sk_bodies (skeleton st) !! r = Some (Some b)) l →
  ∃ st', foldl syncTransform (Returned st) l = Returned st'
         ∧ skeleton st' = skeleton st.
Proof.
  revert st. induction l as [|r l IH]; intros st Hjolt Hl; cbn [foldl];
    [by eexists|].
  specialize (Hjolt ltac:(done)).
  apply Forall_cons in Hl as [[b Hb] Hl].
  unfold skeleton in Hb; simpl in Hb. rewrite list_lookup_fmap in Hb.
  destruct (heap st !! r) as [o|] eqn:Ho; [|done]. simpl in Hb.
  injection Hb as Hb. unfold bodyOf in Hb.
  assert (Hstep : syncTransform (Returned st) r
                  = Returned (pullTransform st r)).
  { unfold syncTransform; simpl. rewrite Ho; simpl. rewrite Hb.
    replace (jolt (pullTransform st r)) with (jolt st); [by rewrite Hjolt|].
    symmetry. exact (f_equal sk_jolt (skeleton_pullTransform st r)). }
  rewrite Hstep.
  destruct (IH (pullTransform st r)) as (st' & Hst' & Hk).
  { intros _. rewrite <- Hjolt.
    exact (f_equal sk_jolt (skeleton_pullTransform st r)). }
  { by rewrite skeleton_pullTransform. }
  exists st'. split; [done|]. by rewrite Hk, skeleton_pullTransform.
Qed.

(** X6.  In a reachable state [renderSync] finds a body at every dynamic
    object, and the module it reads the soft-body constant from is loaded
    whenever there is one: it ends in an exception only where it steps an
    engine that is not set up, and returns whenever [jInterface] is set. *)
Theorem renderSync_returns_iff_engine (elapsed : Q) (st : IsoCard) :
  reachable st →
  (∃ st', renderSync elapsed st = Returned st') ↔ jInterface st = true.
Proof.
  intros Hr.
  destruct (reachable_wellFormed st Hr)
    as [Hdn Hdb Hdy Hdj Hhn Hhb Hu Ht Hbi Hps Hj Hc].
  destruct (syncTransform_Returned (dynamicObjects st) st Hdj Hdy)
    as (st1 & Hst1 & Hk1).
  unfold renderSync. rewrite Hst1. simpl.
  assert (Hji : jInterface st1 = jInterface st)
    by exact (f_equal sk_jInterface Hk1).
  rewrite Hji. destruct (jInterface st).
  - split; [done|]. intros _. by eexists.
  - split; [by intros [st' ?]|done].
Qed.
End ReachableProps.

(** * The object registry *)

Lemma heap_setGravityConfig g st : heap (setGravityConfig g st) = heap st.
Proof. unfold setGravityConfig. by repeat case_match. Qed.
Lemma objects_setGravityConfig g st :
  objects (setGravityConfig g st) = objects st.
Proof. unfold setGravityConfig. by repeat case_match. Qed.
Lemma scene_setGravityConfig g st : scene (setGravityConfig g st) = scene st.
Proof. unfold setGravityConfig. by repeat case_match. Qed.
Lemma world_setGravityConfig g st : world (setGravityConfig g st) = world st.
Proof. unfold setGravityConfig. by repeat case_match. Qed.
Lemma dynamicObjects_setGravityConfig g st :
  dynamicObjects (setGravityConfig g st) = dynamicObjects st.
Proof. unfold setGravityConfig. by repeat case_match. Qed.

Lemma world_register id config obj st :
  world (register id config obj st) = world st.
Proof. unfold register, alloc. by repeat (case_match; simpl). Qed.
Lemma dynamicObjects_register id config obj st :
  dynamicObjects (register id config obj st) = dynamicObjects st.
Proof. unfold register, alloc. by repeat (case_match; simpl). Qed.

(** [scene.add] keeps the children the scene has. *)
Lemma elem_of_sceneAdd (n m : SceneNode) (st : IsoCard) :
  n ∈ scene (sceneAdd m st) ↔ n ∈ scene st ∨ n = m.
Proof.
  unfold sceneAdd; simpl.
  rewrite elem_of_app, list_elem_of_filter, list_elem_of_singleton.
  destruct (decide (n = m)); intuition.
Qed.

Lemma scene_register_old id config obj st n :
  n ∈ scene st → n ∈ scene (register id config obj st).
Proof.
  intros Hn. unfold register, alloc.
  destruct (lightTargetAdded config obj); rewrite elem_of_sceneAdd;
    cbn [scene set_objects set_heap]; rewrite ?elem_of_sceneAdd;
    cbn [scene set_objects set_heap]; auto.
Qed.

(** The registry after [addObject]: one entry more when an id is returned,
    the same otherwise. *)
Lemma objects_addObject (config : Config) (st : IsoCard) :
  objects (addObject config st).1 =
  match (addObject config st).2 with
  | Some id =>
      objects st
        ++ [mkEntry id (length (heap st)) (withName (withDefaults config) id)]
  | None => objects st
  end.
Proof.
  unfold addObject.
  set (st1 := match layerSlot (layers st) _ with
              | NoLayer => _
              | OwnLayer _ | InheritedMember => st
              end).
  assert (Ho1 : objects st1 = objects st) by (subst st1; by case_match).
  assert (Hh1 : heap st1 = heap st) by (subst st1; by case_match).
  clearbody st1.
  assert (Hreg : ∀ obj s, objects s = objects st → heap s = heap st →
    objects (register (idOfName (c_name (withDefaults config)))
               (withDefaults config) obj s)
    = objects st ++
        [mkEntry (idOfName (c_name (withDefaults config))) (length (heap st))
           (withName (withDefaults config)
              (idOfName (c_name (withDefaults config))))]).
  { intros obj s Ho Hh.
    destruct (heap_register (idOfName (c_name (withDefaults config)))
                (withDefaults config) obj s) as (_ & -> & _).
    by rewrite Ho, Hh. }
  destruct (typeCase _).
  - simpl. case_match; by rewrite ?objects_setGravityConfig.
  - destruct (buildLight _); simpl; [by apply Hreg|done].
  - destruct (buildHelper _); simpl; [by apply Hreg|done].
  - destruct (buildMesh _ _); simpl; [|done].
    apply Hreg; by case_match.
  - simpl. by apply Hreg.
  - done.
Qed.

(** X7.  [addObject] either appends exactly one entry or leaves the
    registry, the store and the scene graph as they are.  When it returns
    an id, the id is the descriptor's [name] (none when it has no name), the
    handle is new, stamped with the layer and the enabled flag, without a
    physics body, listed last in the registry and a child of the scene.
    When it returns [null] (a scene descriptor, an unsupported type, light,
    helper, shape or material) no handle is created and no entry is added;
    neither case touches a body or the dynamic set. *)
Theorem addObject_appends_or_leaves (config : Config) (st : IsoCard) :
  let st' := (addObject config st).1 in
  world st' = world st
  ∧ dynamicObjects st' = dynamicObjects st
  ∧ (∀ n, n ∈ scene st → n ∈ scene st')
  ∧ match (addObject config st).2 with
    | Some id =>
        id = idOfName (c_name config)
        ∧ objects st' =
            objects st ++
              [mkEntry id (length (heap st))
                 (withName (withDefaults config) id)]
        ∧ Node (length (heap st)) ∈ scene st'
        ∧ ∃ obj,
            heap st' = heap st ++ [obj]
            ∧ ud_layer (o_userData obj) = Some (layerOf config)
            ∧ ud_enabled (o_userData obj)
              = Some (default true (c_enabled config))
            ∧ ud_body (o_userData obj) = None
    | None =>
        heap st' = heap st ∧ objects st' = objects st ∧ scene st' = scene st
    end.
Proof.
  intros st'. subst st'.
  pose proof (objects_addObject config st) as Hobj.
  revert Hobj. unfold addObject.
  set (st1 := match layerSlot (layers st) _ with
              | NoLayer => _
              | OwnLayer _ | InheritedMember => st
              end).
  assert (Hh1 : heap st1 = heap st) by (subst st1; by case_match).
  assert (Ho1 : objects st1 = objects st) by (subst st1; by case_match).
  assert (Hs1 : scene st1 = scene st) by (subst st1; by case_match).
  assert (Hw1 : world st1 = world st) by (subst st1; by case_match).
  assert (Hd1 : dynamicObjects st1 = dynamicObjects st)
    by (subst st1; by case_match).
  clearbody st1.
  assert (Hstamp : ∀ obj, bodyOf obj = None →
    ud_layer (o_userData (stamp (withDefaults config) obj))
      = Some (layerOf config)
    ∧ ud_enabled (o_userData (stamp (withDefaults config) obj))
      = Some (default true (c_enabled config))
    ∧ ud_body (o_userData (stamp (withDefaults config) obj)) = None).
  { intros obj Hb. unfold stamp, withDefaults, layerOf, bodyOf in *; simpl.
    by rewrite Hb. }
  assert (Hreg : ∀ obj s,
    bodyOf obj = None → heap s = heap st → scene s = scene st →
    world s = world st → dynamicObjects s = dynamicObjects st →
    let id := idOfName (c_name (withDefaults config)) in
    let s' := register id (withDefaults config) obj s in
    objects s' =
      objects st ++
        [mkEntry id (length (heap st)) (withName (withDefaults config) id)] →
    world s' = world st
    ∧ dynamicObjects s' = dynamicObjects st
    ∧ (∀ n, n ∈ scene st → n ∈ scene s')
    ∧ id = idOfName (c_name config)
    ∧ objects s' =
        objects st ++
          [mkEntry id (length (heap st)) (withName (withDefaults config) id)]
    ∧ Node (length (heap st)) ∈ scene s'
    ∧ ∃ o, heap s' = heap st ++ [o]
         ∧ ud_layer (o_userData o) = Some (layerOf config)
         ∧ ud_enabled (o_userData o) = Some (default true (c_enabled config))
         ∧ ud_body (o_userData o) = None).
  { intros obj s Hb Hh Hs Hw Hd id s' Hobj.
    destruct (heap_register id (withDefaults config) obj s) as (Hheap & _ & Hn).
    subst s'. rewrite world_register, dynamicObjects_register.
    split; [done|]. split; [done|].
    split. { intros n Hin. apply scene_register_old. by rewrite Hs. }
    split; [done|]. split; [done|].
    split; [by rewrite <- Hh|].
    exists (stamp (withDefaults config) obj).
    split; [by rewrite Hheap, Hh|]. by apply Hstamp. }
  destruct (typeCase _).
  - simpl. intros Hobj.
    destruct (c_gravity _);
      rewrite ?world_setGravityConfig, ?dynamicObjects_setGravityConfig,
        ?scene_setGravityConfig, ?heap_setGravityConfig,
        ?objects_setGravityConfig, ?Hs1; auto 10.
  - destruct (buildLight _) eqn:Hb; simpl; intros Hobj.
    + apply Hreg; try done. by eapply bodyOf_buildLight.
    + rewrite Hs1. auto 10.
  - destruct (buildHelper _) eqn:Hb; simpl; intros Hobj.
    + apply Hreg; try done. by eapply bodyOf_buildHelper.
    + rewrite Hs1. auto 10.
  - destruct (buildMesh _ _) eqn:Hb; simpl; intros Hobj.
    + apply Hreg; try done;
        try (by destruct (attractorStrength (withDefaults config))).
      by eapply bodyOf_buildMesh.
    + rewrite Hs1. auto 10.
  - simpl. intros Hobj. apply Hreg; try done. apply bodyOf_buildGroup.
  - simpl. intros _. rewrite Hs1. auto 10.
Qed.

Lemma find_app (id : Id) (l : list Entry) (e : Entry) :
  find id (l ++ [e]) =
  match find id l with
  | Some old => Some old
  | None => if decide (e_id e = id) then Some e else None
  end.
Proof.
  induction l as [|x l IH]; simpl.
  - rewrite find_cons. unfold find; simpl. done.
  - rewrite !find_cons. destruct (decide (e_id x = id)); simpl; [done|apply IH].
Qed.

(** X8.  [addObject] does not look for the name in the registry.  Where the
    id it returns was free, a lookup by that id gives the new entry; where
    an entry already had the id, the lookup still gives that older entry,
    and the new one cannot be reached by its id. *)
Theorem addObject_lookup (config : Config) (st : IsoCard) (id : Id) :
  (addObject config st).2 = Some id →
  find id (objects (addObject config st).1) =
  match find id (objects st) with
  | Some old => Some old
  | None =>
      Some (mkEntry id (length (heap st)) (withName (withDefaults config) id))
  end.
Proof.
  intros Hid. rewrite objects_addObject, Hid, find_app. simpl.
  by rewrite decide_True.
Qed.

(** ** removeObject *)

Lemma find_None_findIndex (id : Id) (l : list Entry) :
  find id l = None ↔ findIndex id l = None.
Proof.
  unfold find. destruct (findIndex id l) as [i|] eqn:Hi; simpl; [|done].
  apply findIndex_lookup in Hi as (e & -> & _). done.
Qed.

Lemma find_delete_other (id id' : Id) (l : list Entry) (i : nat) :
  findIndex id l = Some i → id' ≠ id →
  find id' (delete i l) = find id' l.
Proof.
  revert i. induction l as [|x l IH]; intros i; simpl; [done|].
  case_decide as Hd.
  - intros [= <-] Hne. simpl. rewrite find_cons, decide_False; congruence.
  - destruct (findIndex id l) as [k|] eqn:Hk; simpl; [|done].
    intros [= <-] Hne. simpl. rewrite !find_cons.
    case_decide; [done|]. by apply IH.
Qed.

Lemma find_delete_NoDup (id : Id) (l : list Entry) (i : nat) :
  findIndex id l = Some i → NoDup (e_id <$> l) →
  find id (delete i l) = None.
Proof.
  revert i. induction l as [|x l IH]; intros i; simpl; [done|].
  case_decide as Hd.
  - intros [= <-] [Hx _]%NoDup_cons. simpl.
    apply find_None_findIndex.
    destruct (findIndex id l) as [k|] eqn:Hk; [|done].
    apply findIndex_lookup in Hk as (e & He & Hid).
    exfalso. apply Hx. rewrite Hd, <- Hid.
    apply list_elem_of_fmap_2. by eapply list_elem_of_lookup_2.
  - destruct (findIndex id l) as [k|] eqn:Hk; simpl; [|done].
    intros [= <-] [_ Hnd]%NoDup_cons. simpl.
    rewrite find_cons, decide_False by done. by apply IH.
Qed.

(** X9.  [removeObject] of an id that is not registered changes nothing.
    Otherwise it deletes the first entry with the id, takes its handle out
    of the scene and disposes it, and that is all: every other entry, every
    other handle and every layer stay, and so do the body table, the dynamic
    set and the body the handle points at, so a dynamic object that is
    removed is still stepped and synchronised.  Lookups by another id are
    unchanged; with pairwise distinct ids the removed id is no longer
    found. *)
Theorem removeObject_spec (id : Id) (st : IsoCard) :
  let st' := removeObject id st in
  (find id (objects st) = None → st' = st)
  ∧ (∀ e, find id (objects st) = Some e →
       ∃ index,
         objects st !! index = Some e
         ∧ objects st' = delete index (objects st)
         ∧ (Node (e_threeObj e) ∉ scene st')
         ∧ heap st' !! e_threeObj e = dispose <$> (heap st !! e_threeObj e)
         ∧ (bodyOf <$> heap st' !! e_threeObj e)
           = (bodyOf <$> heap st !! e_threeObj e)
         ∧ (∀ r, r ≠ e_threeObj e → heap st' !! r = heap st !! r)
         ∧ (∀ n, n ≠ Node (e_threeObj e) → n ∈ scene st' ↔ n ∈ scene st))
  ∧ world st' = world st
  ∧ dynamicObjects st' = dynamicObjects st
  ∧ layers st' = layers st
  ∧ (∀ id', id' ≠ id → find id' (objects st') = find id' (objects st))
  ∧ (NoDup (e_id <$> objects st) → find id (objects st') = None).
Proof.
  intros st'. subst st'. unfold removeObject.
  destruct (findIndex id (objects st)) as [index|] eqn:Hi.
  2:{ apply find_None_findIndex in Hi as Hf. rewrite Hf.
      repeat split; try done. }
  destruct (findIndex_lookup _ _ _ Hi) as (e & He & Hid).
  rewrite He.
  assert (Hf : find id (objects st) = Some e).
  { unfold find. rewrite Hi. done. }
  rewrite Hf.
  set (st0 := modify (e_threeObj e) dispose
                (sceneRemove (Node (e_threeObj e)) st)).
  assert (Hh0 : heap st0 !! e_threeObj e
                = dispose <$> heap st !! e_threeObj e)
    by (subst st0; by rewrite heap_modify_eq).
  assert (Hhr : ∀ r, r ≠ e_threeObj e → heap st0 !! r = heap st !! r).
  { intros r Hr. subst st0. by rewrite heap_modify_ne. }
  assert (Ho0 : objects st0 = objects st)
    by (subst st0; by rewrite objects_modify).
  assert (Hs0 : scene st0 = filter (λ m, m ≠ Node (e_threeObj e)) (scene st))
    by (subst st0; by rewrite scene_modify).
  assert (Hw0 : world st0 = world st) by (subst st0; by rewrite world_modify).
  assert (Hd0 : dynamicObjects st0 = dynamicObjects st)
    by (subst st0; by rewrite dynamicObjects_modify).
  assert (Hl0 : layers st0 = layers st) by (subst st0; by rewrite layers_modify).
  clearbody st0. simpl. rewrite Ho0, Hs0.
  split; [done|]. split.
  { intros e' [= <-]. exists index.
    split; [done|]. split; [done|].
    split. { rewrite list_elem_of_filter. intros [Hne _]. by apply Hne. }
    split; [done|]. split.
    { rewrite Hh0. by destruct (heap st !! e_threeObj e). }
    split; [done|].
    intros n Hn. rewrite list_elem_of_filter. intuition. }
  split; [done|]. split; [done|]. split; [done|].
  split.
  - intros id' Hne. by apply find_delete_other with (id := id).
  - intros Hnd. by apply find_delete_NoDup.
Qed.

(** ** replaceObject *)

Lemma take_delete_same {A} (l : list A) (i : nat) :
  take i (delete i l) = take i l.
Proof.
  revert i. induction l as [|x l IH]; intros [|i]; simpl; try done.
  by rewrite IH.
Qed.

Lemma drop_delete_same {A} (l : list A) (i : nat) :
  drop i (delete i l) = drop (S i) l.
Proof.
  revert i. induction l as [|x l IH]; intros [|i]; simpl; try done.
Qed.

Lemma replaced_take_drop {A} (l : list A) (i : nat) (x y : A) :
  l !! i = Some x →
  (take i (delete i l) ++ [y]) ++ drop i (delete i l) = <[i := y]> l.
Proof.
  intros Hi. rewrite take_delete_same, drop_delete_same, <- app_assoc.
  rewrite insert_take_drop by by eapply lookup_lt_Some. done.
Qed.

(** X10.  A [replaceObject] that returns [true] puts the new entry at the
    position of the old one, under the same id, and leaves every other
    entry where it was.  The new handle is a fresh one, in the scene and
    without a physics body; the old handle is disposed and out of the
    scene, but neither its body nor its membership of the dynamic set is
    touched. *)
Theorem replaceObject_success (id : Id) (newConfig : Config)
    (st st' : IsoCard) :
  replaceObject id newConfig st = (st', true) →
  ∃ index old obj,
    findIndex id (objects st) = Some index
    ∧ objects st !! index = Some old
    ∧ objects st' =
        <[index := mkEntry id (length (heap st))
                     (withName (withDefaults newConfig) id)]> (objects st)
    ∧ heap st' !! length (heap st) = Some obj
    ∧ ud_body (o_userData obj) = None
    ∧ Node (length (heap st)) ∈ scene st'
    ∧ (e_threeObj old < length (heap st) →
       (Node (e_threeObj old) ∉ scene st')
       ∧ heap st' !! e_threeObj old = dispose <$> (heap st !! e_threeObj old)
       ∧ (bodyOf <$> heap st' !! e_threeObj old)
         = (bodyOf <$> heap st !! e_threeObj old))
    ∧ world st' = world st
    ∧ dynamicObjects st' = dynamicObjects st.
Proof.
  unfold replaceObject.
  destruct (findIndex id (objects st)) as [index|] eqn:Hi; [|discriminate].
  destruct (objects st !! index) as [old|] eqn:Hold; [|discriminate].
  cbv zeta.
  match goal with
  | |- context [match ?b with Some _ => _ | None => _ end] =>
      destruct b as [addedObj|] eqn:Hb
  end; [|discriminate].
  assert (Hbody : bodyOf addedObj = None).
  { destruct (typeCase _); try done.
    - by eapply bodyOf_buildLight.
    - by eapply bodyOf_buildHelper.
    - by eapply bodyOf_buildMesh.
    - injection Hb as <-. apply bodyOf_buildGroup. }
  set (st0 := modify (e_threeObj old) dispose
                (sceneRemove (Node (e_threeObj old)) st)).
  assert (Hlen0 : length (heap st0) = length (heap st)).
  { subst st0. unfold modify. simpl.
    destruct (heap st !! e_threeObj old); simpl; [apply length_insert|done]. }
  assert (Hh0 : heap st0 !! e_threeObj old
                = dispose <$> heap st !! e_threeObj old)
    by (subst st0; by rewrite heap_modify_eq).
  assert (Ho0 : objects st0 = objects st)
    by (subst st0; by rewrite objects_modify).
  assert (Hs0 : Node (e_threeObj old) ∉ scene st0).
  { subst st0. rewrite scene_modify. simpl.
    rewrite list_elem_of_filter. intros [Hne _]. by apply Hne. }
  assert (Hw0 : world st0 = world st) by (subst st0; by rewrite world_modify).
  assert (Hd0 : dynamicObjects st0 = dynamicObjects st)
    by (subst st0; by rewrite dynamicObjects_modify).
  clearbody st0. unfold alloc. cbn [heap set_objects set_heap fst snd].
  set (obj := stamp (withDefaults newConfig) addedObj).
  set (sa := set_heap (heap st0 ++ [obj])
               (set_objects (take index (delete index (objects st0))) st0)).
  set (sb := if lightTargetAdded _ _ then _ else sa).
  assert (Hsb : heap sb = heap st0 ++ [obj]
                ∧ objects sb = take index (delete index (objects st0))
                ∧ world sb = world st0
                ∧ dynamicObjects sb = dynamicObjects st0
                ∧ (e_threeObj old < length (heap st) →
                   Node (e_threeObj old) ∉ scene sb)).
  { subst sb sa. destruct (lightTargetAdded _ _); simpl;
      repeat split; try done.
    intros Hlt. rewrite elem_of_app, list_elem_of_filter,
      list_elem_of_singleton. intros [[_ Hin]|Heq]; done. }
  clearbody sb. destruct Hsb as (Hhb & Hob & Hwb & Hdb & Hscb).
  intros [= <-].
  exists index, old, obj.
  split; [done|]. split; [done|]. simpl.
  rewrite Hob, Hhb, Hwb, Hdb, Ho0, Hlen0.
  split; [by apply replaced_take_drop with (x := old)|].
  split. { rewrite lookup_app_r by lia. by rewrite Hlen0, Nat.sub_diag. }
  split. { subst obj. unfold stamp, bodyOf in *; simpl. done. }
  split.
  { apply elem_of_app. right. by apply list_elem_of_singleton. }
  split; [|done].
  intros Hlt.
  assert (Hin : (heap st0 ++ [obj]) !! e_threeObj old
                = dispose <$> heap st !! e_threeObj old).
  { rewrite lookup_app_l by lia. done. }
  split; [|split; [done|]].
  - rewrite elem_of_app, list_elem_of_filter, list_elem_of_singleton.
    intros [[_ Hin']|[= Heq]]; [by apply Hscb|lia].
  - rewrite Hin. by destruct (heap st !! e_threeObj old).
Qed.

(** ** updateObject *)

Lemma objects_updateTransform obj config updates st :
  objects (updateTransform obj config updates st) = objects st.
Proof.
  unfold updateTransform. repeat case_match; by rewrite ?objects_modify.
Qed.

(** The transform updates leave visibility and [userData] alone. *)
Lemma modify_keeps_flags (obj : nat) (f : ThreeObj → ThreeObj) (st : IsoCard)
    (o o1 : ThreeObj) :
  (∀ x, o_visible (f x) = o_visible x ∧ o_userData (f x) = o_userData x) →
  heap st !! obj = Some o1 →
  o_visible o1 = o_visible o ∧ o_userData o1 = o_userData o →
  ∃ o2, heap (modify obj f st) !! obj = Some o2
        ∧ o_visible o2 = o_visible o ∧ o_userData o2 = o_userData o.
Proof.
  intros Hf Ho1 [Hv Hu]. exists (f o1). rewrite heap_modify_eq, Ho1.
  split; [done|]. destruct (Hf o1) as [-> ->]. done.
Qed.

Lemma heap_updateTransform obj config updates st o :
  heap st !! obj = Some o →
  ∃ o', heap (updateTransform obj config updates st) !! obj = Some o'
        ∧ o_visible o' = o_visible o ∧ o_userData o' = o_userData o.
Proof.
  intros Ho. unfold updateTransform.
  assert (Happ : ∀ {A} (v : option A) (g : A → ThreeObj → ThreeObj),
            (∀ a x, o_visible (g a x) = o_visible x
                    ∧ o_userData (g a x) = o_userData x) →
            ∀ x, o_visible (applyOpt v g x) = o_visible x
                 ∧ o_userData (applyOpt v g x) = o_userData x).
  { intros A v g Hg x. unfold applyOpt. destruct v; [apply Hg|done]. }
  assert (Hrot : ∀ e r x,
            o_visible (applyRotation e r x) = o_visible x
            ∧ o_userData (applyRotation e r x) = o_userData x).
  { intros e r x. unfold applyRotation. by repeat case_match. }
  set (s1 := if has (c_pos updates) then _ else st).
  assert (H1 : ∃ o1, heap s1 !! obj = Some o1
                ∧ o_visible o1 = o_visible o ∧ o_userData o1 = o_userData o).
  { subst s1. destruct (has (c_pos updates)); [|by exists o].
    eapply modify_keeps_flags; [|done|done]. by apply Happ. }
  destruct H1 as (o1 & Ho1 & Hk1). clearbody s1.
  set (s2 := if has (c_euler updates) then _ else _).
  assert (H2 : ∃ o2, heap s2 !! obj = Some o2
                ∧ o_visible o2 = o_visible o ∧ o_userData o2 = o_userData o).
  { subst s2. destruct (has (c_euler updates)), (has (c_rot updates));
      try (by exists o1);
      (eapply modify_keeps_flags; [|done|done]); apply Hrot. }
  destruct H2 as (o2 & Ho2 & Hk2). clearbody s2.
  destruct (has (c_scale updates)); [|by exists o2].
  eapply modify_keeps_flags; [|done|done]. by apply Happ.
Qed.

(** X11.  [updateObject] with [enabled: true] reads the record of the
    entry's layer without testing that it exists.  For an entry under whose
    layer name [this.layers] has nothing, neither a record nor a member
    every object inherits (a layer that [replaceObject], which creates
    none, was given), such an update that names no layer ends in an
    exception, after the updates are merged into the entry's descriptor and
    the flag is written to the handle's [userData]: the call is not atomic.
    The handle's visibility is not written. *)
Theorem updateObject_throws_without_layer (id : Id) (updates : Config)
    (st : IsoCard) (item : Entry) :
  find id (objects st) = Some item →
  c_layer updates = None →
  c_enabled updates = Some true →
  layerSlot (layers st) (layerOf (e_config item)) = NoLayer →
  ∃ st' index,
    updateObject id updates st = Thrown st'
    ∧ findIndex id (objects st) = Some index
    ∧ objects st' =
        <[index := mkEntry (e_id item) (e_threeObj item)
                     (assign (e_config item) updates)]> (objects st)
    ∧ layers st' = layers st
    ∧ ∀ o, heap st !! e_threeObj item = Some o →
        ∃ o', heap st' !! e_threeObj item = Some o'
              ∧ ud_enabled (o_userData o') = Some true
              ∧ o_visible o' = o_visible o.
Proof.
  intros Hf Hl Hen Hlayer. unfold updateObject. unfold find in Hf.
  destruct (findIndex id (objects st)) as [index|]; [|done]. simpl in Hf.
  rewrite Hf. cbv zeta.
  set (config := assign (e_config item) updates).
  assert (Hlo : layerOf config = layerOf (e_config item)).
  { subst config. unfold layerOf, assign; simpl. by rewrite Hl. }
  set (st1 := setEntry index _ st).
  set (st2 := updateTransform (e_threeObj item) config updates st1).
  assert (Hst3 : updateLayer (e_threeObj item) config updates st2 = st2)
    by (unfold updateLayer; by rewrite Hl).
  rewrite Hst3. unfold updateEnabled. rewrite Hen. cbv iota.
  rewrite layers_modify.
  assert (Hl2 : layers st2 = layers st).
  { subst st2 st1. by rewrite layers_updateTransform. }
  rewrite Hl2, Hlo, Hlayer. simpl.
  eexists _, index. split; [reflexivity|]. split; [done|].
  rewrite objects_modify, layers_modify.
  split. { subst st2 st1. by rewrite objects_updateTransform. }
  split; [done|]. intros o Ho.
  destruct (heap_updateTransform (e_threeObj item) config updates st1 o Ho)
    as (o2 & Ho2 & Hv & Hu).
  fold st2 in Ho2. rewrite heap_modify_eq, Ho2. simpl.
  eexists. split; [reflexivity|]. simpl. done.
Qed.

(** * Layers *)

Lemma layers_ensureLayer (l : string) (st : IsoCard) :
  layers (ensureLayer l st) =
    match layerSlot (layers st) l with
    | NoLayer => <[l := mkLayer true (1 # 2)]> (layers st)
    | OwnLayer _ | InheritedMember => layers st
    end.
Proof. unfold ensureLayer. by case_match. Qed.

(** X12.  [setLayerVisibility] records the flag in the layer's record and
    keeps the record's opacity; where [this.layers] has nothing under the
    name the record is created first, with opacity 0.5, and under the name
    of a member every object inherits no record is created or changed.
    Every other layer is as before.  Every handle of an entry of the layer
    becomes visible exactly when the flag is set and the entry is not
    disabled; entries of other layers keep their handle as it is. *)
Theorem setLayerVisibility_spec (layerId : string) (visible : bool)
    (st : IsoCard) :
  handlesDistinct st →
  let st' := setLayerVisibility layerId visible st in
  layers st' =
    match layerSlot (layers st) layerId with
    | OwnLayer l => <[layerId := mkLayer visible (l_opacity l)]> (layers st)
    | NoLayer => <[layerId := mkLayer visible (1 # 2)]> (layers st)
    | InheritedMember => layers st
    end
  ∧ objects st' = objects st
  ∧ ∀ e, e ∈ objects st →
      heap st' !! e_threeObj e =
      (λ o, if String.eqb (layerOf (e_config e)) layerId
            then set_o_visible
                   (visible && default true (c_enabled (e_config e))) o
            else o) <$> (heap st !! e_threeObj e).
Proof.
  intros Hnd st'. subst st'. unfold setLayerVisibility.
  rewrite layers_forEachObject, objects_forEachObject. simpl.
  rewrite objects_ensureLayer.
  split.
  { rewrite layers_ensureLayer.
    destruct (layerSlot (layers st) layerId) as [l| |] eqn:Hl.
    - apply layerSlot_own in Hl. apply map_eq. intros k.
      destruct (decide (k = layerId)) as [->|Hne].
      + by rewrite lookup_alter_eq, lookup_insert_eq, Hl.
      + by rewrite lookup_alter_ne, lookup_insert_ne.
    - apply layerSlot_inherited in Hl as [Hl _]. apply map_eq. intros k.
      destruct (decide (k = layerId)) as [->|Hne].
      + by rewrite lookup_alter_eq, Hl.
      + by rewrite lookup_alter_ne.
    - apply map_eq. intros k.
      destruct (decide (k = layerId)) as [->|Hne].
      + by rewrite lookup_alter_eq, !lookup_insert_eq.
      + by rewrite lookup_alter_ne, !lookup_insert_ne. }
  split; [done|]. intros e He.
  unfold forEachObject. simpl. rewrite objects_ensureLayer.
  rewrite forEachObject_entry; [|done|done]. simpl.
  by rewrite heap_ensureLayer.
Qed.

(** ** removeLayer *)

Lemma filter_ext_in {A} (P Q : A → Prop) `{!∀ x, Decision (P x)}
    `{!∀ x, Decision (Q x)} (l : list A) :
  (∀ x, x ∈ l → P x ↔ Q x) → filter P l = filter Q l.
Proof.
  induction l as [|x l IH]; intros Hpq; [done|].
  rewrite !filter_cons.
  assert (Hx : P x ↔ Q x) by (apply Hpq; left).
  rewrite IH by (intros y Hy; apply Hpq; by right).
  destruct (decide (P x)), (decide (Q x)); tauto.
Qed.

Lemma filter_all {A} (P : A → Prop) `{!∀ x, Decision (P x)} (l : list A) :
  (∀ x, x ∈ l → P x) → filter P l = l.
Proof.
  induction l as [|x l IH]; intros Hp; [done|].
  rewrite filter_cons, decide_True by (apply Hp; left).
  rewrite IH; [done|]. intros y Hy. apply Hp. by right.
Qed.

Lemma findIndex_None (id : Id) (l : list Entry) :
  findIndex id l = None → ∀ e, e ∈ l → e_id e ≠ id.
Proof.
  induction l as [|x l IH]; simpl; intros Hf e He.
  { by apply elem_of_nil in He. }
  case_decide as Hd; [done|].
  destruct (findIndex id l); [done|].
  apply elem_of_cons in He as [->|He]; [done|by apply IH].
Qed.

Lemma delete_findIndex (id : Id) (l : list Entry) (i : nat) :
  NoDup (e_id <$> l) → findIndex id l = Some i →
  delete i l = filter (λ x, e_id x ≠ id) l.
Proof.
  revert i. induction l as [|x l IH]; intros i Hnd; simpl; [done|].
  rewrite fmap_cons in Hnd. apply NoDup_cons in Hnd as [Hx Hnd].
  rewrite filter_cons. case_decide as Hd.
  - intros [= <-]. simpl. rewrite decide_False by (intros Hne; by apply Hne).
    symmetry. apply filter_all. intros y Hy Heq. apply Hx.
    rewrite Hd, <- Heq. by apply list_elem_of_fmap_2.
  - destruct (findIndex id l) as [k|]; simpl; [|done].
    intros [= <-]. simpl. rewrite decide_True by done. f_equal. by apply IH.
Qed.

Lemma objects_removeObject (id : Id) (st : IsoCard) :
  NoDup (e_id <$> objects st) →
  objects (removeObject id st) = filter (λ x, e_id x ≠ id) (objects st).
Proof.
  intros Hnd. unfold removeObject.
  destruct (findIndex id (objects st)) as [index|] eqn:Hi.
  - destruct (findIndex_lookup _ _ _ Hi) as (e & He & _). rewrite He. simpl.
    rewrite objects_modify. simpl. by apply delete_findIndex.
  - symmetry. apply filter_all. by apply findIndex_None.
Qed.

Lemma removeObject_frame (id : Id) (st : IsoCard) :
  world (removeObject id st) = world st
  ∧ dynamicObjects (removeObject id st) = dynamicObjects st
  ∧ layers (removeObject id st) = layers st.
Proof.
  unfold removeObject. repeat case_match; simpl;
    by rewrite ?world_modify, ?dynamicObjects_modify, ?layers_modify.
Qed.

Lemma NoDup_fmap_filter {A B} (f : A → B) (P : A → Prop)
    `{!∀ x, Decision (P x)} (l : list A) :
  NoDup (f <$> l) → NoDup (f <$> filter P l).
Proof.
  intros Hnd.
  apply (sublist_NoDup (f <$> filter P l) (f <$> l)); [done|].
  apply fmap_sublist, sublist_filter.
Qed.

Lemma removeObjects_spec (es : list Entry) (st : IsoCard) :
  NoDup (e_id <$> objects st) →
  let st' := foldl (λ st e, removeObject (e_id e) st) st es in
  objects st' = filter (λ x, e_id x ∉ e_id <$> es) (objects st)
  ∧ world st' = world st
  ∧ dynamicObjects st' = dynamicObjects st
  ∧ layers st' = layers st.
Proof.
  revert st. induction es as [|e es IH]; intros st Hnd; simpl.
  { split; [|done]. symmetry. apply filter_all. intros x _.
    apply not_elem_of_nil. }
  destruct (removeObject_frame (e_id e) st) as (Hw & Hd & Hl).
  destruct (IH (removeObject (e_id e) st)) as (-> & -> & -> & ->).
  { rewrite objects_removeObject by done. by apply NoDup_fmap_filter. }
  split; [|done].
  rewrite objects_removeObject by done. rewrite list_filter_filter.
  apply list_filter_iff. intros x. rewrite not_elem_of_cons. tauto.
Qed.

(** X13.  [removeLayer] of a name under which [this.layers] has nothing
    returns 0 and changes nothing.  Otherwise (there is a record, or the
    name is that of a member every object inherits), in a registry with
    pairwise distinct ids, it removes exactly the entries of the layer,
    keeps the others in their order, deletes the layer's record if there
    is one (the "main" layer is not exempt) and returns the number of
    entries removed; as with [removeObject], bodies and the dynamic set are
    not touched. *)
Theorem removeLayer_spec (layerId : string) (st : IsoCard) :
  NoDup (e_id <$> objects st) →
  let st' := (removeLayer layerId st).1 in
  (layerSlot (layers st) layerId = NoLayer →
   removeLayer layerId st = (st, 0%nat))
  ∧ (layerSlot (layers st) layerId ≠ NoLayer →
       objects st'
         = filter (λ e, layerOf (e_config e) ≠ layerId) (objects st)
       ∧ (removeLayer layerId st).2
         = length (filter (λ e, layerOf (e_config e) = layerId) (objects st))
       ∧ layers st' = delete layerId (layers st)
       ∧ world st' = world st
       ∧ dynamicObjects st' = dynamicObjects st).
Proof.
  intros Hnd st'. subst st'. unfold removeLayer.
  assert (Hrem :
    let objectsToRemove :=
      filter (λ e, layerOf (e_config e) = layerId) (objects st) in
    let st1 := foldl (λ st e, removeObject (e_id e) st) st objectsToRemove in
    objects st1 = filter (λ e, layerOf (e_config e) ≠ layerId) (objects st)
    ∧ layers st1 = layers st ∧ world st1 = world st
    ∧ dynamicObjects st1 = dynamicObjects st).
  { cbv zeta.
    destruct (removeObjects_spec
                (filter (λ e, layerOf (e_config e) = layerId) (objects st))
                st Hnd) as (-> & -> & -> & ->).
    repeat split; try done.
    apply filter_ext_in. intros x Hx. split.
    - intros Hnin Heq. apply Hnin. apply list_elem_of_fmap_2.
      by apply list_elem_of_filter.
    - intros Hne [y [Hid Hy]]%list_elem_of_fmap.
      apply list_elem_of_filter in Hy as [Hly Hy].
      assert (x = y) as <-; [|done].
      pose proof (find_NoDup x _ Hnd Hx) as Hfx.
      pose proof (find_NoDup y _ Hnd Hy) as Hfy.
      rewrite Hid in Hfx. congruence. }
  cbv zeta in Hrem. destruct Hrem as (Ho & Hl & Hw & Hd).
  destruct (layerSlot (layers st) layerId) as [l| |] eqn:Hslot.
  3:{ split; [done|]. by intros []. }
  all: split; [done|]; intros _; simpl.
  all: by rewrite Ho, Hl, Hw, Hd.
Qed.

(** ** addObjectsToLayer *)

Lemma addObjectsToLayer_fold (layerId : string) (configs : list Config)
    (st : IsoCard) (ids : list Id) :
  let r :=
    foldl
      (λ '(st, ids) config,
         let modifiedConfig := set_c_layer (Some layerId) config in
         let '(st, _) := addObject modifiedConfig st in
         (st, ids ++ [IdNum 23098409234]))
      (st, ids) configs in
  r.2 = ids ++ replicate (length configs) (IdNum 23098409234)
  ∧ ∃ added,
      objects r.1 = objects st ++ added
      ∧ length added ≤ length configs
      ∧ Forall (λ e, layerOf (e_config e) = orS (Some layerId) "main") added.
Proof.
  revert st ids. induction configs as [|c cs IH]; intros st ids; simpl.
  { rewrite app_nil_r. split; [done|]. exists []. by rewrite app_nil_r. }
  pose proof (objects_addObject (set_c_layer (Some layerId) c) st) as Hobj.
  destruct (addObject (set_c_layer (Some layerId) c) st) as [st1 res] eqn:Ha.
  simpl in Hobj.
  destruct (IH st1 (ids ++ [IdNum 23098409234]))
    as (Hids & added & Ho & Hlen & Hall).
  simpl in Hids, Ho.
  split. { rewrite Hids, <- app_assoc. done. }
  destruct res as [id|].
  - eexists (_ :: added). rewrite Ho, Hobj, <- app_assoc. simpl.
    split; [reflexivity|]. split; [lia|].
    apply Forall_cons. split; [|done]. simpl.
    unfold withName, withDefaults, layerOf; simpl.
    destruct layerId; repeat case_match; done.
  - exists added. rewrite Ho, Hobj. split; [done|]. split; [lia|done].
Qed.

(** X14.  The list [addObjectsToLayer] returns has one element for every
    descriptor it was given, and every element is the constant 23098409234
    the code overwrites each id with: it is the same whether or not a
    descriptor could be added, and names no entry.  The entries that are
    added come last in the registry, at most one for each descriptor, all
    on the layer asked for ("main" when the layer name is empty). *)
Theorem addObjectsToLayer_returns_constant (layerId : string)
    (configs : list Config) (st : IsoCard) :
  (addObjectsToLayer layerId configs st).2
    = replicate (length configs) (IdNum 23098409234)
  ∧ ∃ added,
      objects (addObjectsToLayer layerId configs st).1 = objects st ++ added
      ∧ length added ≤ length configs
      ∧ Forall (λ e, layerOf (e_config e) = orS (Some layerId) "main") added.
Proof.
  unfold addObjectsToLayer.
  set (st1 := match layerSlot (layers st) layerId with
              | NoLayer => _
              | OwnLayer _ | InheritedMember => st
              end).
  assert (Ho1 : objects st1 = objects st) by (subst st1; by case_match).
  destruct (addObjectsToLayer_fold layerId configs st1 [])
    as (Hids & added & Ho & Hlen & Hall).
  split; [done|]. exists added. by rewrite <- Ho1.
Qed.

(** * Physics attachment *)

Section AttachProps.
Context `{IsoDeps}.

(** The state a successful [convertObjectToDynamic] builds, step by
    step. *)
Lemma convert_unfold (id : Id) (pc : PhysicsConfig) (st : IsoCard)
    (index : nat) (item : Entry) (mesh : ThreeObj) :
  jolt st = true → jInterface st = true → bodyInterface st = true →
  findIndex id (objects st) = Some index →
  objects st !! index = Some item →
  heap st !! e_threeObj item = Some mesh →
  isMesh mesh = true →
  let r := e_threeObj item in
  let st1 := releaseOldBody r mesh st in
  let body :=
    createBody id pc
      (joltShapeOf (getScaledShapeDimensions (e_config item) mesh) mesh)
      mesh in
  convertObjectToDynamic id pc st =
  (trackDynamic r (motionTypeOf pc)
     (setEntry index
        (mkEntry (e_id item) r (set_c_physics (Some pc) (e_config item)))
        (modify r (bindBody (length (world st1)) pc)
           (set_world (world st1 ++ [body]) st1))), true).
Proof.
  intros Hj Hji Hbi Hi Hitem Hmesh Hm. unfold convertObjectToDynamic.
  by rewrite Hj, Hji, Hbi, Hi, Hitem, Hmesh, Hm.
Qed.

Lemma world_releaseOldBody (r : nat) (mesh : ThreeObj) (st : IsoCard)
    (b : nat) :
  world (releaseOldBody r mesh st) !! b =
  if decide (ud_body (o_userData mesh) = Some b)
  then removeAndDestroy <$> (world st !! b) else world st !! b.
Proof.
  unfold releaseOldBody. destruct (ud_body (o_userData mesh)) as [b0|].
  - rewrite world_modify, world_modifyBody.
    destruct (decide (b0 = b)) as [->|Hne].
    + by rewrite decide_True.
    + rewrite decide_False; [done|]. by intros [= ?].
  - by rewrite decide_False.
Qed.

Lemma length_world_releaseOldBody (r : nat) (mesh : ThreeObj) (st : IsoCard) :
  length (world (releaseOldBody r mesh st)) = length (world st).
Proof.
  unfold releaseOldBody. destruct (ud_body _); [|done].
  by rewrite world_modify, length_world_modifyBody.
Qed.

(** What a [true] from [convertObjectToDynamic] tells about the state it
    was called in. *)
Lemma convert_true_inv (id : Id) (pc : PhysicsConfig) (st : IsoCard) :
  (convertObjectToDynamic id pc st).2 = true →
  jolt st = true ∧ jInterface st = true ∧ bodyInterface st = true
  ∧ ∃ item mesh,
      find id (objects st) = Some item
      ∧ heap st !! e_threeObj item = Some mesh
      ∧ isMesh mesh = true.
Proof.
  unfold convertObjectToDynamic, find.
  destruct (jolt st), (jInterface st); simpl; try done.
  destruct (findIndex id (objects st)) as [index|]; simpl; [|done].
  destruct (objects st !! index) as [item|] eqn:Hitem; simpl; [|done].
  destruct (heap st !! e_threeObj item) as [mesh|] eqn:Hmesh; [|done].
  destruct (isMesh mesh) eqn:Hm; simpl; [|done].
  destruct (bodyInterface st); simpl; [|done].
  intros _. repeat split; try done. by exists item, mesh.
Qed.

(** X15.  [convertObjectToDynamic] returns [true] exactly when the engine
    is set up ([jolt], [jInterface] and [bodyInterface]) and the id names an
    entry whose handle is a mesh; whenever it returns [false] it has
    changed nothing. *)
Theorem convertObjectToDynamic_succeeds_iff (id : Id) (pc : PhysicsConfig)
    (st : IsoCard) :
  ((convertObjectToDynamic id pc st).2 = true ↔
     jolt st = true ∧ jInterface st = true ∧ bodyInterface st = true
     ∧ ∃ item mesh,
         find id (objects st) = Some item
         ∧ heap st !! e_threeObj item = Some mesh
         ∧ isMesh mesh = true)
  ∧ ((convertObjectToDynamic id pc st).2 = false →
     (convertObjectToDynamic id pc st).1 = st).
Proof.
  unfold convertObjectToDynamic, find.
  destruct (jolt st), (jInterface st); simpl;
    try (split; [split; [done|by intros (? & ? & _)]|done]).
  destruct (findIndex id (objects st)) as [index|]; simpl.
  2:{ split; [|done]. split; [done|]. by intros (_ & _ & _ & ? & ? & ? & _). }
  destruct (objects st !! index) as [item|] eqn:Hitem; simpl.
  2:{ split; [|done]. split; [done|]. by intros (_ & _ & _ & ? & ? & ? & _). }
  destruct (heap st !! e_threeObj item) as [mesh|] eqn:Hmesh.
  2:{ split; [|done]. split; [done|].
      intros (_ & _ & _ & ? & ? & [= <-] & ? & _). congruence. }
  destruct (isMesh mesh) eqn:Hm; simpl.
  2:{ split; [|done]. split; [done|].
      intros (_ & _ & _ & ? & ? & [= <-] & ? & ?). congruence. }
  destruct (bodyInterface st); simpl.
  2:{ split; [|done]. split; [done|]. by intros (_ & _ & ? & _). }
  split; [|done]. split; [|done]. intros _.
  repeat split; try done. by exists item, mesh.
Qed.

(** X16.  A successful [convertObjectToDynamic] adds exactly one body to
    the engine's table.  A body the mesh already had is taken out of the
    world and destroyed first; every other body is left as it is. *)
Theorem reattach_releases_old_body (id : Id) (pc : PhysicsConfig)
    (st st' : IsoCard) (item : Entry) (mesh : ThreeObj) :
  convertObjectToDynamic id pc st = (st', true) →
  find id (objects st) = Some item →
  heap st !! e_threeObj item = Some mesh →
  length (world st') = S (length (world st))
  ∧ ∀ b body, world st !! b = Some body →
      world st' !! b =
      Some (if decide (ud_body (o_userData mesh) = Some b)
            then removeAndDestroy body else body).
Proof.
  intros Hc Hf Hmesh.
  pose proof (convert_true_inv id pc st) as Hiff.
  rewrite Hc in Hiff. destruct (Hiff eq_refl)
    as (Hj & Hji & Hbi & item' & mesh' & Hf' & Hmesh' & Hm).
  rewrite Hf in Hf'. injection Hf' as <-.
  rewrite Hmesh in Hmesh'. injection Hmesh' as <-.
  unfold find in Hf.
  destruct (findIndex id (objects st)) as [index|] eqn:Hi; [|done].
  simpl in Hf.
  rewrite (convert_unfold id pc st index item mesh) in Hc by done.
  injection Hc as <-.
  rewrite world_trackDynamic. simpl. rewrite world_modify. simpl.
  split.
  { rewrite length_app, length_world_releaseOldBody. simpl. lia. }
  intros b body Hb.
  rewrite lookup_app_l
    by (rewrite length_world_releaseOldBody; by eapply lookup_lt_Some).
  rewrite world_releaseOldBody, Hb. by case_decide.
Qed.

(** X17.  The body a successful [convertObjectToDynamic] creates stands at
    the mesh's position and rotation, has the collision shape the code
    builds from the descriptor scaled by the mesh (a dimension the scaled
    descriptor lacks reaches the shape's constructor as [undefined] or
    [NaN]), carries the friction and restitution of the configuration and
    is named after the id; the configured mass is written to the creation
    settings' mass override for a dynamic body only, and no flag makes the
    engine use it.  On the handle exactly one of [isStatic], [isDynamic],
    [isKinematic] is set, the one of the body's motion type, and the
    configuration is stored both on the handle and in the entry's
    descriptor. *)
Theorem attached_body_properties (id : Id) (pc : PhysicsConfig)
    (st st' : IsoCard) :
  convertObjectToDynamic id pc st = (st', true) →
  ∃ index item mesh mesh' body,
    findIndex id (objects st) = Some index
    ∧ objects st !! index = Some item
    ∧ heap st !! e_threeObj item = Some mesh
    ∧ world st' !! length (world st) = Some body
    ∧ b_shape body
      = joltShapeOf (getScaledShapeDimensions (e_config item) mesh) mesh
    ∧ b_position body = o_position mesh
    ∧ b_rotation body = o_quaternion mesh
    ∧ b_massOverride body
      = (if decide (motionTypeOf pc = EMotionType_Dynamic)
         then p_mass pc else None)
    ∧ b_friction body = p_friction pc
    ∧ b_restitution body = p_restitution pc
    ∧ b_name body = Some id
    ∧ heap st' !! e_threeObj item = Some mesh'
    ∧ ud_body (o_userData mesh') = Some (length (world st))
    ∧ ud_isStatic (o_userData mesh')
      = Some (bool_decide (motionTypeOf pc = EMotionType_Static))
    ∧ ud_isDynamic (o_userData mesh')
      = Some (bool_decide (motionTypeOf pc = EMotionType_Dynamic))
    ∧ ud_isKinematic (o_userData mesh')
      = Some (bool_decide (motionTypeOf pc = EMotionType_Kinematic))
    ∧ ud_physicsConfig (o_userData mesh') = Some pc
    ∧ objects st' =
        <[index := mkEntry (e_id item) (e_threeObj item)
                     (set_c_physics (Some pc) (e_config item))]> (objects st).
Proof.
  intros Hc.
  pose proof (convert_true_inv id pc st) as Hiff.
  rewrite Hc in Hiff. destruct (Hiff eq_refl)
    as (Hj & Hji & Hbi & item & mesh & Hf & Hmesh & Hm).
  unfold find in Hf.
  destruct (findIndex id (objects st)) as [index|] eqn:Hi; [|done].
  simpl in Hf.
  rewrite (convert_unfold id pc st index item mesh) in Hc by done.
  injection Hc as <-.
  set (st1 := releaseOldBody (e_threeObj item) mesh st).
  assert (Hh1 : ∃ m1, heap st1 !! e_threeObj item = Some m1).
  { subst st1. unfold releaseOldBody. destruct (ud_body _); [|by eexists].
    rewrite heap_modify_eq, heap_modifyBody, Hmesh. by eexists. }
  destruct Hh1 as [m1 Hm1].
  assert (Ho1 : objects st1 = objects st).
  { subst st1. unfold releaseOldBody. destruct (ud_body _); [|done].
    by rewrite objects_modify, objects_modifyBody. }
  assert (Hw1 : length (world st1) = length (world st))
    by apply length_world_releaseOldBody.
  eexists index, item, mesh, _, _.
  split; [done|]. split; [done|]. split; [done|].
  rewrite world_trackDynamic, heap_trackDynamic. simpl.
  rewrite world_modify, heap_modify_eq. simpl. rewrite Hm1. simpl.
  split. { rewrite lookup_app_r by lia. by rewrite Hw1, Nat.sub_diag. }
  repeat (split; [reflexivity|]).
  rewrite Hw1. repeat (split; [reflexivity|]).
  unfold trackDynamic. repeat case_match; simpl;
    by rewrite objects_modify; simpl; rewrite Ho1.
Qed.
End AttachProps.

(** * Resetting the engine *)

(** The body of the handle [r], if it is allocated and has one. *)
Lemma bodies_lookup (st : IsoCard) (r : nat) :
  sk_bodies (skeleton st) !! r = bodyOf <$> (heap st !! r).
Proof. unfold skeleton; simpl. apply list_lookup_fmap. Qed.

Lemma released_noBody (k' k : Skeleton) (r : nat) :
  releasedFrom k' k →
  (∀ b, sk_bodies k !! r ≠ Some (Some b)) →
  ∀ b, sk_bodies k' !! r ≠ Some (Some b).
Proof. intros [[_ Hr] _] Hn b Hb. by apply (Hn b), Hr. Qed.

Lemma noBody_releaseBodyOf (r : nat) (st : IsoCard) (b : nat) :
  sk_bodies (skeleton (releaseBodyOf r st)) !! r ≠ Some (Some b).
Proof.
  rewrite bodies_lookup. unfold releaseBodyOf.
  destruct (heap st !! r) as [o|] eqn:Ho; [|by rewrite Ho].
  destruct (ud_body (o_userData o)) as [b0|] eqn:Hb.
  - rewrite heap_modify_eq.
    replace (heap (if bodyInterface st
                   then modifyBody b0 removeAndDestroy st else st))
      with (heap st) by (case_match; by rewrite ?heap_modifyBody).
    by rewrite Ho.
  - rewrite Ho. simpl. unfold bodyOf. by rewrite Hb.
Qed.

Lemma noBody_resetEntry (st : IsoCard) (i r : nat) (b : nat) :
  sk_handles (skeleton st) !! i = Some r →
  sk_bodies (skeleton (resetEntry st i)) !! r ≠ Some (Some b).
Proof.
  intros Hr. unfold skeleton in Hr; simpl in Hr.
  rewrite list_lookup_fmap in Hr. unfold resetEntry.
  destruct (objects st !! i) as [e|] eqn:He; [|done]. simpl in Hr.
  injection Hr as <-.
  destruct (hasBody st (e_threeObj e)) eqn:Hhas.
  - rewrite (skeleton_setEntry _ e); [apply noBody_releaseBodyOf| |done].
    unfold releaseBodyOf. repeat case_match;
      by rewrite ?objects_modify, ?objects_modifyBody.
  - rewrite bodies_lookup. unfold hasBody in Hhas.
    destruct (heap st !! e_threeObj e) as [o|]; [|done]. simpl in *.
    unfold bodyOf. by destruct (ud_body (o_userData o)).
Qed.

Lemma resetEntry_ids (st : IsoCard) (i : nat) :
  e_id <$> objects (resetEntry st i) = e_id <$> objects st.
Proof.
  unfold resetEntry. destruct (objects st !! i) as [e|] eqn:He; [|done].
  case_match; [|done]. unfold setEntry; simpl.
  assert (Ho : objects (releaseBodyOf (e_threeObj e) st) = objects st).
  { unfold releaseBodyOf. repeat case_match;
      by rewrite ?objects_modify, ?objects_modifyBody. }
  rewrite Ho, list_fmap_insert. simpl. apply list_insert_id.
  by rewrite list_lookup_fmap, He.
Qed.

Lemma releaseBodyOf_objects (r : nat) (st : IsoCard) :
  objects (releaseBodyOf r st) = objects st.
Proof.
  unfold releaseBodyOf. repeat case_match;
    by rewrite ?objects_modify, ?objects_modifyBody.
Qed.

Lemma noBody_resetEntries (l : list nat) (st : IsoCard) (i r b : nat) :
  i ∈ l → sk_handles (skeleton st) !! i = Some r →
  sk_bodies (skeleton (foldl resetEntry st l)) !! r ≠ Some (Some b).
Proof.
  revert st. induction l as [|j l IH]; intros st Hi Hr; cbn [foldl].
  { by apply elem_of_nil in Hi. }
  apply elem_of_cons in Hi as [->|Hi].
  - eapply released_noBody;
      [apply releasedFrom_foldl, releasedFrom_resetEntry|].
    intros b'. by apply noBody_resetEntry.
  - apply IH; [done|].
    destruct (releasedFrom_resetEntry st j) as (_ & -> & _). done.
Qed.

Lemma noBody_releaseBodies (l : list nat) (st : IsoCard) (r b : nat) :
  r ∈ l →
  sk_bodies (skeleton (foldl (λ st r, releaseBodyOf r st) st l)) !! r
  ≠ Some (Some b).
Proof.
  revert st. induction l as [|j l IH]; intros st Hi; cbn [foldl].
  { by apply elem_of_nil in Hi. }
  apply elem_of_cons in Hi as [->|Hi]; [|by apply IH].
  eapply released_noBody.
  { apply releasedFrom_foldl. intros s x. apply releasedFrom_releaseBodyOf. }
  intros b'. apply noBody_releaseBodyOf.
Qed.

(** A body taken out of the world and destroyed. *)
Lemma destroyed_modifyBody (b b' : nat) (st : IsoCard) :
  (∃ body, world st !! b = Some body
           ∧ b_destroyed body = true ∧ b_added body = false) →
  ∃ body, world (modifyBody b' removeAndDestroy st) !! b = Some body
          ∧ b_destroyed body = true ∧ b_added body = false.
Proof.
  intros (body & Hb & Hd & Ha). rewrite world_modifyBody, Hb.
  case_decide; simpl; eexists; (split; [reflexivity|]); done.
Qed.

(** Every body that a handle had in [st0] is still the handle's, or is
    destroyed. *)
Lemma released_or_kept_step (st0 st : IsoCard) (r : nat) :
  bodyInterface st = true →
  length (world st) = length (world st0) →
  (∀ r' b, sk_bodies (skeleton st0) !! r' = Some (Some b) →
           b < length (world st0) →
           sk_bodies (skeleton st) !! r' = Some (Some b)
           ∨ ∃ body, world st !! b = Some body
                     ∧ b_destroyed body = true ∧ b_added body = false) →
  ∀ r' b, sk_bodies (skeleton st0) !! r' = Some (Some b) →
          b < length (world st0) →
          sk_bodies (skeleton (releaseBodyOf r st)) !! r' = Some (Some b)
          ∨ ∃ body, world (releaseBodyOf r st) !! b = Some body
                    ∧ b_destroyed body = true ∧ b_added body = false.
Proof.
  intros Hbi Hlen Hinv r' b H0 Hlt.
  destruct (Hinv r' b H0 Hlt) as [Hk|Hd].
  - unfold releaseBodyOf.
    destruct (heap st !! r) as [o|] eqn:Ho; [|by left].
    destruct (ud_body (o_userData o)) as [b0|] eqn:Hb0; [|by left].
    rewrite Hbi. destruct (decide (r = r')) as [<-|Hne].
    + right. rewrite bodies_lookup, Ho in Hk. simpl in Hk.
      unfold bodyOf in Hk. rewrite Hb0 in Hk. injection Hk as ->.
      rewrite world_modify, world_modifyBody, decide_True by done.
      destruct (lookup_lt_is_Some_2 (world st) b) as [body Hbody]; [lia|].
      rewrite Hbody. simpl. eexists. split; [reflexivity|]. done.
    + left. rewrite bodies_lookup, heap_modify_ne, heap_modifyBody by done.
      by rewrite <- bodies_lookup.
  - right. unfold releaseBodyOf.
    destruct (heap st !! r) as [o|] eqn:Ho; [|done].
    destruct (ud_body (o_userData o)) as [b0|] eqn:Hb0; [|done].
    rewrite Hbi, world_modify. by apply destroyed_modifyBody.
Qed.

Lemma foldl_invariant {A} (P : IsoCard → Prop) (f : IsoCard → A → IsoCard)
    (l : list A) (st : IsoCard) :
  (∀ s x, P s → P (f s x)) → P st → P (foldl f st l).
Proof.
  intros Hf. revert st. induction l as [|x l IH]; intros st Hst; simpl;
    [done|].
  by apply IH, Hf.
Qed.

Lemma releaseBodyOf_frame (r : nat) (st : IsoCard) :
  bodyInterface (releaseBodyOf r st) = bodyInterface st
  ∧ length (world (releaseBodyOf r st)) = length (world st).
Proof.
  pose proof (releasedFrom_releaseBodyOf r st)
    as (_ & _ & _ & Hw & _ & _ & _ & Hbi & _).
  done.
Qed.

Lemma isPhysicsRunning_modify r f st :
  isPhysicsRunning (modify r f st) = isPhysicsRunning st.
Proof. frame_modify. Qed.
Lemma isPhysicsRunning_modifyBody b f st :
  isPhysicsRunning (modifyBody b f st) = isPhysicsRunning st.
Proof. frame_modify. Qed.

Lemma isPhysicsRunning_releaseBodyOf r st :
  isPhysicsRunning (releaseBodyOf r st) = isPhysicsRunning st.
Proof.
  unfold releaseBodyOf. repeat case_match;
    by rewrite ?isPhysicsRunning_modify, ?isPhysicsRunning_modifyBody.
Qed.

Lemma isPhysicsRunning_resetEntry st i :
  isPhysicsRunning (resetEntry st i) = isPhysicsRunning st.
Proof.
  unfold resetEntry. repeat case_match; simpl;
    by rewrite ?isPhysicsRunning_releaseBodyOf.
Qed.

Lemma released_or_kept_resetEntry (st0 st : IsoCard) (i : nat) :
  bodyInterface st = true →
  length (world st) = length (world st0) →
  (∀ r' b, sk_bodies (skeleton st0) !! r' = Some (Some b) →
           b < length (world st0) →
           sk_bodies (skeleton st) !! r' = Some (Some b)
           ∨ ∃ body, world st !! b = Some body
                     ∧ b_destroyed body = true ∧ b_added body = false) →
  bodyInterface (resetEntry st i) = true
  ∧ length (world (resetEntry st i)) = length (world st0)
  ∧ ∀ r' b, sk_bodies (skeleton st0) !! r' = Some (Some b) →
            b < length (world st0) →
            sk_bodies (skeleton (resetEntry st i)) !! r' = Some (Some b)
            ∨ ∃ body, world (resetEntry st i) !! b = Some body
                      ∧ b_destroyed body = true ∧ b_added body = false.
Proof.
  intros Hbi Hlen Hinv. unfold resetEntry.
  destruct (objects st !! i) as [e|] eqn:He; [|done].
  destruct (hasBody st (e_threeObj e)); [|done].
  destruct (releaseBodyOf_frame (e_threeObj e) st) as [Hbi' Hlen'].
  assert (Hk : skeleton (setEntry i
                 (mkEntry (e_id e) (e_threeObj e)
                    (set_c_physics None (e_config e)))
                 (releaseBodyOf (e_threeObj e) st))
               = skeleton (releaseBodyOf (e_threeObj e) st)).
  { apply (skeleton_setEntry _ e); [|done].
    by rewrite releaseBodyOf_objects. }
  rewrite Hk. unfold setEntry; simpl.
  split; [congruence|]. split; [congruence|].
  by apply released_or_kept_step.
Qed.

(** X18.  [resetPhysics] without an engine changes nothing.  With one, it
    stops the simulation, empties the dynamic set and the snapshot store
    and drops [jInterface], [physicsSystem] and [bodyInterface], keeping
    the loaded module.  The registry keeps its ids and handles; afterwards
    no handle of the registry or of the old dynamic set has a body, and
    every body such a handle had is out of the world and destroyed. *)
Theorem resetPhysics_releases_bodies (st : IsoCard) :
  let st' := resetPhysics st in
  (negb (jolt st) || negb (jInterface st) = true → st' = st)
  ∧ (jolt st = true → jInterface st = true →
       jolt st' = true ∧ jInterface st' = false
       ∧ physicsSystem st' = false ∧ bodyInterface st' = false
       ∧ isPhysicsRunning st' = false
       ∧ dynamicObjects st' = [] ∧ savedTransforms st' = []
       ∧ (e_id <$> objects st') = (e_id <$> objects st)
       ∧ (e_threeObj <$> objects st') = (e_threeObj <$> objects st)
       ∧ ∀ r o,
           r ∈ (e_threeObj <$> objects st) ++ dynamicObjects st →
           heap st !! r = Some o →
           (∃ o', heap st' !! r = Some o' ∧ ud_body (o_userData o') = None)
           ∧ ∀ b body,
               ud_body (o_userData o) = Some b →
               world st !! b = Some body →
               bodyInterface st = true →
               ∃ body', world st' !! b = Some body'
                        ∧ b_destroyed body' = true
                        ∧ b_added body' = false).
Proof.
  intros st'. subst st'. unfold resetPhysics.
  destruct (negb (jolt st) || negb (jInterface st)) eqn:Hup.
  { split; [done|]. intros Hj Hji. by rewrite Hj, Hji in Hup. }
  split; [done|]. intros Hj Hji.
  set (st0 := set_isPhysicsRunning false st).
  set (l1 := seq 0 (length (objects st0))).
  set (st1 := foldl resetEntry st0 l1).
  set (st2 := foldl (λ st r, releaseBodyOf r st) st1 (dynamicObjects st1)).
  assert (Hr1 : releasedFrom (skeleton st1) (skeleton st)).
  { subst st1. eapply releasedFrom_trans;
      [apply releasedFrom_foldl, releasedFrom_resetEntry|].
    by apply releasedFrom_skeleton. }
  assert (Hr2 : releasedFrom (skeleton st2) (skeleton st1)).
  { subst st2. apply releasedFrom_foldl. intros s x.
    apply releasedFrom_releaseBodyOf. }
  pose proof (releasedFrom_trans _ _ _ Hr2 Hr1) as Hr.
  destruct Hr as ([Hlen Hrel] & Hh & Hd & Hw & Hj2 & Hji2 & Hps2 & Hbi2 & _).
  unfold skeleton in Hh, Hd, Hw, Hj2, Hji2, Hps2, Hbi2; simpl in *.
  assert (Hrun : isPhysicsRunning st2 = false).
  { subst st2. apply (foldl_invariant (λ s, isPhysicsRunning s = false)).
    { intros s x Hs. by rewrite isPhysicsRunning_releaseBodyOf. }
    subst st1. apply (foldl_invariant (λ s, isPhysicsRunning s = false));
      [|done].
    intros s x Hs. by rewrite isPhysicsRunning_resetEntry. }
  split; [by rewrite Hj2|]. do 6 (split; [done|]).
  split.
  { subst st2. rewrite (foldl_invariant
      (λ s, e_id <$> objects s = e_id <$> objects st1)); [| |done].
    - subst st1. apply (foldl_invariant
        (λ s, e_id <$> objects s = e_id <$> objects st)); [|done].
      intros s x Hs. by rewrite resetEntry_ids.
    - intros s x Hs. by rewrite releaseBodyOf_objects. }
  split; [done|].
  intros r o Hin Ho.
  (* no body afterwards *)
  assert (Hnone : ∀ b, sk_bodies (skeleton st2) !! r ≠ Some (Some b)).
  { apply elem_of_app in Hin as [Hin|Hin].
    - apply list_elem_of_lookup in Hin as [i Hi].
      eapply released_noBody; [exact Hr2|]. intros b.
      subst st1. apply (noBody_resetEntries l1 st0 i); [|done].
      subst l1. apply elem_of_seq. apply lookup_lt_Some in Hi.
      rewrite length_fmap in Hi. simpl. lia.
    - intros b. subst st2. apply noBody_releaseBodies.
      destruct Hr1 as (_ & _ & Hd1 & _).
      unfold skeleton in Hd1; simpl in Hd1. by rewrite Hd1. }
  split.
  { assert (Hlt : r < length (heap st2)).
    { rewrite <- (length_fmap bodyOf), Hlen, length_fmap.
      by eapply lookup_lt_Some. }
    destruct (lookup_lt_is_Some_2 _ _ Hlt) as [o' Ho'].
    exists o'. split; [done|].
    specialize (Hnone (default 0%nat (ud_body (o_userData o')))).
    rewrite bodies_lookup, Ho' in Hnone. simpl in Hnone.
    unfold bodyOf in Hnone. by destruct (ud_body (o_userData o')). }
  intros b body Hb Hbody Hbi.
  (* the invariant of the two loops *)
  assert (Hinv : bodyInterface st2 = true
    ∧ length (world st2) = length (world st0)
    ∧ ∀ r' b, sk_bodies (skeleton st0) !! r' = Some (Some b) →
              b < length (world st0) →
              sk_bodies (skeleton st2) !! r' = Some (Some b)
              ∨ ∃ body, world st2 !! b = Some body
                        ∧ b_destroyed body = true ∧ b_added body = false).
  { subst st2. apply (foldl_invariant (λ s,
      bodyInterface s = true
      ∧ length (world s) = length (world st0)
      ∧ ∀ r' b, sk_bodies (skeleton st0) !! r' = Some (Some b) →
                b < length (world st0) →
                sk_bodies (skeleton s) !! r' = Some (Some b)
                ∨ ∃ body, world s !! b = Some body
                          ∧ b_destroyed body = true ∧ b_added body = false)).
    { intros s x (Hs1 & Hs2 & Hs3).
      destruct (releaseBodyOf_frame x s) as [-> ->].
      split; [done|]. split; [done|]. by apply released_or_kept_step. }
    subst st1. apply (foldl_invariant (λ s,
      bodyInterface s = true
      ∧ length (world s) = length (world st0)
      ∧ ∀ r' b, sk_bodies (skeleton st0) !! r' = Some (Some b) →
                b < length (world st0) →
                sk_bodies (skeleton s) !! r' = Some (Some b)
                ∨ ∃ body, world s !! b = Some body
                          ∧ b_destroyed body = true ∧ b_added body = false)).
    { intros s x (Hs1 & Hs2 & Hs3). by apply released_or_kept_resetEntry. }
    split; [done|]. split; [done|]. intros; by left. }
  destruct Hinv as (_ & _ & Hinv).
  destruct (Hinv r b) as [Hkept|Hdes].
  - rewrite bodies_lookup. change (heap st0) with (heap st).
    rewrite Ho. simpl. unfold bodyOf. by rewrite Hb.
  - change (world st0) with (world st). by eapply lookup_lt_Some.
  - by apply Hnone in Hkept.
  - destruct Hdes as (body2 & Hbody2 & _).
    exists (removeAndDestroy body2). simpl.
    by rewrite list_lookup_fmap, Hbody2.
Qed.

(** *** The frame callback and the dynamic set *)

Section FrameSync.
Context `{IsoDeps}.

Lemma heap_attract st r : heap (attract st r) = heap st.
Proof. unfold attract. repeat case_match; try done; apply heap_modifyBody. Qed.

Lemma gravityStrength_attract st r :
  gravityStrength (attract st r) = gravityStrength st.
Proof. unfold attract, modifyBody. repeat case_match; done. Qed.

Lemma length_world_attract st r :
  length (world (attract st r)) = length (world st).
Proof.
  unfold attract. repeat case_match; try done. apply length_world_modifyBody.
Qed.

Lemma objects_attract st r : objects (attract st r) = objects st.
Proof. unfold attract, modifyBody. repeat case_match; done. Qed.

Lemma attracts_frame (l : list nat) (st : IsoCard) :
  heap (foldl attract st l) = heap st
  ∧ dynamicObjects (foldl attract st l) = dynamicObjects st
  ∧ objects (foldl attract st l) = objects st
  ∧ length (world (foldl attract st l)) = length (world st).
Proof.
  revert st. induction l as [|r l IH]; intros st; cbn [foldl]; [done|].
  destruct (IH (attract st r)) as (-> & -> & -> & ->).
  rewrite heap_attract, objects_attract, length_world_attract.
  repeat split. apply frame_attract.
Qed.

(** One pull writes position and quaternion of its handle, from the body
    the handle points at, and nothing else. *)
Lemma pullTransform_spec (st : IsoCard) (r : nat) :
  world (pullTransform st r) = world st
  ∧ dynamicObjects (pullTransform st r) = dynamicObjects st
  ∧ objects (pullTransform st r) = objects st
  ∧ (∀ r', r' ≠ r → heap (pullTransform st r) !! r' = heap st !! r')
  ∧ (∀ o, heap st !! r = Some o →
       ∃ o', heap (pullTransform st r) !! r = Some o'
             ∧ o_userData o' = o_userData o ∧ o_scale o' = o_scale o
             ∧ ∀ b body, ud_body (o_userData o) = Some b →
                 world st !! b = Some body →
                 o_position o' = b_position body
                 ∧ o_quaternion o' = b_rotation body).
Proof.
  unfold pullTransform.
  destruct (heap st !! r) as [o|] eqn:Ho; simpl; [|by repeat split].
  destruct (ud_body (o_userData o)) as [b|] eqn:Hb.
  2: { repeat split; try done. intros o' [= <-]. exists o.
       repeat split; try done; congruence. }
  destruct (world st !! b) as [body|] eqn:Hw.
  2: { repeat split; try done. intros o' [= <-]. exists o.
       repeat split; try done; congruence. }
  split; [apply world_modify|]. split; [apply dynamicObjects_modify|].
  split; [apply objects_modify|]. split.
  - intros r' Hne. by apply heap_modify_ne.
  - intros o' [= <-]. rewrite heap_modify_eq, Ho. simpl.
    eexists. split; [done|]. repeat split; simpl; congruence.
Qed.

Lemma pullTransforms_spec (l : list nat) (st : IsoCard) :
  let st' := foldl pullTransform st l in
  world st' = world st
  ∧ dynamicObjects st' = dynamicObjects st
  ∧ objects st' = objects st
  ∧ (∀ r, r ∉ l → heap st' !! r = heap st !! r)
  ∧ (∀ r o, heap st !! r = Some o →
       ∃ o', heap st' !! r = Some o'
             ∧ o_userData o' = o_userData o ∧ o_scale o' = o_scale o
             ∧ ∀ b body, r ∈ l → ud_body (o_userData o) = Some b →
                 world st !! b = Some body →
                 o_position o' = b_position body
                 ∧ o_quaternion o' = b_rotation body).
Proof.
  revert st. induction l as [|r0 l IH]; intros st; cbn [foldl].
  - split; [done|]. split; [done|]. split; [done|]. split; [done|].
    intros r o Ho. exists o. split; [done|]. split; [done|]. split; [done|].
    intros b body Hin. by apply elem_of_nil in Hin.
  - destruct (pullTransform_spec st r0) as (Hw & Hd & Hobj & Hfr & Hat).
    destruct (IH (pullTransform st r0)) as (Hw' & Hd' & Hobj' & Hfr' & Hat').
    cbv zeta in *.
    split; [congruence|]. split; [congruence|]. split; [congruence|]. split.
    { intros r [Hne Hnl]%not_elem_of_cons. rewrite Hfr' by done.
      by apply Hfr. }
    intros r o Ho.
    assert (∃ o1, heap (pullTransform st r0) !! r = Some o1
                  ∧ o_userData o1 = o_userData o ∧ o_scale o1 = o_scale o
                  ∧ ∀ b body, r = r0 → ud_body (o_userData o) = Some b →
                      world st !! b = Some body →
                      o_position o1 = b_position body
                      ∧ o_quaternion o1 = b_rotation body)
      as (o1 & Ho1 & Hu1 & Hs1 & Hp1).
    { destruct (decide (r = r0)) as [->|Hne].
      - destruct (Hat o Ho) as (o1 & Ho1 & Hu1 & Hs1 & Hp1). exists o1.
        split; [done|]. split; [done|]. split; [done|].
        intros b body _ Hb Hbody. exact (Hp1 b body Hb Hbody).
      - exists o. rewrite Hfr by done.
        split; [done|]. split; [done|]. split; [done|]. by intros b body ?. }
    destruct (Hat' r o1 Ho1) as (o' & Ho' & Hu' & Hs' & Hp').
    exists o'. split; [done|]. split; [congruence|]. split; [congruence|].
    intros b body Hin Hb Hbody.
    destruct (decide (r ∈ l)) as [Hl|Hnl].
    + apply (Hp' b body Hl); congruence.
    + apply elem_of_cons in Hin as [->|?]; [|done].
      rewrite Hfr' in Ho' by done. rewrite Ho1 in Ho'. injection Ho' as <-.
      exact (Hp1 b body eq_refl Hb Hbody).
Qed.

(** X19. A frame of [animate] with the engine up (the module loaded and
    [jInterface] set) and the simulation running copies, for every handle
    of the dynamic set, position and quaternion of the handle's body as the
    step left it; scale and user data stay, and handles outside the dynamic
    set, the registry and the dynamic set itself are untouched. *)
Theorem animate_syncs_dynamic_objects (elapsed : Q) (st : IsoCard) :
  jolt st = true → jInterface st = true → isPhysicsRunning st = true →
  let st' := animate elapsed st in
  objects st' = objects st
  ∧ dynamicObjects st' = dynamicObjects st
  ∧ length (world st') = length (world st)
  ∧ (∀ r, r ∉ dynamicObjects st → heap st' !! r = heap st !! r)
  ∧ ∀ r o, heap st !! r = Some o →
      ∃ o', heap st' !! r = Some o'
            ∧ o_userData o' = o_userData o ∧ o_scale o' = o_scale o
            ∧ ∀ b body', r ∈ dynamicObjects st →
                ud_body (o_userData o) = Some b →
                world st' !! b = Some body' →
                o_position o' = b_position body'
                ∧ o_quaternion o' = b_rotation body'.
Proof.
  intros _ Hji Hrun. unfold animate. rewrite Hji, Hrun. simpl andb. cbv iota.
  set (st0 := if String.eqb (gravityType st) "radial"
              then applyRadialGravity st else st).
  assert (H0 : heap st0 = heap st ∧ dynamicObjects st0 = dynamicObjects st
               ∧ objects st0 = objects st
               ∧ length (world st0) = length (world st)).
  { subst st0. destruct (String.eqb _ _); [|done]. apply attracts_frame. }
  destruct H0 as (Hh0 & Hd0 & Ho0 & Hl0). clearbody st0.
  set (st1 := Step (clampDelta elapsed) (numStepsFor (clampDelta elapsed)) st0).
  assert (H1 : heap st1 = heap st ∧ dynamicObjects st1 = dynamicObjects st
               ∧ objects st1 = objects st
               ∧ length (world st1) = length (world st)).
  { subst st1. unfold Step, stepInPlace; simpl. rewrite length_imap. done. }
  destruct H1 as (Hh1 & Hd1 & Ho1 & Hl1). clearbody st1.
  destruct (pullTransforms_spec (dynamicObjects st1) st1)
    as (Hw & Hd & Hobj & Hfr & Hat).
  set (st2 := foldl pullTransform st1 (dynamicObjects st1)) in *.
  cbv zeta in *. clearbody st2.
  assert (∀ st3, (heap st3 = heap st2 ∧ world st3 = world st2
                  ∧ dynamicObjects st3 = dynamicObjects st2
                  ∧ objects st3 = objects st2) →
     objects st3 = objects st
     ∧ dynamicObjects st3 = dynamicObjects st
     ∧ length (world st3) = length (world st)
     ∧ (∀ r, r ∉ dynamicObjects st → heap st3 !! r = heap st !! r)
     ∧ ∀ r o, heap st !! r = Some o →
         ∃ o', heap st3 !! r = Some o'
               ∧ o_userData o' = o_userData o ∧ o_scale o' = o_scale o
               ∧ ∀ b body', r ∈ dynamicObjects st →
                   ud_body (o_userData o) = Some b →
                   world st3 !! b = Some body' →
                   o_position o' = b_position body'
                   ∧ o_quaternion o' = b_rotation body') as Hfin.
  { intros st3 (-> & -> & -> & ->). rewrite Hw, Hd, Hobj, Hd1, Ho1, Hl1.
    rewrite Hd1 in Hfr, Hat.
    split; [done|]. split; [done|]. split; [done|]. split.
    - intros r Hr. rewrite Hfr by done. by rewrite Hh1.
    - intros r o Ho. rewrite <- Hh1 in Ho.
      destruct (Hat r o Ho) as (o' & Ho' & Hu' & Hs' & Hp').
      exists o'. split; [done|]. split; [done|]. split; [done|].
      intros b body' Hin Hb Hbody. apply (Hp' b body' Hin Hb Hbody). }
  apply Hfin.
  repeat match goal with
    | |- context [if ?c then _ else _] => destruct c
    end; simpl; done.
Qed.
End FrameSync.

(** *** Radial gravity over the dynamic set *)

Section RadialProps.
Context `{IsoDeps}.

Lemma wellFormed_bodiesUnshared (st : IsoCard) :
  wellFormed st → bodiesUnshared st.
Proof.
  intros [Hdn Hdb Hdy Hdj Hhn Hhb Hu Ht Hbi Hps Hj Hc].
  unfold skeleton in Hu; simpl in Hu.
  intros r1 r2 o1 o2 b H1 H2 Hb1 Hb2.
  apply (Hu r1 r2 b); rewrite list_lookup_fmap.
  - rewrite H1; simpl. unfold bodyOf. by rewrite Hb1.
  - rewrite H2; simpl. unfold bodyOf. by rewrite Hb2.
Qed.

Lemma attract_hit (st : IsoCard) (r b : nat) (o : ThreeObj) (body : Body) :
  heap st !! r = Some o → ud_body (o_userData o) = Some b →
  world st !! b = Some body →
  world (attract st r) !! b
  = Some (from_option (λ force, AddForce force body) body
            (radialForce (gravityCenter st) (gravityStrength st) body)).
Proof.
  intros Ho Hb Hbody. unfold attract. rewrite Ho; simpl. rewrite Hb, Hbody.
  destruct (radialForce _ _ _) as [force|]; simpl; [|done].
  rewrite world_modifyBody, decide_True by done. by rewrite Hbody.
Qed.

Lemma attract_miss (st : IsoCard) (r b : nat) :
  (∀ o, heap st !! r = Some o → ud_body (o_userData o) ≠ Some b) →
  world (attract st r) !! b = world st !! b.
Proof.
  intros Hne. unfold attract.
  destruct (heap st !! r) as [o|] eqn:Ho; simpl; [|done].
  destruct (ud_body (o_userData o)) as [b0|] eqn:Hb0; [|done].
  destruct (world st !! b0) as [body|] eqn:Hbody; [|done].
  destruct (radialForce _ _ _) as [force|]; [|done].
  rewrite world_modifyBody, decide_False; [done|].
  intros ->. by eapply Hne.
Qed.

Lemma attracts_world (l : list nat) (st : IsoCard) (b : nat) :
  NoDup l → bodiesUnshared st →
  (∀ r o body, r ∈ l → heap st !! r = Some o →
     ud_body (o_userData o) = Some b → world st !! b = Some body →
     world (foldl attract st l) !! b
     = Some (from_option (λ force, AddForce force body) body
               (radialForce (gravityCenter st) (gravityStrength st) body)))
  ∧ ((∀ r o, r ∈ l → heap st !! r = Some o →
        ud_body (o_userData o) ≠ Some b) →
     world (foldl attract st l) !! b = world st !! b).
Proof.
  revert st. induction l as [|r0 l IH]; intros st Hnd Hu; cbn [foldl].
  { split; [|done]. by intros r o body ?%elem_of_nil. }
  apply NoDup_cons in Hnd as [Hr0 Hnd].
  assert (Hu1 : bodiesUnshared (attract st r0)).
  { unfold bodiesUnshared. rewrite heap_attract. exact Hu. }
  destruct (IH (attract st r0) Hnd Hu1) as [IH1 IH2].
  rewrite heap_attract in IH1, IH2. rewrite gravityStrength_attract in IH1.
  replace (gravityCenter (attract st r0)) with (gravityCenter st) in IH1
    by (symmetry; apply frame_attract).
  split.
  - intros r o body Hin Ho Hb Hbody.
    destruct (decide (r = r0)) as [->|Hne].
    + rewrite IH2.
      * by eapply attract_hit.
      * intros r' o' Hin' Ho' Hb'. apply Hr0.
        by rewrite <- (Hu r' r0 o' o b Ho' Ho Hb' Hb).
    + apply elem_of_cons in Hin as [?|Hin]; [done|].
      apply (IH1 r o body Hin Ho Hb).
      rewrite attract_miss; [done|].
      intros o0 Ho0 Hb0. apply Hne. by apply (Hu r r0 o o0 b).
  - intros Hfree. rewrite IH2.
    + apply attract_miss. intros o Ho. apply (Hfree r0 o); [left|done].
    + intros r o Hin. apply Hfree. by right.
Qed.

(** X20. In a reachable state with the engine up, one pass of the
    radial-gravity loop of [animate] adds, to the body of each object of
    the dynamic set, the radial force toward the origin computed from that
    body's state before the pass, once; bodies of no dynamic object are
    left as they are, and no handle is written. *)
Theorem radial_gravity_once_per_body (st : IsoCard) :
  reachable st → jInterface st = true →
  let st' := applyRadialGravity st in
  heap st' = heap st
  ∧ length (world st') = length (world st)
  ∧ (∀ r o b body, r ∈ dynamicObjects st → heap st !! r = Some o →
       ud_body (o_userData o) = Some b → world st !! b = Some body →
       world st' !! b
       = Some (from_option (λ force, AddForce force body) body
                 (radialForce vec0 (gravityStrength st) body)))
  ∧ (∀ b, (∀ r o, r ∈ dynamicObjects st → heap st !! r = Some o →
             ud_body (o_userData o) ≠ Some b) →
       world st' !! b = world st !! b).
Proof.
  intros Hr _. pose proof (reachable_wellFormed st Hr) as Hwf.
  pose proof (wellFormed_bodiesUnshared st Hwf) as Hu.
  destruct Hwf as [Hdn Hdb Hdy Hdj Hhn Hhb _ Ht Hbi Hps Hj Hc].
  unfold skeleton in Hdn, Hc; simpl in Hdn, Hc.
  cbv zeta. unfold applyRadialGravity.
  destruct (attracts_frame (dynamicObjects st) st) as (Hh & _ & _ & Hl).
  split; [done|]. split; [done|]. split.
  - intros r o b body Hin Ho Hb Hbody.
    destruct (attracts_world (dynamicObjects st) st b Hdn Hu) as [H1 _].
    rewrite <- Hc. by eapply H1.
  - intros b Hfree.
    destruct (attracts_world (dynamicObjects st) st b Hdn Hu) as [_ H2].
    by apply H2.
Qed.
End RadialProps.

(** *** Gravity settings and the engine's life cycle *)

Lemma setGravityConfig_radial (g : GravityCfg) (s : IsoCard) :
  orS (g_type (mergeGravity (sceneConfig_gravity s) g)) "uniform" = "radial" →
  setGravityConfig g s
  = let s' := set_gravityType "radial"
                (set_sceneConfig_gravity
                   (mergeGravity (sceneConfig_gravity s) g) s) in
    if physicsSystem s
    then set_gravityStrength
           (orQ (g_strength (mergeGravity (sceneConfig_gravity s) g)) 1000)
           (set_nativeGravity vec0 s')
    else s'.
Proof.
  intros Hty. unfold setGravityConfig. rewrite Hty.
  cbn [physicsSystem set_gravityType set_sceneConfig_gravity gravityType].
  by destruct (physicsSystem s).
Qed.

(** X21. A radial gravity configuration takes full effect only on an engine
    that is set up.  Configured after [setupJOLT], it switches the engine's
    own gravity off and stores the configured strength (1000 when none or 0
    is given).  Configured before, only the type is stored: [setupJOLT] then
    hands the scene's gravity vector (or (0, -9.81, 0)) to the engine, and
    the strength stays what it was. *)
Theorem radial_gravity_config_order (g : GravityCfg) (st : IsoCard) :
  physicsSystem st = false → jInterface st = false →
  let gravity := mergeGravity (sceneConfig_gravity st) g in
  orS (g_type gravity) "uniform" = "radial" →
  let late := setGravityConfig g (setupJOLT st) in
  let early := setupJOLT (setGravityConfig g st) in
  (gravityType late = "radial"
   ∧ nativeGravity late = vec0
   ∧ gravityStrength late = orQ (g_strength gravity) 1000)
  ∧ (gravityType early = "radial"
     ∧ nativeGravity early = default defaultGravityVector (g_vector gravity)
     ∧ gravityStrength early = gravityStrength st)
  ∧ sceneConfig_gravity late = gravity
  ∧ sceneConfig_gravity early = gravity.
Proof.
  intros Hps Hji gravity Hty. cbv zeta.
  assert (Hup : ∀ s, jInterface s = false →
            setupJOLT s
            = set_nativeGravity
                (default defaultGravityVector (g_vector (sceneConfig_gravity s)))
                (set_bodyInterface true
                   (set_physicsSystem true
                      (set_jInterface true
                         (dropBodies (set_time 0 (set_jolt true s))))))).
  { intros s Hs. unfold setupJOLT. by rewrite Hs, andb_false_r. }
  rewrite (setGravityConfig_radial g st Hty), Hps. cbv zeta.
  rewrite (Hup st Hji), Hup by done.
  rewrite setGravityConfig_radial by exact Hty.
  done.
Qed.

(** *** Collision shapes *)

Section ShapeProps.
Context `{IsoDeps}.

Lemma rawDim_setProp_same (k : string) (v : Q) (s : Shape) :
  rawDim (setProp k v s) k = Some v.
Proof. unfold rawDim. by rewrite prop_setProp, decide_True. Qed.

Lemma rawDim_setProp_other (k k' : string) (v : Q) (s : Shape) :
  k ≠ k' → rawDim (setProp k v s) k' = rawDim s k'.
Proof. intros Hne. unfold rawDim. by rewrite prop_setProp, decide_False. Qed.

(** X22. The collision shape of a box, a sphere or a straight cylinder is
    the rendered geometry under the mesh's scale: half the geometry's
    width, height and depth times the scale per axis for a box; the
    geometry's radius times the largest scale component for a sphere; for a
    cylinder whose two radii are equal, half the height times the y scale
    and the radius times the larger of the x and z scales. *)
Theorem collision_shape_follows_geometry (config : Config) (shape : Shape)
    (mesh : ThreeObj) :
  c_shape config = Some shape →
  let scale := o_scale mesh in
  let body := joltShapeOf (getScaledShapeDimensions config mesh) mesh in
  match shapeKindOf (s_type shape) with
  | Some SBox =>
      ∃ w h d rest,
        createGeometry shape = Some (mkGeometry "BoxGeometry" (w :: h :: d :: rest) false)
        ∧ body = BoxShape (Some (w * vx scale / 2)) (Some (h * vy scale / 2))
                   (Some (d * vz scale / 2)) convexRadius
  | Some SSphere =>
      ∃ r rest,
        createGeometry shape = Some (mkGeometry "SphereGeometry" (r :: rest) false)
        ∧ body
          = SphereShape (Some (r * Math_max3 (vx scale) (vy scale) (vz scale)))
  | Some SCylinder =>
      ∃ rt rb h rest,
        createGeometry shape
        = Some (mkGeometry "CylinderGeometry" (rt :: rb :: h :: rest) false)
        ∧ (rt = rb →
           body = CylinderShape (Some (h * vy scale / 2))
                    (Some (rt * Math_max (vx scale) (vz scale))))
  | _ => True
  end%Q.
Proof.
  intros Hs. cbv zeta. unfold getScaledShapeDimensions, createGeometry.
  rewrite Hs.
  destruct (shapeKindOf (s_type shape)) as [[]|] eqn:Hk; try done.
  - do 4 eexists. split; [reflexivity|].
    unfold joltShapeOf. cbn [s_type setProp]. rewrite Hk.
    rewrite rawDim_setProp_same.
    rewrite (rawDim_setProp_other "depth" "height"), rawDim_setProp_same by done.
    rewrite (rawDim_setProp_other "depth" "width"),
      (rawDim_setProp_other "height" "width"), rawDim_setProp_same by done.
    reflexivity.
  - do 2 eexists. split; [reflexivity|].
    unfold joltShapeOf. cbn [s_type setProp]. rewrite Hk.
    by rewrite rawDim_setProp_same.
  - do 4 eexists. split; [reflexivity|]. intros Heq.
    unfold joltShapeOf. cbn [s_type setProp]. rewrite Hk.
    rewrite rawDim_setProp_same.
    rewrite (rawDim_setProp_other "height" "radiusTop"),
      (rawDim_setProp_other "radiusBottom" "radiusTop"),
      rawDim_setProp_same by done.
    rewrite (rawDim_setProp_other "height" "radiusBottom"),
      rawDim_setProp_same by done.
    rewrite <- Heq. cbn [sameDim halfDim fmap option_fmap option_map].
    replace (Qeq_bool _ _) with true; [done|].
    symmetry. apply Qeq_bool_iff. reflexivity.
Qed.
End ShapeProps.

(** *** Static bodies for the main layer *)

(** A loop over the indices of an array, with an invariant that knows how
    far the loop has come. *)
Lemma foldl_seq_invariant (P : nat → IsoCard → Prop)
    (f : IsoCard → nat → IsoCard) (n : nat) (s : IsoCard) :
  P 0 s → (∀ k s, k < n → P k s → P (S k) (f s k)) →
  P n (foldl f s (seq 0 n)).
Proof.
  intros H0 Hstep.
  assert (Hgen : ∀ m k s, k + m = n → P k s → P n (foldl f s (seq k m))).
  { induction m as [|m IH]; intros k s' Hk Hs; cbn [seq foldl].
    - by replace n with k by lia.
    - apply IH; [lia|]. apply Hstep; [lia|done]. }
  by apply Hgen.
Qed.

Section StaticProps.
Context `{IsoDeps}.

(** X23. With the engine up, [convertMainLayerToStaticBodies] gives every
    registered mesh of the main layer a new static body on the non-moving
    layer, at the mesh's position and rotation, and marks the handle static.
    It releases nothing: the engine's bodies of before are all still there
    as they were, also those of the meshes that now point at a new body; and
    the dynamic set and the handles' [isDynamic] marks are as before. *)
Theorem static_conversion_keeps_old_bodies (st : IsoCard) :
  jolt st = true → bodyInterface st = true →
  let st' := convertMainLayerToStaticBodies st in
  dynamicObjects st' = dynamicObjects st
  ∧ (e_id <$> objects st') = (e_id <$> objects st)
  ∧ (e_threeObj <$> objects st') = (e_threeObj <$> objects st)
  ∧ (∃ new, world st' = world st ++ new)
  ∧ (∀ r o, heap st !! r = Some o →
       ∃ o', heap st' !! r = Some o'
             ∧ o_position o' = o_position o
             ∧ o_quaternion o' = o_quaternion o
             ∧ ud_isDynamic (o_userData o') = ud_isDynamic (o_userData o))
  ∧ ∀ e mesh, e ∈ objects st → layerOf (e_config e) = "main" →
      heap st !! e_threeObj e = Some mesh → isMesh mesh = true →
      ∃ mesh' b body,
        heap st' !! e_threeObj e = Some mesh'
        ∧ ud_body (o_userData mesh') = Some b
        ∧ ud_isStatic (o_userData mesh') = Some true
        ∧ length (world st) ≤ b
        ∧ world st' !! b = Some body
        ∧ b_motionType body = EMotionType_Static
        ∧ b_layer body = LAYER_NON_MOVING
        ∧ b_position body = o_position mesh
        ∧ b_rotation body = o_quaternion mesh
        ∧ b_added body = true ∧ b_destroyed body = false.
Proof.
  intros Hj Hbi. cbv zeta. unfold convertMainLayerToStaticBodies.
  rewrite Hj, Hbi. simpl.
  pose (P := λ (k : nat) (s : IsoCard),
    dynamicObjects s = dynamicObjects st
    ∧ Forall2 (λ e' e, e_id e' = e_id e ∧ e_threeObj e' = e_threeObj e
                       ∧ layerOf (e_config e') = layerOf (e_config e))
        (objects s) (objects st)
    ∧ (∃ new, world s = world st ++ new)
    ∧ (∀ r o, heap st !! r = Some o →
         ∃ o', heap s !! r = Some o'
               ∧ o_kind o' = o_kind o
               ∧ o_position o' = o_position o
               ∧ o_quaternion o' = o_quaternion o
               ∧ ud_isDynamic (o_userData o') = ud_isDynamic (o_userData o))
    ∧ ∀ i e mesh, i < k → objects st !! i = Some e →
        layerOf (e_config e) = "main" →
        heap st !! e_threeObj e = Some mesh → isMesh mesh = true →
        ∃ mesh' b body,
          heap s !! e_threeObj e = Some mesh'
          ∧ ud_body (o_userData mesh') = Some b
          ∧ ud_isStatic (o_userData mesh') = Some true
          ∧ length (world st) ≤ b
          ∧ world s !! b = Some body
          ∧ b_motionType body = EMotionType_Static
          ∧ b_layer body = LAYER_NON_MOVING
          ∧ b_position body = o_position mesh
          ∧ b_rotation body = o_quaternion mesh
          ∧ b_added body = true ∧ b_destroyed body = false).
  assert (Hfin : P (length (objects st))
                   (foldl convertEntryToStatic st
                      (seq 0 (length (objects st))))).
  { apply foldl_seq_invariant.
    - unfold P. split; [done|]. split.
      { apply Forall2_same_length_lookup_2; [done|]. intros i e' e He' He.
        rewrite He' in He. by injection He as <-. }
      split; [exists []; by rewrite app_nil_r|]. split.
      { intros r o Ho. by exists o. }
      intros i e mesh Hi. lia.
    - intros k s Hk (Hd & Hobj & [new Hw] & Hheap & Hdone).
      destruct (lookup_lt_is_Some_2 (objects st) k Hk) as [e He].
      destruct (Forall2_lookup_r _ _ _ _ _ Hobj He)
        as (e' & He' & Hid & Hr & Hlay).
      unfold convertEntryToStatic. rewrite He'.
      destruct (heap s !! e_threeObj e') as [m|] eqn:Hm.
      2: { (* the handle is not allocated: not so in [st] either *)
        unfold P. split; [done|]. split; [done|]. split; [by exists new|].
        split; [done|]. intros i e0 mesh Hi He0 Hmain Hmesh Hmm.
        destruct (decide (i = k)) as [->|Hne].
        - rewrite He in He0. injection He0 as <-.
          rewrite <- Hr in Hmesh.
          destruct (Hheap _ _ Hmesh) as (o' & Ho' & _). congruence.
        - apply (Hdone i e0 mesh); [lia|done..]. }
      destruct (String.eqb (layerOf (e_config e')) "main" && isMesh m)
        eqn:Htest.
      2: { unfold P. split; [done|]. split; [done|]. split; [by exists new|].
        split; [done|]. intros i e0 mesh Hi He0 Hmain Hmesh Hmm.
        destruct (decide (i = k)) as [->|Hne].
        - rewrite He in He0. injection He0 as <-.
          rewrite <- Hr in Hmesh.
          destruct (Hheap _ _ Hmesh) as (o' & Ho' & Hkind & _).
          rewrite Hm in Ho'. injection Ho' as <-.
          rewrite Hlay, Hmain in Htest. simpl in Htest.
          unfold isMesh in Htest, Hmm. rewrite Hkind in Htest. congruence.
        - apply (Hdone i e0 mesh); [lia|done..]. }
      (* the entry is converted *)
      set (body := mkBody _ _ _ _ _ _ _ _ _ _ _ _ _ _).
      set (bind := λ o : ThreeObj, set_o_userData _ o).
      set (entry := mkEntry _ _ _).
      assert (Hheap' : ∀ r, heap (setEntry k entry
                 (modify (e_threeObj e') bind
                    (set_world (world s ++ [body]) s))) !! r
               = if decide (e_threeObj e' = r) then Some (bind m)
                 else heap s !! r).
      { intros r. unfold setEntry; simpl.
        rewrite (heap_modify (e_threeObj e') r). simpl.
        case_decide; [subst r; by rewrite Hm|done]. }
      unfold P. split.
      { unfold setEntry; simpl. by rewrite dynamicObjects_modify. }
      split.
      { unfold setEntry; simpl. rewrite objects_modify; simpl.
        apply Forall2_same_length_lookup_2.
        { rewrite length_insert. by eapply Forall2_length. }
        intros i x y Hx Hy.
        destruct (decide (i = k)) as [->|Hne].
        - rewrite list_lookup_insert_eq in Hx by (by eapply lookup_lt_Some).
          injection Hx as <-. rewrite He in Hy. injection Hy as <-.
          subst entry; simpl. by rewrite <- Hlay.
        - rewrite list_lookup_insert_ne in Hx by done.
          exact (Forall2_lookup_lr _ _ _ _ _ _ Hobj Hx Hy). }
      split.
      { exists (new ++ [body]). unfold setEntry; simpl.
        rewrite world_modify; simpl. by rewrite Hw, app_assoc. }
      split.
      { intros r o Ho. destruct (Hheap r o Ho) as (o' & Ho' & Hk' & Hp' & Hq' & Hd').
        rewrite Hheap'. case_decide as Hre.
        - subst r. rewrite Hm in Ho'. injection Ho' as <-.
          exists (bind m). by subst bind.
        - by exists o'. }
      intros i e0 mesh Hi He0 Hmain Hmesh Hmm.
      assert (Hw' : world (setEntry k entry
                 (modify (e_threeObj e') bind
                    (set_world (world s ++ [body]) s)))
               = world s ++ [body]).
      { unfold setEntry; simpl. by rewrite world_modify. }
      destruct (Hheap _ _ Hmesh) as (o' & Ho' & Hk' & Hp' & Hq' & Hd').
      rewrite Hheap', Hw'.
      destruct (decide (e_threeObj e' = e_threeObj e0)) as [Hre|Hre].
      + rewrite Hre in Hm. rewrite Hm in Ho'. injection Ho' as <-.
        exists (bind m), (length (world s)), body.
        split; [done|]. split; [done|]. split; [done|].
        split; [rewrite Hw, length_app; lia|].
        split; [by rewrite lookup_app_r, Nat.sub_diag by lia|].
        by subst body.
      + assert (i ≠ k) as Hne by (intros ->; congruence).
        destruct (Hdone i e0 mesh) as (mesh' & b & body0 & ? & ? & ? & ? & ? & ?);
          [lia|done..|].
        exists mesh', b, body0. split; [done|]. split; [done|].
        split; [done|]. split; [done|].
        split; [by apply lookup_app_l_Some|done]. }
  destruct Hfin as (Hd & Hobj & Hw & Hheap & Hdone).
  split; [done|]. split.
  { apply list_eq_Forall2, Forall2_fmap, (Forall2_impl _ _ _ _ Hobj).
    by intros x y (? & _). }
  split.
  { apply list_eq_Forall2, Forall2_fmap, (Forall2_impl _ _ _ _ Hobj).
    by intros x y (_ & ? & _). }
  split; [done|]. split.
  { intros r o Ho. destruct (Hheap r o Ho) as (o' & ? & ? & ? & ? & ?).
    by exists o'. }
  intros e mesh [i Hi]%list_elem_of_lookup_1 Hmain Hmesh Hmm.
  apply (Hdone i e mesh); [by eapply lookup_lt_Some|done..].
Qed.
End StaticProps.

(** *** Physics for the objects that declare it *)

Lemma findIndex_NoDup (l : list Entry) (i : nat) (e : Entry) :
  NoDup (e_id <$> l) → l !! i = Some e → findIndex (e_id e) l = Some i.
Proof.
  revert i. induction l as [|x l IH]; intros i Hnd Hi; [done|].
  rewrite fmap_cons in Hnd. apply NoDup_cons in Hnd as [Hx Hnd].
  destruct i as [|i]; simpl in *.
  - injection Hi as ->. by rewrite decide_True.
  - rewrite decide_False.
    + by rewrite (IH i Hnd Hi).
    + intros Heq. apply Hx. rewrite Heq.
      apply list_elem_of_fmap_2. by eapply list_elem_of_lookup_2.
Qed.

Section DeclaredProps.
Context `{IsoDeps}.

(** What a successful [convertObjectToDynamic] writes, and what it leaves. *)
Lemma convert_step (id : Id) (pc : PhysicsConfig) (st : IsoCard)
    (index : nat) (item : Entry) (mesh : ThreeObj) :
  jolt st = true → jInterface st = true → bodyInterface st = true →
  findIndex id (objects st) = Some index →
  objects st !! index = Some item →
  heap st !! e_threeObj item = Some mesh →
  isMesh mesh = true →
  let st' := (convertObjectToDynamic id pc st).1 in
  let r := e_threeObj item in
  (jolt st' = true ∧ jInterface st' = true ∧ bodyInterface st' = true)
  ∧ objects st'
    = <[index := mkEntry (e_id item) r (set_c_physics (Some pc) (e_config item))]>
        (objects st)
  ∧ (∀ r', r' ≠ r → heap st' !! r' = heap st !! r')
  ∧ (∃ mesh', heap st' !! r = Some mesh'
              ∧ o_kind mesh' = o_kind mesh
              ∧ o_position mesh' = o_position mesh
              ∧ o_quaternion mesh' = o_quaternion mesh
              ∧ ud_body (o_userData mesh') = Some (length (world st)))
  ∧ (∀ b, ud_body (o_userData mesh) ≠ Some b → b < length (world st) →
       world st' !! b = world st !! b)
  ∧ (∃ body, world st' !! length (world st) = Some body
             ∧ b_motionType body = motionTypeOf pc
             ∧ b_position body = o_position mesh
             ∧ b_rotation body = o_quaternion mesh
             ∧ b_added body = true ∧ b_destroyed body = false)
  ∧ dynamicObjects st'
    = if decide (motionTypeOf pc = EMotionType_Dynamic) then
        if includes r (dynamicObjects st) then dynamicObjects st
        else dynamicObjects st ++ [r]
      else removeFirst r (dynamicObjects st).
Proof.
  intros Hj Hji Hbi Hi Hitem Hmesh Hm. cbv zeta.
  rewrite (convert_unfold id pc st index item mesh) by done. cbv zeta.
  cbn [fst].
  set (r := e_threeObj item).
  set (st1 := releaseOldBody r mesh st).
  assert (H1 : jolt st1 = jolt st ∧ jInterface st1 = jInterface st
               ∧ bodyInterface st1 = bodyInterface st
               ∧ objects st1 = objects st
               ∧ dynamicObjects st1 = dynamicObjects st
               ∧ length (world st1) = length (world st)
               ∧ (∀ r', r' ≠ r → heap st1 !! r' = heap st !! r')
               ∧ ∃ m1, heap st1 !! r = Some m1
                       ∧ o_kind m1 = o_kind mesh
                       ∧ o_position m1 = o_position mesh
                       ∧ o_quaternion m1 = o_quaternion mesh).
  { subst st1. unfold releaseOldBody.
    destruct (ud_body (o_userData mesh)) as [old|].
    - rewrite objects_modify, objects_modifyBody, dynamicObjects_modify,
        dynamicObjects_modifyBody, bodyInterface_modify,
        bodyInterface_modifyBody, world_modify, length_world_modifyBody.
      split; [by unfold modify, modifyBody; repeat case_match|].
      split; [by unfold modify, modifyBody; repeat case_match|].
      do 4 (split; [done|]). split.
      + intros r' Hne. by rewrite heap_modify_ne, heap_modifyBody.
      + rewrite heap_modify_eq, heap_modifyBody. fold r in Hmesh.
        rewrite Hmesh. by eexists.
    - do 6 (split; [done|]). split; [done|]. by exists mesh. }
  destruct H1 as (Hj1 & Hji1 & Hbi1 & Ho1 & Hd1 & Hl1 & Hfr1 & m1 & Hm1 & Hk1
                  & Hp1 & Hq1).
  set (body := createBody _ _ _ _).
  set (st2 := set_world (world st1 ++ [body]) st1).
  set (st3 := modify r (bindBody (length (world st1)) pc) st2).
  set (entry := mkEntry _ _ _).
  set (st4 := setEntry index entry st3).
  assert (Hflags : ∀ mt, jolt (trackDynamic r mt st4) = jolt st
                         ∧ jInterface (trackDynamic r mt st4) = jInterface st
                         ∧ bodyInterface (trackDynamic r mt st4)
                           = bodyInterface st).
  { intros mt. rewrite <- Hj1, <- Hji1, <- Hbi1.
    unfold trackDynamic, st4, setEntry, st3, modify, st2.
    by repeat case_match. }
  destruct (Hflags (motionTypeOf pc)) as (-> & -> & ->).
  split; [done|].
  assert (Hobj : objects (trackDynamic r (motionTypeOf pc) st4)
                 = <[index := entry]> (objects st)).
  { assert (objects st4 = <[index := entry]> (objects st)) as <-.
    { unfold st4, setEntry; simpl. unfold st3. rewrite objects_modify.
      unfold st2; simpl. by rewrite Ho1. }
    unfold trackDynamic. by repeat case_match. }
  split; [done|].
  rewrite heap_trackDynamic, world_trackDynamic, dynamicObjects_trackDynamic.
  assert (Hh4 : ∀ r', heap st4 !! r'
                = if decide (r = r')
                  then Some (bindBody (length (world st1)) pc m1)
                  else heap st1 !! r').
  { intros r'. unfold st4, setEntry; simpl. unfold st3.
    rewrite (heap_modify r r'). unfold st2; simpl.
    case_decide; [subst r'; by rewrite Hm1|done]. }
  assert (Hw4 : world st4 = world st1 ++ [body]).
  { unfold st4, setEntry; simpl. unfold st3. by rewrite world_modify. }
  assert (Hd4 : dynamicObjects st4 = dynamicObjects st).
  { unfold st4, setEntry; simpl. unfold st3.
    by rewrite dynamicObjects_modify. }
  split.
  { intros r' Hne. rewrite Hh4, decide_False by done. by apply Hfr1. }
  split.
  { eexists. rewrite Hh4, decide_True by done. split; [done|]. simpl.
    by rewrite Hl1. }
  split.
  { intros b Hb Hlt. rewrite Hw4, lookup_app_l by lia.
    subst st1. rewrite world_releaseOldBody. by rewrite decide_False. }
  split.
  { exists body. rewrite Hw4, <- Hl1, lookup_app_r, Nat.sub_diag by lia.
    by subst body. }
  by rewrite Hd4.
Qed.

(** X24. In a reachable state whose entries have pairwise distinct ids,
    [initializeScenePhysics] (with an engine module that loads) leaves the
    engine set up and the registry as it was, and every registered mesh
    whose descriptor has a [physics] key points, at the end, at a body that
    is in the world, has the declared motion type and stands at the mesh's
    position and rotation; the mesh is in the dynamic set exactly if that
    motion type is dynamic. *)
Theorem initializeScenePhysics_attaches_declared (st : IsoCard) :
  reachable st → NoDup (e_id <$> objects st) →
  let st' := initializeScenePhysics st in
  isPhysicsInitialized st' = true
  ∧ objects st' = objects st
  ∧ ∀ e pc mesh, e ∈ objects st → c_physics (e_config e) = Some pc →
      heap st !! e_threeObj e = Some mesh → isMesh mesh = true →
      ∃ mesh' b body,
        heap st' !! e_threeObj e = Some mesh'
        ∧ ud_body (o_userData mesh') = Some b
        ∧ world st' !! b = Some body
        ∧ b_motionType body = motionTypeOf pc
        ∧ b_position body = o_position mesh
        ∧ b_rotation body = o_quaternion mesh
        ∧ b_added body = true ∧ b_destroyed body = false
        ∧ (e_threeObj e ∈ dynamicObjects st'
           ↔ motionTypeOf pc = EMotionType_Dynamic).
Proof.
  intros Hr Hids. cbv zeta. unfold initializeScenePhysics.
  pose proof (reachable_wellFormed st Hr) as Hwf.
  set (s0 := if negb (jolt st) || negb (jInterface st)
             then setupJOLT st else st).
  assert (Hwf0 : wellFormed s0).
  { subst s0. case_match; [by apply wellFormed_setupJOLT|done]. }
  assert (Hup0 : jolt s0 = true ∧ jInterface s0 = true
                 ∧ bodyInterface s0 = true).
  { destruct Hwf as [_ _ _ _ _ _ _ _ Hbi _ _ _].
    unfold skeleton in Hbi; simpl in Hbi. subst s0.
    unfold setupJOLT.
    destruct (jolt st) eqn:Hj, (jInterface st) eqn:Hji; by simpl. }
  assert (Hsame0 : heap s0 = heap st ∧ objects s0 = objects st).
  { subst s0. case_match; [|done]. unfold setupJOLT. by case_match. }
  destruct Hup0 as (Hj0 & Hji0 & Hbi0). destruct Hsame0 as [Hh0 Ho0].
  set (s1 := createFloor 50 s0).
  assert (Hwf1 : wellFormed s1) by by apply wellFormed_createFloor.
  assert (H1 : jolt s1 = true ∧ jInterface s1 = true ∧ bodyInterface s1 = true
               ∧ objects s1 = objects st
               ∧ ∀ r o, heap st !! r = Some o → heap s1 !! r = Some o).
  { subst s1. unfold createFloor. rewrite Hj0, Hbi0. simpl.
    do 3 (split; [done|]). split; [done|].
    intros r o Ho. rewrite Hh0. by apply lookup_app_l_Some. }
  destruct H1 as (Hj1 & Hji1 & Hbi1 & Ho1 & Hh1).
  clearbody s1. clear s0 Hwf0 Hj0 Hji0 Hbi0 Hh0 Ho0.
  rewrite Ho1.
  pose (P := λ (k : nat) (s : IsoCard),
    wellFormed s
    ∧ (jolt s = true ∧ jInterface s = true ∧ bodyInterface s = true)
    ∧ objects s = objects st
    ∧ (∀ r o, heap st !! r = Some o →
         ∃ o', heap s !! r = Some o'
               ∧ o_kind o' = o_kind o
               ∧ o_position o' = o_position o
               ∧ o_quaternion o' = o_quaternion o)
    ∧ ∀ i e pc mesh, i < k → objects st !! i = Some e →
        c_physics (e_config e) = Some pc →
        heap st !! e_threeObj e = Some mesh → isMesh mesh = true →
        ∃ mesh' b body,
          heap s !! e_threeObj e = Some mesh'
          ∧ ud_body (o_userData mesh') = Some b
          ∧ world s !! b = Some body
          ∧ b_motionType body = motionTypeOf pc
          ∧ b_position body = o_position mesh
          ∧ b_rotation body = o_quaternion mesh
          ∧ b_added body = true ∧ b_destroyed body = false
          ∧ (e_threeObj e ∈ dynamicObjects s
             ↔ motionTypeOf pc = EMotionType_Dynamic)).
  assert (Hfin : P (length (objects st))
                   (foldl attachDeclared s1 (seq 0 (length (objects st))))).
  { apply foldl_seq_invariant.
    - unfold P. split; [done|]. split; [done|]. split; [done|]. split.
      { intros r o Ho. exists o. by rewrite (Hh1 r o Ho). }
      intros i e pc mesh Hi. lia.
    - intros k s Hk (Hwfs & (Hjs & Hjis & Hbis) & Hos & Hheap & Hdone).
      destruct (lookup_lt_is_Some_2 (objects st) k Hk) as [e He].
      assert (Hkeep : attachDeclared s k = s → P (S k) s →  P (S k) (attachDeclared s k))
        by (by intros ->).
      assert (Hskip : (∀ pc mesh, c_physics (e_config e) = Some pc →
                         heap st !! e_threeObj e = Some mesh →
                         isMesh mesh = true → False) → P (S k) s).
      { intros Hno. unfold P. split; [done|]. split; [done|]. split; [done|].
        split; [done|]. intros i e0 pc mesh Hi He0 Hpc Hmesh Hmm.
        destruct (decide (i = k)) as [->|Hne].
        - rewrite He in He0. injection He0 as <-. by destruct (Hno pc mesh).
        - apply (Hdone i e0 pc mesh); [lia|done..]. }
      unfold attachDeclared. rewrite Hos, He.
      destruct (c_physics (e_config e)) as [pc|] eqn:Hpc;
        [|by apply Hskip].
      assert (Hfi : findIndex (e_id e) (objects s) = Some k).
      { rewrite Hos. by apply findIndex_NoDup. }
      destruct (heap s !! e_threeObj e) as [m|] eqn:Hm.
      2: { replace (convertObjectToDynamic (e_id e) pc s) with (s, false).
           - apply Hskip. intros pc' mesh _ Hmesh _.
             destruct (Hheap _ _ Hmesh) as (o' & Ho' & _). congruence.
           - unfold convertObjectToDynamic.
             by rewrite Hjs, Hjis, Hfi, Hos, He, Hm. }
      destruct (isMesh m) eqn:Hmm.
      2: { replace (convertObjectToDynamic (e_id e) pc s) with (s, false).
           - apply Hskip. intros pc' mesh _ Hmesh Hmm'.
             destruct (Hheap _ _ Hmesh) as (o' & Ho' & Hk' & _).
             rewrite Hm in Ho'. injection Ho' as <-.
             unfold isMesh in Hmm, Hmm'. rewrite Hk' in Hmm. congruence.
           - unfold convertObjectToDynamic.
             by rewrite Hjs, Hjis, Hfi, Hos, He, Hm, Hmm. }
      rewrite <- Hos in He.
      destruct (convert_step (e_id e) pc s k e m Hjs Hjis Hbis Hfi He Hm Hmm)
        as (Hup' & Hobj' & Hfr' & (m' & Hm' & Hk' & Hp' & Hq' & Hb')
            & Hw' & (body & Hbody & Hmt & Hbp & Hbq & Hadd & Hdes) & Hdyn').
      cbv zeta in *.
      set (s' := (convertObjectToDynamic (e_id e) pc s).1) in *.
      assert (Hobjs' : objects s' = objects st).
      { rewrite Hobj', <- Hos. apply list_insert_id. rewrite He.
        f_equal. destruct e as [eid er ec]; simpl in *. f_equal.
        destruct ec; simpl in *. by subst. }
      unfold P. split; [by apply wellFormed_convertObjectToDynamic|].
      split; [done|]. split; [done|]. split.
      { intros r o Ho. destruct (Hheap r o Ho) as (o' & Ho' & ? & ? & ?).
        destruct (decide (r = e_threeObj e)) as [->|Hne].
        - rewrite Hm in Ho'. injection Ho' as <-. exists m'.
          split; [done|]. split; [congruence|]. split; congruence.
        - exists o'. by rewrite Hfr'. }
      rewrite Hos in He.
      intros i e0 pc0 mesh Hi He0 Hpc0 Hmesh Hmesh'.
      destruct (Hheap _ _ Hmesh) as (o' & Ho' & Hko & Hpo & Hqo).
      destruct (decide (i = k)) as [->|Hne].
      + rewrite He in He0. injection He0 as <-.
        rewrite Hpc in Hpc0. injection Hpc0 as <-.
        rewrite Hm in Ho'. injection Ho' as <-.
        exists m', (length (world s)), body.
        split; [done|]. split; [done|]. split; [done|].
        split; [done|]. split; [congruence|]. split; [congruence|].
        split; [done|]. split; [done|].
        rewrite Hdyn'. case_decide as Hdy.
        * split; [done|]. intros _. unfold includes. case_bool_decide; [done|].
          apply elem_of_app. right. by apply list_elem_of_singleton.
        * split; [|done]. intros Hin. exfalso. revert Hin.
          apply removeFirst_not_in. by destruct Hwfs.
      + assert (Hrne : e_threeObj e0 ≠ e_threeObj e).
        { intros Heq. apply Hne.
          destruct Hwf as [_ _ _ _ Hhn _ _ _ _ _ _ _].
          unfold skeleton in Hhn; simpl in Hhn.
          apply (NoDup_lookup _ i k (e_threeObj e0) Hhn);
            rewrite list_lookup_fmap; [by rewrite He0|].
          by rewrite He, Heq. }
        destruct (Hdone i e0 pc0 mesh) as
          (mesh' & b & body0 & Hme & Hbe & Hwe & ? & ? & ? & ? & ? & Hin);
          [lia|done..|].
        exists mesh', b, body0. rewrite Hfr' by done.
        split; [done|]. split; [done|]. split.
        { rewrite Hw'; [done| |by eapply lookup_lt_Some].
          intros Hshare. apply Hrne.
          apply (wellFormed_bodiesUnshared s Hwfs _ _ mesh' m b);
            done. }
        do 5 (split; [done|]).
        rewrite <- Hin, Hdyn'. case_decide.
        * unfold includes. case_bool_decide; [done|].
          rewrite elem_of_app, list_elem_of_singleton. intuition.
        * by apply elem_of_removeFirst_ne. }
  destruct Hfin as (Hwfs & (Hjs & Hjis & Hbis) & Hos & Hheap & Hdone).
  split; [unfold isPhysicsInitialized; by rewrite Hjs, Hjis, Hbis|].
  split; [done|].
  intros e pc mesh [i Hi]%list_elem_of_lookup_1 Hpc Hmesh Hmm.
  apply (Hdone i e pc mesh); [by eapply lookup_lt_Some|done..].
Qed.
End DeclaredProps.

(** *** The floor across a reset *)

Lemma releaseBodyOf_other (r0 r : nat) (st : IsoCard) :
  r ≠ r0 →
  heap (releaseBodyOf r0 st) !! r = heap st !! r
  ∧ scene (releaseBodyOf r0 st) = scene st
  ∧ dynamicObjects (releaseBodyOf r0 st) = dynamicObjects st.
Proof.
  intros Hne. unfold releaseBodyOf.
  destruct (heap st !! r0) as [o|]; [|done].
  destruct (ud_body (o_userData o)) as [b|]; [|done].
  rewrite heap_modify_ne, scene_modify, dynamicObjects_modify by done.
  destruct (bodyInterface st); [|done].
  rewrite heap_modifyBody, dynamicObjects_modifyBody.
  split; [done|]. split; [|done]. unfold modifyBody. by case_match.
Qed.

Lemma foldl_invariant_in {A} (P : IsoCard → Prop)
    (f : IsoCard → A → IsoCard) (l : list A) (st : IsoCard) :
  (∀ s x, x ∈ l → P s → P (f s x)) → P st → P (foldl f st l).
Proof.
  revert st. induction l as [|x l IH]; intros st Hf Hst; simpl; [done|].
  apply IH.
  - intros s y Hy. apply Hf. by right.
  - apply Hf; [by left|done].
Qed.

Lemma resetEntry_other (st : IsoCard) (i r : nat) :
  r ∉ (e_threeObj <$> objects st) →
  heap (resetEntry st i) !! r = heap st !! r
  ∧ scene (resetEntry st i) = scene st
  ∧ dynamicObjects (resetEntry st i) = dynamicObjects st
  ∧ (e_threeObj <$> objects (resetEntry st i)) = (e_threeObj <$> objects st).
Proof.
  intros Hr. unfold resetEntry.
  destruct (objects st !! i) as [e|] eqn:He; [|done].
  destruct (hasBody st (e_threeObj e)); [|done].
  assert (Hne : r ≠ e_threeObj e).
  { intros ->. apply Hr, list_elem_of_fmap_2. by eapply list_elem_of_lookup_2. }
  destruct (releaseBodyOf_other (e_threeObj e) r st Hne) as (Hh & Hs & Hd).
  unfold setEntry; simpl. do 3 (split; [done|]).
  rewrite releaseBodyOf_objects, list_fmap_insert. simpl.
  apply list_insert_id. by rewrite list_lookup_fmap, He.
Qed.

(** A handle that is neither in the registry nor in the dynamic set is not
    written by [resetPhysics], and the scene is not changed. *)
Lemma resetPhysics_other (st : IsoCard) (r : nat) :
  r ∉ (e_threeObj <$> objects st) → r ∉ dynamicObjects st →
  heap (resetPhysics st) !! r = heap st !! r
  ∧ scene (resetPhysics st) = scene st
  ∧ (e_threeObj <$> objects (resetPhysics st)) = (e_threeObj <$> objects st).
Proof.
  intros Hr Hd. unfold resetPhysics.
  destruct (negb (jolt st) || negb (jInterface st)); [done|].
  set (st0 := set_isPhysicsRunning false st).
  set (st1 := foldl resetEntry st0 (seq 0 (length (objects st0)))).
  assert (H1 : heap st1 !! r = heap st !! r ∧ scene st1 = scene st
               ∧ dynamicObjects st1 = dynamicObjects st
               ∧ (e_threeObj <$> objects st1) = (e_threeObj <$> objects st)).
  { subst st1.
    apply (foldl_invariant
             (λ s, heap s !! r = heap st !! r ∧ scene s = scene st
                   ∧ dynamicObjects s = dynamicObjects st
                   ∧ (e_threeObj <$> objects s) = (e_threeObj <$> objects st)));
      [|done].
    intros s i (Hh & Hs & Hdy & Ho).
    destruct (resetEntry_other s i r) as (-> & -> & -> & ->);
      [by rewrite Ho|done]. }
  destruct H1 as (Hh1 & Hs1 & Hd1 & Ho1). rewrite Hd1. clearbody st1.
  simpl.
  apply (foldl_invariant_in
           (λ s, heap s !! r = heap st !! r ∧ scene s = scene st
                 ∧ (e_threeObj <$> objects s) = (e_threeObj <$> objects st)));
    [|done].
  intros s r0 Hin (Hh & Hs & Ho).
  destruct (releaseBodyOf_other r0 r s) as (-> & -> & _);
    [by intros ->|].
  by rewrite releaseBodyOf_objects.
Qed.

Section FloorProps.
Context `{IsoDeps}.

(** X25. The floor outlives a reset.  In a reachable state with the engine
    up, the mesh [createFloor] makes is in the scene but in neither the
    registry nor the dynamic set, so [resetPhysics], which shuts the engine
    down, passes it by: the floor mesh is still in the scene afterwards and
    its [userData.body] still names the body it had. *)
Theorem floor_survives_reset (size : Q) (st : IsoCard) :
  reachable st → jInterface st = true →
  let r := length (heap st) in
  let st' := resetPhysics (createFloor size st) in
  jInterface st' = false
  ∧ Node r ∈ scene st'
  ∧ (∀ e, e ∈ objects st' → e_threeObj e ≠ r)
  ∧ ∃ floor,
      heap st' !! r = Some floor
      ∧ isMesh floor = true
      ∧ ud_body (o_userData floor) = Some (length (world st)).
Proof.
  intros Hr Hji. cbv zeta.
  destruct (reachable_wellFormed st Hr)
    as [Hdn Hdb Hdy Hdj Hhn Hhb Hu Ht Hbi Hps Hj Hc].
  unfold skeleton in Hdb, Hhb, Hbi, Hj; simpl in Hdb, Hhb, Hbi, Hj.
  rewrite length_fmap in Hdb, Hhb.
  assert (Hjolt : jolt st = true) by by apply Hj.
  assert (Hb : bodyInterface st = true) by by rewrite Hbi.
  set (st1 := createFloor size st).
  assert (H1 : jolt st1 = true ∧ jInterface st1 = true
               ∧ objects st1 = objects st
               ∧ dynamicObjects st1 = dynamicObjects st
               ∧ Node (length (heap st)) ∈ scene st1
               ∧ ∃ floor, heap st1 !! length (heap st) = Some floor
                          ∧ isMesh floor = true
                          ∧ ud_body (o_userData floor)
                            = Some (length (world st))).
  { subst st1. unfold createFloor. rewrite Hjolt, Hb. simpl.
    do 4 (split; [done|]). split.
    - apply elem_of_app. right. by apply list_elem_of_singleton.
    - eexists. rewrite lookup_app_r, Nat.sub_diag by lia. by simpl. }
  destruct H1 as (Hj1 & Hji1 & Ho1 & Hd1 & Hs1 & floor & Hf1 & Hm1 & Hb1).
  clearbody st1.
  assert (Hnr : length (heap st) ∉ (e_threeObj <$> objects st1)).
  { rewrite Ho1. intros Hin. rewrite Forall_forall in Hhb.
    apply Hhb in Hin. lia. }
  assert (Hnd : length (heap st) ∉ dynamicObjects st1).
  { rewrite Hd1. intros Hin. rewrite Forall_forall in Hdb.
    apply Hdb in Hin. lia. }
  destruct (resetPhysics_other st1 (length (heap st)) Hnr Hnd)
    as (Hh' & Hs' & Ho').
  split.
  { unfold resetPhysics. by rewrite Hj1, Hji1. }
  split; [by rewrite Hs'|]. split.
  { intros e He Heq. apply Hnr. rewrite <- Ho', <- Heq.
    by apply list_elem_of_fmap_2. }
  exists floor. by rewrite Hh'.
Qed.
End FloorProps.

(** *** Attaching in batches *)

Section BatchProps.
Context `{IsoDeps}.

(** X26. [batchConvertToPhysics] without an engine converts nothing and
    reports no counts.  With the engine up it is [convertObjectToDynamic]
    applied to the ids one after the other, in the order given (an id
    listed twice is converted twice), and every id is counted once, as a
    success or as a failure. *)
Theorem batchConvertToPhysics_is_sequential (objectIds : list Id)
    (pc : PhysicsConfig) (st : IsoCard) :
  let result := batchConvertToPhysics objectIds pc st in
  (negb (jolt st) || negb (jInterface st) = true → result = (st, None))
  ∧ (negb (jolt st) || negb (jInterface st) = false →
     ∃ successCount failedObjects,
       result.2 = Some (successCount, failedObjects)
       ∧ result.1
         = foldl (λ s id, (convertObjectToDynamic id pc s).1) st objectIds
       ∧ successCount + length failedObjects = length objectIds).
Proof.
  cbv zeta. unfold batchConvertToPhysics.
  destruct (negb (jolt st) || negb (jInterface st)); [by split|].
  split; [done|]. intros _.
  match goal with
  | |- context [foldl ?f _ _] => set (step := f)
  end.
  assert (Hgen : ∀ l s n failed,
            ∃ n' failed',
              foldl step (s, (n, failed)) l
              = (foldl (λ s id, (convertObjectToDynamic id pc s).1) s l,
                 (n', failed'))
              ∧ n' + length failed' = n + length failed + length l).
  { induction l as [|id l IH]; intros s n failed; cbn [foldl].
    - exists n, failed. split; [done|]. simpl. lia.
    - unfold step at 2.
      destruct (convertObjectToDynamic id pc s) as [s' []]; cbn [fst].
      + destruct (IH s' (S n) failed) as (n' & failed' & -> & Hlen).
        exists n', failed'. split; [done|]. simpl in *. lia.
      + destruct (IH s' n
                    (failed ++ [match find id (objects s') with
                                | Some obj => c_name (e_config obj)
                                | None => Some ("Object " +:+ idToString id)
                                end]))
          as (n' & failed' & -> & Hlen).
        exists n', failed'. split; [done|].
        rewrite length_app in Hlen. simpl in *. lia. }
  destruct (Hgen objectIds st 0%nat []) as (n' & failed' & -> & Hlen).
  exists n', failed'. simpl in *. split; [done|]. split; [done|]. lia.
Qed.
End BatchProps.

(** * The theorems at concrete inputs *)

Lemma brick_carriesDims : carriesDims SBox brick.
Proof.
  intros key d Hin. dims_cases Hin; eexists; split; reflexivity.
Defined.

(** [scaled_shape_identity] on the 2 x 1 x 3 box: the descriptor comes back
    as it is. *)
Lemma scaled_shape_identity_brick :
  getScaledShapeDimensions (meshConfig None brick vec0) (newObject3D KMesh)
    = Some brick
  ∧ createGeometry brick
    = Some (mkGeometry "BoxGeometry" [2; 1; 3; 1; 1; 1]%Q false).
Proof.
  destruct (scaled_shape_identity (meshConfig None brick vec0)
              (newObject3D KMesh) brick SBox)
    as (s' & Hs & _ & _ & _ & _ & Heq); try reflexivity.
  rewrite <- (Heq brick_carriesDims) at 2. split; [exact Hs|reflexivity].
Defined.

(** [attach_layer_by_motion_type] on the box "a" attached as static. *)
Lemma attach_layer_static_box :
  let st' :=
    (convertObjectToDynamic (H := stillEngine) (IdStr "a") (motion "static")
       readyBox).1 in
  ∃ item mesh b body,
    find (IdStr "a") (objects readyBox) = Some item
    ∧ heap st' !! e_threeObj item = Some mesh
    ∧ ud_body (o_userData mesh) = Some b
    ∧ world st' !! b = Some body
    ∧ b_motionType body = motionTypeOf (motion "static")
    ∧ b_layer body = objectLayerOf (b_motionType body)
    ∧ (b_motionType body = EMotionType_Static → b_layer body = LAYER_NON_MOVING)
    ∧ (b_motionType body = EMotionType_Kinematic → b_layer body = LAYER_MOVING)
    ∧ (b_motionType body = EMotionType_Dynamic → b_layer body = LAYER_MOVING).
Proof.
  apply (attach_layer_by_motion_type (H := stillEngine) (IdStr "a")
           (motion "static") readyBox).
  vm_compute. reflexivity.
Defined.

(** [dynamic_set_membership] on the box "a" attached as dynamic. *)
Lemma dynamic_set_membership_box :
  let st' :=
    (convertObjectToDynamic (H := stillEngine) (IdStr "a") (motion "dynamic")
       readyBox).1 in
  ∃ item,
    find (IdStr "a") (objects readyBox) = Some item
    ∧ (e_threeObj item ∈ dynamicObjects st'
       ↔ motionTypeOf (motion "dynamic") = EMotionType_Dynamic)
    ∧ NoDup (dynamicObjects st')
    ∧ (∀ r, r ≠ e_threeObj item →
         r ∈ dynamicObjects st' ↔ r ∈ dynamicObjects readyBox).
Proof.
  apply (dynamic_set_membership (H := stillEngine) (IdStr "a")
           (motion "dynamic") readyBox).
  - vm_compute. constructor.
  - vm_compute. reflexivity.
Defined.

Lemma twoBoxes_bodiesUnshared : bodiesUnshared twoBoxes.
Proof.
  intros r1 r2 o1 o2 b H1 H2 Hb1 Hb2.
  destruct r1 as [|[|r1]], r2 as [|[|r2]]; try reflexivity;
    vm_compute in H1, H2; simplify_eq; vm_compute in Hb1, Hb2; congruence.
Defined.

Lemma twoBoxes_ids : NoDup (e_id <$> objects twoBoxes).
Proof.
  vm_compute. apply NoDup_cons. split.
  - rewrite list_elem_of_singleton. congruence.
  - apply NoDup_singleton.
Defined.

Lemma twoBoxes_second :
  ∃ e o body,
    e ∈ objects twoBoxes
    ∧ heap twoBoxes !! e_threeObj e = Some o
    ∧ isMesh o || isGroup o = true
    ∧ ud_body (o_userData o) = Some 0%nat
    ∧ world twoBoxes !! 0%nat = Some body
    ∧ o_position o = mkVec3 5 0 0.
Proof.
  eexists _, _, _. split.
  { eapply (list_elem_of_lookup_2 _ 1%nat). vm_compute. reflexivity. }
  split; [|split; [|split; [|split]]]; vm_compute; reflexivity.
Qed.

(** [stop_after_start_is_identity] on two boxes, one with a body: the
    handles are as before and the body of "b" is at rest at (5,0,0). *)
Lemma stop_after_start_two_boxes :
  let st1 := (startPhysics twoBoxes).1 in
  let st2 := (stopPhysics st1).1 in
  length (savedTransforms st1) = 2%nat
  ∧ heap st2 = heap twoBoxes
  ∧ ∃ body', world st2 !! 0%nat = Some body'
           ∧ b_position body' = mkVec3 5 0 0
           ∧ b_linearVelocity body' = vec0
           ∧ b_angularVelocity body' = vec0.
Proof.
  intros st1 st2.
  destruct (stop_after_start_is_identity twoBoxes)
    as (_ & _ & _ & _ & _ & Hheap & _ & Hbody).
  - vm_compute; reflexivity.
  - vm_compute; reflexivity.
  - vm_compute; reflexivity.
  - exact twoBoxes_bodiesUnshared.
  - exact twoBoxes_ids.
  - split; [vm_compute; reflexivity|]. split; [exact Hheap|].
    destruct twoBoxes_second as (e & o & body & He & Ho & Hm & Hb & Hw & Hpos).
    destruct (Hbody e o 0%nat body He Ho Hm Hb Hw)
      as (body' & Hw' & Hp & _ & Hl & Ha).
    exists body'. split; [exact Hw'|]. split; [|by split].
    rewrite Hp. exact Hpos.
Defined.


(** [tick_clamp_and_substeps] on a frame of 0.05 s. *)
Lemma tick_of_a_twentieth :
  let deltaTime := clampDelta (1 # 20) in
  stepLog (animate (H := stillEngine) (1 # 20) planetAndBall)
    = (deltaTime, numStepsFor deltaTime) :: stepLog planetAndBall
  ∧ time (animate (H := stillEngine) (1 # 20) planetAndBall)
    = (time planetAndBall + deltaTime)%Q
  ∧ (deltaTime <= 1 / 30)%Q
  ∧ ((1 # 20 <= 1 / 30)%Q → deltaTime = (1 # 20)%Q)
  ∧ ((1 / 30 < 1 # 20)%Q → deltaTime = (1 / 30)%Q)
  ∧ ((1 / 55 < deltaTime)%Q → numStepsFor deltaTime = 2%Z)
  ∧ ((deltaTime <= 1 / 55)%Q → numStepsFor deltaTime = 1%Z)
  ∧ numStepsFor (clampDelta (1 # 100)) = 1%Z
  ∧ numStepsFor (clampDelta (1 # 20)) = 2%Z.
Proof.
  apply (tick_clamp_and_substeps (H := stillEngine) (1 # 20) planetAndBall);
    reflexivity.
Defined.

Lemma fxMesh_handlesDistinct : handlesDistinct fxMesh.
Proof. vm_compute. apply NoDup_singleton. Defined.

(** [layer_opacity_from_base] on the layer "fx" set to 0.5: the mesh "m"
    has opacity 1 * 0.5 and is transparent. *)
Lemma layer_opacity_fx_half :
  ∃ o' m',
    heap (updateLayerOpacity "fx" (1 # 2) fxMesh) !! 0%nat = Some o'
    ∧ o_material o' = Some m'
    ∧ (mat_opacity m' == 1 * (1 # 2))%Q
    ∧ mat_transparent m' = true.
Proof.
  destruct (layer_opacity_from_base "fx" (1 # 2) fxMesh)
    as (_ & _ & Hmesh & _).
  - discriminate.
  - exact fxMesh_handlesDistinct.
  - edestruct Hmesh as (o' & m' & Ho' & Hm' & Hop & Htr & _);
      [ eapply (list_elem_of_lookup_2 _ 0%nat); vm_compute; reflexivity
      | vm_compute; reflexivity | vm_compute; reflexivity
      | vm_compute; reflexivity | vm_compute; reflexivity
      | vm_compute; reflexivity | ].
    exists o', m'. split; [exact Ho'|]. split; [exact Hm'|].
    split; [exact Hop|]. by apply Htr.
Defined.

(** [missing_layer_defaults] on a fresh instance: a box added on the
    layer "fx" creates the layer with opacity 0.5 and is itself transparent
    with opacity 0.5. *)
Lemma missing_layer_fx :
  let config := set_c_layer (Some "fx") (meshConfig (Some "m") boxShape vec0) in
  let st' := (addObject config newIsoCard).1 in
  layers st' !! "fx" = Some (mkLayer true (1 # 2))
  ∧ ∃ mesh m',
      heap st' !! 0%nat = Some mesh
      ∧ o_material mesh = Some m'
      ∧ mat_transparent m' = true
      ∧ mat_opacity m' = (1 * (1 # 2))%Q.
Proof.
  intros config st'.
  destruct (missing_layer_defaults newIsoCard) as (Hadd & _ & _).
  destruct (Hadd config) as (Hlayer & Hmesh); [vm_compute; reflexivity|].
  split; [exact Hlayer|].
  edestruct Hmesh as (mesh & m' & Hh & _ & _ & _ & Hmat & Htr & Hop);
    [vm_compute; reflexivity|vm_compute; reflexivity|vm_compute; reflexivity|].
  exists mesh, m'. split; [exact Hh|]. split; [exact Hmat|].
  split; [exact Htr|exact Hop].
Defined.

(** * Reachable scenes *)

Ltac reach :=
  lazymatch goal with
  | |- reachable newIsoCard => apply rtc_refl
  | |- reachable (setupJOLT ?s) =>
      apply (reachable_step s _); [reach | apply call_setupJOLT]
  | |- reachable (addObject ?c ?s).1 =>
      apply (reachable_step s _); [reach | apply call_addObject]
  | |- reachable (convertObjectToDynamic ?id ?pc ?s).1 =>
      apply (reachable_step s _); [reach | apply call_convertObjectToDynamic]
  | |- reachable (startPhysics ?s).1 =>
      apply (reachable_step s _); [reach | apply call_startPhysics]
  end.

Lemma reachable_readyBox : reachable (H := stillEngine) readyBox.
Proof. unfold readyBox, readyIsoCard. reach. Qed.

Lemma reachable_twoBoxes : reachable (H := stillEngine) twoBoxes.
Proof. unfold twoBoxes, readyBox, readyIsoCard. cbv zeta. reach. Qed.

Lemma reachable_planetAndBall : reachable (H := stillEngine) planetAndBall.
Proof. unfold planetAndBall, readyIsoCard. cbv zeta. reach. Qed.

(** * The further properties at concrete inputs *)

(** [gravity_center_stays_at_origin] on the radial scene: the planet was
    added at (3,0,0), the centre is the origin. *)
Lemma gravity_center_of_planetAndBall : gravityCenter planetAndBall = vec0.
Proof.
  exact (gravity_center_stays_at_origin (H := stillEngine) planetAndBall
           reachable_planetAndBall).
Defined.

(** [dynamic_objects_tracked_once] on the radial scene. *)
Lemma dynamic_objects_of_planetAndBall :
  NoDup (dynamicObjects planetAndBall)
  ∧ ∀ r, r ∈ dynamicObjects planetAndBall →
      ∃ mesh b body,
        heap planetAndBall !! r = Some mesh
        ∧ ud_body (o_userData mesh) = Some b
        ∧ world planetAndBall !! b = Some body.
Proof.
  exact (dynamic_objects_tracked_once (H := stillEngine) planetAndBall
           reachable_planetAndBall).
Defined.

(** [registry_handles_distinct] on the two boxes. *)
Lemma registry_handles_of_twoBoxes :
  handlesDistinct twoBoxes
  ∧ ∀ e, e ∈ objects twoBoxes → is_Some (heap twoBoxes !! e_threeObj e).
Proof.
  exact (registry_handles_distinct (H := stillEngine) twoBoxes
           reachable_twoBoxes).
Defined.

(** [body_has_one_owner] on the two boxes. *)
Lemma body_owner_in_twoBoxes : bodiesUnshared twoBoxes.
Proof.
  exact (body_has_one_owner (H := stillEngine) twoBoxes reachable_twoBoxes).
Defined.

(** [engine_interfaces_together] on the radial scene. *)
Lemma engine_interfaces_of_planetAndBall :
  bodyInterface planetAndBall = jInterface planetAndBall
  ∧ physicsSystem planetAndBall = jInterface planetAndBall
  ∧ (jInterface planetAndBall = true → jolt planetAndBall = true)
  ∧ isPhysicsInitialized planetAndBall = jInterface planetAndBall.
Proof.
  exact (engine_interfaces_together (H := stillEngine) planetAndBall
           reachable_planetAndBall).
Defined.

(** [renderSync_returns_iff_engine] on the two boxes, a frame of 1/60 s. *)
Lemma renderSync_of_twoBoxes :
  (∃ st', renderSync (H := stillEngine) (1 # 60) twoBoxes = Returned st')
  ↔ jInterface twoBoxes = true.
Proof.
  exact (renderSync_returns_iff_engine (H := stillEngine) (1 # 60) twoBoxes
           reachable_twoBoxes).
Defined.

(** [addObject_lookup] on a second mesh named "a": the lookup still gives
    the first. *)
Lemma addObject_lookup_second_a :
  let config := meshConfig (Some "a") sphereShape (mkVec3 1 0 0) in
  find (IdStr "a") (objects (addObject config oneBox).1) =
  match find (IdStr "a") (objects oneBox) with
  | Some old => Some old
  | None =>
      Some (mkEntry (IdStr "a") (length (heap oneBox))
              (withName (withDefaults config) (IdStr "a")))
  end.
Proof.
  intros config.
  apply (addObject_lookup config oneBox (IdStr "a")).
  vm_compute; reflexivity.
Defined.

(** [replaceObject_success] on the box "a" replaced by a sphere. *)
Lemma replaceObject_success_sphere :
  let newConfig := meshConfig (Some "a") sphereShape vec0 in
  let st' := (replaceObject (IdStr "a") newConfig oneBox).1 in
  ∃ index old obj,
    findIndex (IdStr "a") (objects oneBox) = Some index
    ∧ objects oneBox !! index = Some old
    ∧ objects st' =
        <[index := mkEntry (IdStr "a") (length (heap oneBox))
                     (withName (withDefaults newConfig) (IdStr "a"))]>
          (objects oneBox)
    ∧ heap st' !! length (heap oneBox) = Some obj
    ∧ ud_body (o_userData obj) = None
    ∧ Node (length (heap oneBox)) ∈ scene st'
    ∧ (e_threeObj old < length (heap oneBox) →
       (Node (e_threeObj old) ∉ scene st')
       ∧ heap st' !! e_threeObj old
         = dispose <$> (heap oneBox !! e_threeObj old)
       ∧ (bodyOf <$> heap st' !! e_threeObj old)
         = (bodyOf <$> heap oneBox !! e_threeObj old))
    ∧ world st' = world oneBox
    ∧ dynamicObjects st' = dynamicObjects oneBox.
Proof.
  intros newConfig st'.
  apply (replaceObject_success (IdStr "a") newConfig oneBox st').
  vm_compute; reflexivity.
Defined.

(** [updateObject_throws_without_layer] on the box replaced onto the layer
    "loft": enabling it throws. *)
Lemma updateObject_throws_on_strayBox :
  let updates := set_c_enabled (Some true) emptyConfig in
  ∃ st',
    updateObject (IdStr "a") updates strayBox = Thrown st'
    ∧ layers st' = layers strayBox.
Proof.
  intros updates.
  edestruct (updateObject_throws_without_layer (IdStr "a") updates strayBox)
    as (st' & index & Hthrown & _ & _ & Hlayers & _);
    [vm_compute; reflexivity|vm_compute; reflexivity|vm_compute; reflexivity
    |vm_compute; reflexivity|].
  exists st'. split; [exact Hthrown|exact Hlayers].
Defined.

(** [setLayerVisibility_spec] on the layer "fx" hidden. *)
Lemma setLayerVisibility_fx_hidden :
  let st' := setLayerVisibility "fx" false fxMesh in
  layers st' =
    match layerSlot (layers fxMesh) "fx" with
    | OwnLayer l => <["fx" := mkLayer false (l_opacity l)]> (layers fxMesh)
    | NoLayer => <["fx" := mkLayer false (1 # 2)]> (layers fxMesh)
    | InheritedMember => layers fxMesh
    end
  ∧ objects st' = objects fxMesh
  ∧ ∀ e, e ∈ objects fxMesh →
      heap st' !! e_threeObj e =
      (λ o, if String.eqb (layerOf (e_config e)) "fx"
            then set_o_visible
                   (false && default true (c_enabled (e_config e))) o
            else o) <$> (heap fxMesh !! e_threeObj e).
Proof.
  exact (setLayerVisibility_spec "fx" false fxMesh fxMesh_handlesDistinct).
Defined.

Lemma fxMesh_ids : NoDup (e_id <$> objects fxMesh).
Proof. vm_compute. apply NoDup_singleton. Defined.

(** [removeLayer_spec] on the layer "fx". *)
Lemma removeLayer_fx :
  let st' := (removeLayer "fx" fxMesh).1 in
  (layerSlot (layers fxMesh) "fx" = NoLayer →
   removeLayer "fx" fxMesh = (fxMesh, 0%nat))
  ∧ (layerSlot (layers fxMesh) "fx" ≠ NoLayer →
       objects st'
         = filter (λ e, layerOf (e_config e) ≠ "fx") (objects fxMesh)
       ∧ (removeLayer "fx" fxMesh).2
         = length (filter (λ e, layerOf (e_config e) = "fx") (objects fxMesh))
       ∧ layers st' = delete "fx" (layers fxMesh)
       ∧ world st' = world fxMesh
       ∧ dynamicObjects st' = dynamicObjects fxMesh).
Proof.
  exact (removeLayer_spec "fx" fxMesh fxMesh_ids).
Defined.

(** [reattach_releases_old_body] on the box "b" attached again, as a static
    body. *)
Lemma reattach_box_b :
  let item := default (mkEntry IdUndefined 0 emptyConfig)
                (find (IdStr "b") (objects twoBoxes)) in
  let mesh := default (newObject3D KMesh) (heap twoBoxes !! e_threeObj item) in
  let st' :=
    (convertObjectToDynamic (H := stillEngine) (IdStr "b") (motion "static")
       twoBoxes).1 in
  length (world st') = S (length (world twoBoxes))
  ∧ ∀ b body, world twoBoxes !! b = Some body →
      world st' !! b =
      Some (if decide (ud_body (o_userData mesh) = Some b)
            then removeAndDestroy body else body).
Proof.
  intros item mesh st'.
  apply (reattach_releases_old_body (H := stillEngine) (IdStr "b")
           (motion "static") twoBoxes st' item mesh);
    vm_compute; reflexivity.
Defined.

(** [attached_body_properties] on the box "a" attached as a dynamic body. *)
Lemma attached_body_of_box_a :
  let pc := motion "dynamic" in
  let st' :=
    (convertObjectToDynamic (H := stillEngine) (IdStr "a") pc readyBox).1 in
  ∃ index item mesh mesh' body,
    findIndex (IdStr "a") (objects readyBox) = Some index
    ∧ objects readyBox !! index = Some item
    ∧ heap readyBox !! e_threeObj item = Some mesh
    ∧ world st' !! length (world readyBox) = Some body
    ∧ b_shape body
      = joltShapeOf (H := stillEngine)
          (getScaledShapeDimensions (e_config item) mesh) mesh
    ∧ b_position body = o_position mesh
    ∧ b_rotation body = o_quaternion mesh
    ∧ b_massOverride body
      = (if decide (motionTypeOf pc = EMotionType_Dynamic)
         then p_mass pc else None)
    ∧ b_friction body = p_friction pc
    ∧ b_restitution body = p_restitution pc
    ∧ b_name body = Some (IdStr "a")
    ∧ heap st' !! e_threeObj item = Some mesh'
    ∧ ud_body (o_userData mesh') = Some (length (world readyBox))
    ∧ ud_isStatic (o_userData mesh')
      = Some (bool_decide (motionTypeOf pc = EMotionType_Static))
    ∧ ud_isDynamic (o_userData mesh')
      = Some (bool_decide (motionTypeOf pc = EMotionType_Dynamic))
    ∧ ud_isKinematic (o_userData mesh')
      = Some (bool_decide (motionTypeOf pc = EMotionType_Kinematic))
    ∧ ud_physicsConfig (o_userData mesh') = Some pc
    ∧ objects st' =
        <[index := mkEntry (e_id item) (e_threeObj item)
                     (set_c_physics (Some pc) (e_config item))]>
          (objects readyBox).
Proof.
  intros pc st'.
  apply (attached_body_properties (H := stillEngine) (IdStr "a") pc readyBox
           st').
  vm_compute; reflexivity.
Defined.

(** [animate_syncs_dynamic_objects] on the radial scene, a frame of
    1/60 s. *)
Lemma animate_syncs_planetAndBall :
  let st' := animate (H := stillEngine) (1 # 60) planetAndBall in
  objects st' = objects planetAndBall
  ∧ dynamicObjects st' = dynamicObjects planetAndBall
  ∧ length (world st') = length (world planetAndBall)
  ∧ (∀ r, r ∉ dynamicObjects planetAndBall →
       heap st' !! r = heap planetAndBall !! r)
  ∧ ∀ r o, heap planetAndBall !! r = Some o →
      ∃ o', heap st' !! r = Some o'
            ∧ o_userData o' = o_userData o ∧ o_scale o' = o_scale o
            ∧ ∀ b body', r ∈ dynamicObjects planetAndBall →
                ud_body (o_userData o) = Some b →
                world st' !! b = Some body' →
                o_position o' = b_position body'
                ∧ o_quaternion o' = b_rotation body'.
Proof.
  apply (animate_syncs_dynamic_objects (H := stillEngine) (1 # 60)
           planetAndBall);
    vm_compute; reflexivity.
Defined.

(** [radial_gravity_once_per_body] on the radial scene. *)
Lemma radial_gravity_on_planetAndBall :
  let st' := applyRadialGravity (H := stillEngine) planetAndBall in
  heap st' = heap planetAndBall
  ∧ length (world st') = length (world planetAndBall)
  ∧ (∀ r o b body, r ∈ dynamicObjects planetAndBall →
       heap planetAndBall !! r = Some o →
       ud_body (o_userData o) = Some b →
       world planetAndBall !! b = Some body →
       world st' !! b
       = Some (from_option (λ force, AddForce force body) body
                 (radialForce (H := stillEngine) vec0
                    (gravityStrength planetAndBall) body)))
  ∧ (∀ b, (∀ r o, r ∈ dynamicObjects planetAndBall →
             heap planetAndBall !! r = Some o →
             ud_body (o_userData o) ≠ Some b) →
       world st' !! b = world planetAndBall !! b).
Proof.
  apply (radial_gravity_once_per_body (H := stillEngine) planetAndBall
           reachable_planetAndBall).
  vm_compute; reflexivity.
Defined.

(** [radial_gravity_config_order] on a new instance and a radial
    configuration of strength 500: configured before the engine is set up,
    the engine keeps pulling down with 9.81 and the strength is the
    constructor's. *)
Lemma radial_gravity_config_on_new :
  let g := mkGravityCfg (Some "radial") None (Some 500%Q) in
  let gravity := mergeGravity (sceneConfig_gravity newIsoCard) g in
  let late := setGravityConfig g (setupJOLT newIsoCard) in
  let early := setupJOLT (setGravityConfig g newIsoCard) in
  (gravityType late = "radial"
   ∧ nativeGravity late = vec0
   ∧ gravityStrength late = orQ (g_strength gravity) 1000)
  ∧ (gravityType early = "radial"
     ∧ nativeGravity early = default defaultGravityVector (g_vector gravity)
     ∧ gravityStrength early = gravityStrength newIsoCard)
  ∧ sceneConfig_gravity late = gravity
  ∧ sceneConfig_gravity early = gravity.
Proof.
  intros g gravity late early.
  apply (radial_gravity_config_order g newIsoCard); vm_compute; reflexivity.
Defined.

(** [collision_shape_follows_geometry] on the 2 x 1 x 3 box, its mesh
    scaled by (2, 1, 1). *)
Lemma collision_shape_of_brick :
  let config := meshConfig None brick vec0 in
  let mesh := set_o_scale (mkVec3 2 1 1) (newObject3D KMesh) in
  let scale := o_scale mesh in
  ∃ w h d rest,
    createGeometry brick
    = Some (mkGeometry "BoxGeometry" (w :: h :: d :: rest) false)
    ∧ joltShapeOf (H := stillEngine) (getScaledShapeDimensions config mesh) mesh
      = BoxShape (Some (w * vx scale / 2)%Q) (Some (h * vy scale / 2)%Q)
          (Some (d * vz scale / 2)%Q) convexRadius.
Proof.
  intros config mesh scale.
  exact (collision_shape_follows_geometry (H := stillEngine) config brick mesh
           eq_refl).
Defined.

(** [static_conversion_keeps_old_bodies] on the two boxes: "b" keeps its
    dynamic body in the world and its place in the dynamic set. *)
Lemma static_conversion_of_twoBoxes :
  let st' := convertMainLayerToStaticBodies (H := stillEngine) twoBoxes in
  dynamicObjects st' = dynamicObjects twoBoxes
  ∧ (e_id <$> objects st') = (e_id <$> objects twoBoxes)
  ∧ (e_threeObj <$> objects st') = (e_threeObj <$> objects twoBoxes)
  ∧ (∃ new, world st' = world twoBoxes ++ new)
  ∧ (∀ r o, heap twoBoxes !! r = Some o →
       ∃ o', heap st' !! r = Some o'
             ∧ o_position o' = o_position o
             ∧ o_quaternion o' = o_quaternion o
             ∧ ud_isDynamic (o_userData o') = ud_isDynamic (o_userData o))
  ∧ ∀ e mesh, e ∈ objects twoBoxes → layerOf (e_config e) = "main" →
      heap twoBoxes !! e_threeObj e = Some mesh → isMesh mesh = true →
      ∃ mesh' b body,
        heap st' !! e_threeObj e = Some mesh'
        ∧ ud_body (o_userData mesh') = Some b
        ∧ ud_isStatic (o_userData mesh') = Some true
        ∧ length (world twoBoxes) ≤ b
        ∧ world st' !! b = Some body
        ∧ b_motionType body = EMotionType_Static
        ∧ b_layer body = LAYER_NON_MOVING
        ∧ b_position body = o_position mesh
        ∧ b_rotation body = o_quaternion mesh
        ∧ b_added body = true ∧ b_destroyed body = false.
Proof.
  apply (static_conversion_keeps_old_bodies (H := stillEngine) twoBoxes);
    vm_compute; reflexivity.
Defined.

Lemma reachable_declaredPlanet :
  reachable (H := stillEngine) (addObject planetConfig newIsoCard).1.
Proof. reach. Qed.

Lemma declaredPlanet_ids :
  NoDup (e_id <$> objects (addObject planetConfig newIsoCard).1).
Proof. vm_compute. apply NoDup_singleton. Defined.

(** [initializeScenePhysics_attaches_declared] on a new instance holding
    the planet, whose descriptor declares a static body. *)
Lemma initializeScenePhysics_of_planet :
  let st := (addObject planetConfig newIsoCard).1 in
  let st' := initializeScenePhysics (H := stillEngine) st in
  isPhysicsInitialized st' = true
  ∧ objects st' = objects st
  ∧ ∀ e pc mesh, e ∈ objects st → c_physics (e_config e) = Some pc →
      heap st !! e_threeObj e = Some mesh → isMesh mesh = true →
      ∃ mesh' b body,
        heap st' !! e_threeObj e = Some mesh'
        ∧ ud_body (o_userData mesh') = Some b
        ∧ world st' !! b = Some body
        ∧ b_motionType body = motionTypeOf pc
        ∧ b_position body = o_position mesh
        ∧ b_rotation body = o_quaternion mesh
        ∧ b_added body = true ∧ b_destroyed body = false
        ∧ (e_threeObj e ∈ dynamicObjects st'
           ↔ motionTypeOf pc = EMotionType_Dynamic).
Proof.
  intros st st'.
  exact (initializeScenePhysics_attaches_declared (H := stillEngine) st
           reachable_declaredPlanet declaredPlanet_ids).
Defined.

(** [floor_survives_reset] on the box "a" with the engine up. *)
Lemma floor_survives_reset_of_readyBox :
  let r := length (heap readyBox) in
  let st' := resetPhysics (createFloor 50 readyBox) in
  jInterface st' = false
  ∧ Node r ∈ scene st'
  ∧ (∀ e, e ∈ objects st' → e_threeObj e ≠ r)
  ∧ ∃ floor,
      heap st' !! r = Some floor
      ∧ isMesh floor = true
      ∧ ud_body (o_userData floor) = Some (length (world readyBox)).
Proof.
  apply (floor_survives_reset (H := stillEngine) 50 readyBox
           reachable_readyBox).
  vm_compute; reflexivity.
Defined.
